(** * sentry-native crash-capture backends

    A shallow embedding of [src/backends/sentry_backend_inproc.c] and of the
    breadcrumb ring, crash hook and shutdown of
    [src/backends/sentry_backend_crashpad.cpp].

    Layout: the structured-value store and the process state come first,
    then the embedded functions (one definition per C function, named after
    it), then the theorems. *)

From Stdlib Require Import ZArith Lia.
From stdpp Require Import base list gmap strings.

Local Open Scope Z_scope.

(** ** Machine integers *)

(** [(int32_t) x]: reinterpretation of the low 32 bits as a signed number. *)
Definition to_int32 (x : Z) : Z := (x + 2 ^ 31) mod 2 ^ 32 - 2 ^ 31.

(** [(uint64_t) p]. *)
Definition to_uint64 (x : Z) : Z := x mod 2 ^ 64.

(** ** Structured values

    [sentry_value_t] is a handle: scalars are immediate, objects and lists
    live in a store of shared cells and are named by their address.  The
    code attaches an object to its parent before filling it in, so the
    sharing matters and is modelled. *)

Inductive sentry_value_t : Type :=
  | VNull
  | VBool (b : bool)
  | VInt32 (n : Z)
  | VString (s : string)
  | VAddr (a : Z)
  | VRef (p : nat).

Inductive thing : Type :=
  | TObject (pairs : list (string * sentry_value_t))
  | TList (items : list sentry_value_t).

Abbreviation store := (list thing).

#[global] Instance sentry_value_eq_dec : EqDecision sentry_value_t.
Proof. solve_decision. Defined.

(** ** Collaborator calls seen from outside *)

Inductive sentry_session_status_t : Type :=
  | SENTRY_SESSION_STATUS_OK
  | SENTRY_SESSION_STATUS_CRASHED
  | SENTRY_SESSION_STATUS_ABNORMAL
  | SENTRY_SESSION_STATUS_EXITED.

(** [opts->transport]: the transport the host configured, or the disk
    transport installed by [sentry__enforce_disk_transport]. *)
Inductive sentry_transport_t : Type :=
  | HostTransport (id : Z)
  | DiskTransport.

(** [struct sigaction].  In the C library [sa_handler] and [sa_sigaction]
    name the same storage: a write through either member writes both, and
    a struct the kernel hands back has both equal.  The two are kept as two
    fields, so that every read is of the member the code names, and a write
    sets both. *)
Record sigaction_t : Type := mk_sigaction {
  sa_handler : Z;
  sa_sigaction : Z;
  sa_mask : Z;
  sa_flags : Z
}.

#[global] Instance sigaction_eq_dec : EqDecision sigaction_t.
Proof. solve_decision. Defined.

(** [stack_t]. *)
Record stack_t : Type := mk_stack {
  ss_sp : Z;
  ss_size : Z;
  ss_flags : Z
}.

(** One entry per call that leaves the backend, oldest first.  The calls
    of the value API that build and read values have no entry: what they do
    is in the store.  [sentry_get_options], the [SENTRY_DEBUG] and
    [SENTRY_TRACEF] macros, and [memset] and [sigemptyset] on the file's own
    globals have none either. *)
Inductive event : Type :=
  | E_page_allocator_enable
  | E_enter_signal_handler
  | E_leave_signal_handler
  | E_write_crash_marker
  | E_enforce_disk_transport
  | E_end_current_session_with_status (status : sentry_session_status_t)
  | E_unwind_stack_from_ucontext (max_frames : nat)
  | E_capture_event (ev : sentry_value_t)
  | E_transport_dump_queue (t : option sentry_transport_t)
  | E_transport_free (t : option sentry_transport_t)
  | E_sigaction_set (signum : Z) (act : sigaction_t)
  | E_sigaction_get (signum : Z)
  | E_sigaltstack (ss : stack_t)
  | E_malloc (size : Z)
  | E_free (p : Z)
  | E_raise (signum : Z)
  | E_call_sa_sigaction (f signum info user_context : Z)
  | E_call_sa_handler (f signum : Z)
  | E_SetUnhandledExceptionFilter (f : Z)
  | E_SetErrorMode (mode : Z)
  | E_call_previous_filter (f : Z)
  | E_scope_apply_to_event (ev : sentry_value_t)
  | E_value_to_msgpack (v : sentry_value_t)
  | E_value_decref (v : sentry_value_t)
  | E_free_mpack (buf : list Byte.byte)
  | E_path_touch (path : string)
  | E_path_write_buffer (path : string) (buf : list Byte.byte)
  | E_path_append_buffer (path : string) (buf : list Byte.byte).

(** ** Process state

    [plat] holds what only one platform has (the handler tables). *)

Record world (P : Type) : Type := mk_world {
  heap : store;
  transport : option sentry_transport_t;
  log : list event;
  plat : P
}.

Arguments mk_world {P}.
Arguments heap {P}.
Arguments transport {P}.
Arguments log {P}.
Arguments plat {P}.

(** ** A state monad for the C statements *)

Definition M (P A : Type) : Type := world P -> A * world P.

Definition ret {P A} (a : A) : M P A := fun w => (a, w).

Definition bind {P A B} (m : M P A) (k : A -> M P B) : M P B :=
  fun w => let (a, w') := m w in k a w'.

Declare Scope sentry_scope.
Delimit Scope sentry_scope with sentry.

Notation "x <- m ;; k" := (bind m (fun x => k))
  (at level 100, m at next level, right associativity) : sentry_scope.
Notation "m ;;; k" := (bind m (fun _ => k))
  (at level 100, right associativity) : sentry_scope.

Local Open Scope sentry_scope.

Definition exec {P A} (m : M P A) (w : world P) : world P := snd (m w).
Definition eval {P A} (m : M P A) (w : world P) : A := fst (m w).

Definition emit {P} (e : event) : M P unit :=
  fun w => (tt, mk_world (heap w) (transport w) (log w ++ [e]) (plat w)).

Definition get_plat {P} : M P P := fun w => (plat w, w).

Definition set_plat {P} (p : P) : M P unit :=
  fun w => (tt, mk_world (heap w) (transport w) (log w) p).

Definition get_transport {P} : M P (option sentry_transport_t) :=
  fun w => (transport w, w).

Definition set_transport {P} (t : option sentry_transport_t) : M P unit :=
  fun w => (tt, mk_world (heap w) t (log w) (plat w)).

Definition get_heap {P} : M P store := fun w => (heap w, w).

Definition set_heap {P} (h : store) : M P unit :=
  fun w => (tt, mk_world h (transport w) (log w) (plat w)).

(** Run a computation on a part [Q] of the platform state. *)
Definition zoom {P Q A} (get : P -> Q) (set : Q -> P -> P) (m : M Q A)
  : M P A :=
  fun w =>
    let (a, w') := m (mk_world (heap w) (transport w) (log w) (get (plat w))) in
    (a, mk_world (heap w') (transport w') (log w') (set (plat w') (plat w))).

(** [for (i = ...; ...; i++) body], over the index values in order. *)
Fixpoint for_each {P A} (l : list A) (body : A -> M P unit) : M P unit :=
  match l with
  | [] => ret tt
  | x :: l' => body x ;;; for_each l' body
  end.

(** ** The value API

    Modelled from the spec: the structured-value constructors and setters of
    [sentry_value.c] are not part of the sources at hand; the spec consumes
    them as "build a structured event" primitives.  Constructors of
    containers allocate a fresh cell; setters mutate the cell the handle
    names and take over the value passed in. *)

Module Value.

Definition alloc {P} (c : thing) : M P sentry_value_t :=
  h <- get_heap ;;
  set_heap (h ++ [c]) ;;;
  ret (VRef (length h)).

Definition new_object {P} : M P sentry_value_t := alloc (TObject []).
Definition new_list {P} : M P sentry_value_t := alloc (TList []).

(** [sentry__value_new_list_with_size]: an empty list with room reserved. *)
Definition new_list_with_size {P} (_ : nat) : M P sentry_value_t :=
  alloc (TList []).

(** [sentry_value_new_event]: an object that already carries the event's
    default members. *)
Definition new_event {P} (defaults : list (string * sentry_value_t))
  : M P sentry_value_t := alloc (TObject defaults).

Definition new_string (s : string) : sentry_value_t := VString s.
Definition new_int32 (n : Z) : sentry_value_t := VInt32 n.
Definition new_bool (b : bool) : sentry_value_t := VBool b.
Definition new_addr (a : Z) : sentry_value_t := VAddr a.

(** [sentry__value_new_level (SENTRY_LEVEL_FATAL)]. *)
Definition new_level_fatal : sentry_value_t := VString "fatal".

(** Replace the value under [k], or add the pair at the end. *)
Fixpoint put (k : string) (v : sentry_value_t)
    (pairs : list (string * sentry_value_t)) :=
  match pairs with
  | [] => [(k, v)]
  | (k', v') :: rest =>
      if String.eqb k' k then (k, v) :: rest else (k', v') :: put k v rest
  end.

Fixpoint find (k : string) (pairs : list (string * sentry_value_t))
  : option sentry_value_t :=
  match pairs with
  | [] => None
  | (k', v') :: rest => if String.eqb k' k then Some v' else find k rest
  end.

Definition set_by_key {P} (obj : sentry_value_t) (k : string)
    (v : sentry_value_t) : M P Z :=
  h <- get_heap ;;
  match obj with
  | VRef p =>
      match h !! p with
      | Some (TObject pairs) =>
          set_heap (<[p := TObject (put k v pairs)]> h) ;;; ret 0
      | _ => ret 1
      end
  | _ => ret 1
  end.

Definition append {P} (lst : sentry_value_t) (v : sentry_value_t) : M P Z :=
  h <- get_heap ;;
  match lst with
  | VRef p =>
      match h !! p with
      | Some (TList items) =>
          set_heap (<[p := TList (items ++ [v])]> h) ;;; ret 0
      | _ => ret 1
      end
  | _ => ret 1
  end.

(** Readers, used to state what an event contains. *)
Definition get_by_key (h : store) (obj : sentry_value_t) (k : string)
  : sentry_value_t :=
  match obj with
  | VRef p =>
      match h !! p with
      | Some (TObject pairs) => default VNull (find k pairs)
      | _ => VNull
      end
  | _ => VNull
  end.

Definition keys (h : store) (obj : sentry_value_t) : list string :=
  match obj with
  | VRef p =>
      match h !! p with
      | Some (TObject pairs) => pairs.*1
      | _ => []
      end
  | _ => []
  end.

Definition items (h : store) (lst : sentry_value_t) : list sentry_value_t :=
  match lst with
  | VRef p =>
      match h !! p with
      | Some (TList l) => l
      | _ => []
      end
  | _ => []
  end.

Definition get_length (h : store) (lst : sentry_value_t) : nat :=
  length (items h lst).

Definition get_by_index (h : store) (lst : sentry_value_t) (i : nat)
  : sentry_value_t := default VNull (items h lst !! i).

Definition is_object (h : store) (v : sentry_value_t) : bool :=
  match v with
  | VRef p => match h !! p with Some (TObject _) => true | _ => false end
  | _ => false
  end.

End Value.

(** ** [sentry_backend_inproc.c]: what both platforms share *)

Record signal_slot : Type := SIGNAL_DEF {
  signum : Z;
  signame : string;
  sigdesc : string
}.

Definition MAX_FRAMES : nat := 128.

Section Pipeline.

(** [P]: the platform's handler state; [U]: its [sentry_ucontext_t]. *)
Context {P U : Type}.

(** The default members [sentry_value_new_event] puts into an event. *)
Variable event_defaults : list (string * sentry_value_t).

(** [sentry_unwind_stack_from_ucontext (uctx, buf, max)]: the addresses it
    stored into [buf], in buffer order; its return value is their number. *)
Variable sentry_unwind_stack_from_ucontext : U -> nat -> list Z.

(** The table of the platform and the fault code an [uctx] carries
    ([uctx->signum], or the exception record's [ExceptionCode]). *)
Variable SIGNAL_DEFINITIONS : list signal_slot.
Variable fault_code : U -> Z.

(** The two [#ifdef SENTRY_PLATFORM_UNIX] blocks of [handle_ucontext]. *)
Variable unix_prologue : M P unit.
Variable unix_epilogue : U -> M P unit.

Definition make_signal_event (sig_slot : option signal_slot) (uctx : U)
  : M P sentry_value_t :=
  event <- Value.new_event event_defaults ;;
  Value.set_by_key event "level" Value.new_level_fatal ;;;
  exc <- Value.new_object ;;
  Value.set_by_key exc "type"
    (Value.new_string
       (match sig_slot with
        | Some s => signame s
        | None => "UNKNOWN_SIGNAL"
        end)) ;;;
  Value.set_by_key exc "value"
    (Value.new_string
       (match sig_slot with
        | Some s => sigdesc s
        | None => "UnknownSignal"
        end)) ;;;
  mechanism <- Value.new_object ;;
  Value.set_by_key exc "mechanism" mechanism ;;;
  mechanism_meta <- Value.new_object ;;
  signal_meta <- Value.new_object ;;
  match sig_slot with
  | Some s =>
      Value.set_by_key signal_meta "name" (Value.new_string (signame s)) ;;;
      Value.set_by_key signal_meta "number"
        (Value.new_int32 (to_int32 (signum s))) ;;;
      ret tt
  | None => ret tt
  end ;;;
  Value.set_by_key mechanism_meta "signal" signal_meta ;;;
  Value.set_by_key mechanism "type" (Value.new_string "signalhandler") ;;;
  Value.set_by_key mechanism "synthetic" (Value.new_bool true) ;;;
  Value.set_by_key mechanism "handled" (Value.new_bool false) ;;;
  Value.set_by_key mechanism "meta" mechanism_meta ;;;
  emit (E_unwind_stack_from_ucontext MAX_FRAMES) ;;;
  let backtrace := sentry_unwind_stack_from_ucontext uctx MAX_FRAMES in
  let frame_count := length backtrace in
  frames <- Value.new_list_with_size frame_count ;;
  for_each (seq 0 frame_count) (fun i =>
    frame <- Value.new_object ;;
    Value.set_by_key frame "instruction_addr"
      (Value.new_addr
         (to_uint64 (nth (frame_count - i - 1) backtrace 0))) ;;;
    Value.append frames frame ;;;
    ret tt) ;;;
  stacktrace <- Value.new_object ;;
  Value.set_by_key stacktrace "frames" frames ;;;
  Value.set_by_key exc "stacktrace" stacktrace ;;;
  exceptions <- Value.new_object ;;
  values <- Value.new_list ;;
  Value.set_by_key exceptions "values" values ;;;
  Value.append values exc ;;;
  Value.set_by_key event "exception" exceptions ;;;
  ret event.

(** The scan at the top of [handle_ucontext]: it does not stop at the
    first match, so the last matching slot stays in [sig_slot]. *)
Definition find_slot (code : Z) : option signal_slot :=
  fold_left
    (fun sig_slot s => if Z.eqb (signum s) code then Some s else sig_slot)
    SIGNAL_DEFINITIONS None.

(** Modelled from the spec: [sentry__enforce_disk_transport ()] swaps the
    active transport for the disk fallback transport. *)
Definition sentry__enforce_disk_transport : M P unit :=
  emit E_enforce_disk_transport ;;;
  set_transport (Some DiskTransport).

(** [sentry_capture_event] takes the finished event. *)
Definition sentry_capture_event (ev : sentry_value_t) : M P unit :=
  emit (E_capture_event ev).

Definition handle_ucontext (uctx : U) : M P unit :=
  let sig_slot := find_slot (fault_code uctx) in
  unix_prologue ;;;
  emit E_write_crash_marker ;;;
  transport <- get_transport ;;
  sentry__enforce_disk_transport ;;;
  emit (E_end_current_session_with_status SENTRY_SESSION_STATUS_CRASHED) ;;;
  ev <- make_signal_event sig_slot uctx ;;
  sentry_capture_event ev ;;;
  match transport with
  | Some t => emit (E_transport_dump_queue (Some t))
  | None => ret tt
  end ;;;
  unix_epilogue uctx.

End Pipeline.

(** [for] loop whose body may [return] from the enclosing function: the
    body answers [true] when it returned, and the rest is skipped. *)
Fixpoint for_each_return {P A} (l : list A) (body : A -> M P bool)
  : M P bool :=
  match l with
  | [] => ret false
  | x :: l' =>
      returned <- body x ;;
      if (returned : bool) then ret true else for_each_return l' body
  end.

(** ** [sentry_backend_inproc.c], [SENTRY_PLATFORM_UNIX] *)

(** The constants of [<signal.h>] the file uses, and the address of
    [handle_signal]; their values differ between systems. *)
Class posix_consts : Type := {
  SIGILL : Z;
  SIGTRAP : Z;
  SIGABRT : Z;
  SIGBUS : Z;
  SIGFPE : Z;
  SIGSEGV : Z;
  SIG_DFL : Z;
  SIG_IGN : Z;
  SA_SIGINFO : Z;
  SA_ONSTACK : Z;
  SS_DISABLE : Z;
  addr_handle_signal : Z
}.

(** What POSIX promises about them: the six signal numbers are distinct,
    the two dispositions differ, [SA_SIGINFO] is a flag bit. *)
Record posix_consts_ok `{posix_consts} : Prop := {
  signals_distinct : NoDup [SIGILL; SIGTRAP; SIGABRT; SIGBUS; SIGFPE; SIGSEGV];
  dfl_not_ign : SIG_DFL <> SIG_IGN;
  siginfo_flag : SA_SIGINFO <> 0
}.

Module Posix.

Definition SIGNAL_COUNT : nat := 6.
Definition SIGNAL_STACK_SIZE : Z := 65536.

Record sentry_ucontext_t : Type := mk_ucontext {
  uctx_signum : Z;
  uctx_siginfo : Z;
  uctx_user_context : Z
}.

(** The kernel's side ([os_handlers], [os_altstack]: the disposition of
    every signal number it accepts, and the alternate stack) and the
    file's globals. *)
Record state : Type := mk_state {
  os_handlers : gmap Z sigaction_t;
  os_altstack : option stack_t;
  g_sigaction : sigaction_t;
  g_previous_handlers : list sigaction_t;
  g_signal_stack : stack_t
}.

Definition zero_sigaction : sigaction_t := mk_sigaction 0 0 0 0.

Section WithConsts.

Context `{posix_consts}.

Definition SIGNAL_DEFINITIONS : list signal_slot :=
  [ SIGNAL_DEF SIGILL "SIGILL" "IllegalInstruction";
    SIGNAL_DEF SIGTRAP "SIGTRAP" "Trap";
    SIGNAL_DEF SIGABRT "SIGABRT" "Abort";
    SIGNAL_DEF SIGBUS "SIGBUS" "BusError";
    SIGNAL_DEF SIGFPE "SIGFPE" "FloatingPointException";
    SIGNAL_DEF SIGSEGV "SIGSEGV" "Segfault" ].

(** [SIGNAL_DEFINITIONS[i].signum] *)
Definition slot_signum (i : nat) : Z :=
  signum (nth i SIGNAL_DEFINITIONS (SIGNAL_DEF 0 "" "")).

(** [g_previous_handlers[i]] *)
Definition previous_handler (st : state) (i : nat) : sigaction_t :=
  nth i (g_previous_handlers st) zero_sigaction.

(** [sigaction (sig, act, oact)] with [oact] either [NULL] or
    [&g_previous_handlers[i]].  The kernel refuses ([-1]) a signal number
    it does not know and then changes nothing. *)
Definition sigaction (sig : Z) (act : option sigaction_t)
    (oact : option nat) : M state Z :=
  st <- get_plat ;;
  match os_handlers st !! sig with
  | None => ret (-1)
  | Some old =>
      let prev :=
        match oact with
        | Some i => <[i := old]> (g_previous_handlers st)
        | None => g_previous_handlers st
        end in
      match act with
      | Some new =>
          emit (E_sigaction_set sig new) ;;;
          set_plat (mk_state (<[sig := new]> (os_handlers st))
                      (os_altstack st) (g_sigaction st) prev
                      (g_signal_stack st))
      | None =>
          emit (E_sigaction_get sig) ;;;
          set_plat (mk_state (os_handlers st) (os_altstack st)
                      (g_sigaction st) prev (g_signal_stack st))
      end ;;;
      ret 0
  end.

(** [sigaltstack (&g_signal_stack, 0)] *)
Definition sigaltstack_g_signal_stack : M state unit :=
  st <- get_plat ;;
  emit (E_sigaltstack (g_signal_stack st)) ;;;
  set_plat (mk_state (os_handlers st) (Some (g_signal_stack st))
              (g_sigaction st) (g_previous_handlers st)
              (g_signal_stack st)).

Definition reset_signal_handlers : M state unit :=
  for_each (seq 0 SIGNAL_COUNT) (fun i =>
    st <- get_plat ;;
    sigaction (slot_signum i) (Some (previous_handler st i)) None ;;;
    ret tt).

Definition invoke_signal_handler (sig info user_context : Z)
  : M state unit :=
  for_each (seq 0 SIGNAL_COUNT) (fun i =>
    if Z.eqb (slot_signum i) sig then
      st <- get_plat ;;
      let handler := previous_handler st i in
      if Z.eqb (sa_handler handler) SIG_DFL then
        emit (E_raise sig)
      else if negb (Z.eqb (Z.land (sa_flags handler) SA_SIGINFO) 0) then
        emit (E_call_sa_sigaction (sa_sigaction handler)
                sig info user_context)
      else if negb (Z.eqb (sa_handler handler) SIG_IGN) then
        emit (E_call_sa_handler (sa_handler handler) sig)
      else ret tt
    else ret tt).

(** [stack_mem] is what [sentry_malloc (SIGNAL_STACK_SIZE)] returned.
    [g_sigaction.sa_sigaction = handle_signal] writes the storage that
    [sa_handler] shares. *)
Definition startup_inproc_backend (stack_mem : Z) : M state unit :=
  emit (E_malloc SIGNAL_STACK_SIZE) ;;;
  st <- get_plat ;;
  set_plat
    (mk_state (os_handlers st) (os_altstack st)
       (mk_sigaction addr_handle_signal addr_handle_signal 0
          (Z.lor SA_SIGINFO SA_ONSTACK))
       (replicate SIGNAL_COUNT zero_sigaction)
       (mk_stack stack_mem SIGNAL_STACK_SIZE 0)) ;;;
  sigaltstack_g_signal_stack ;;;
  returned <- for_each_return (seq 0 SIGNAL_COUNT) (fun i =>
    rv <- sigaction (slot_signum i) None (Some i) ;;
    ret (Z.eqb rv (-1))) ;;
  if (returned : bool) then ret tt
  else
    for_each (seq 0 SIGNAL_COUNT) (fun i =>
      st <- get_plat ;;
      sigaction (slot_signum i) (Some (g_sigaction st)) None ;;;
      ret tt).

Definition shutdown_inproc_backend : M state unit :=
  st <- get_plat ;;
  set_plat
    (mk_state (os_handlers st) (os_altstack st) (g_sigaction st)
       (g_previous_handlers st)
       (mk_stack (ss_sp (g_signal_stack st)) (ss_size (g_signal_stack st))
          SS_DISABLE)) ;;;
  sigaltstack_g_signal_stack ;;;
  st <- get_plat ;;
  emit (E_free (ss_sp (g_signal_stack st))).

Section WithCollaborators.

Variable event_defaults : list (string * sentry_value_t).
Variable sentry_unwind_stack_from_ucontext :
  sentry_ucontext_t -> nat -> list Z.

Definition unix_prologue : M state unit :=
  emit E_page_allocator_enable ;;;
  emit E_enter_signal_handler.

Definition unix_epilogue (uctx : sentry_ucontext_t) : M state unit :=
  reset_signal_handlers ;;;
  emit E_leave_signal_handler ;;;
  invoke_signal_handler (uctx_signum uctx) (uctx_siginfo uctx)
    (uctx_user_context uctx).

Definition handle_ucontext : sentry_ucontext_t -> M state unit :=
  handle_ucontext event_defaults sentry_unwind_stack_from_ucontext
    SIGNAL_DEFINITIONS uctx_signum unix_prologue unix_epilogue.

Definition handle_signal (sig info user_context : Z) : M state unit :=
  handle_ucontext (mk_ucontext sig info user_context).

Definition handle_except (uctx : sentry_ucontext_t) : M state unit :=
  handle_ucontext uctx.

End WithCollaborators.

End WithConsts.

End Posix.

(** ** [sentry_backend_inproc.c], [SENTRY_PLATFORM_WINDOWS] *)

(** The constants of [<windows.h>] the file uses, and the address of
    [handle_exception]. *)
Class winnt_consts : Type := {
  EXCEPTION_ACCESS_VIOLATION : Z;
  EXCEPTION_ARRAY_BOUNDS_EXCEEDED : Z;
  EXCEPTION_BREAKPOINT : Z;
  EXCEPTION_DATATYPE_MISALIGNMENT : Z;
  EXCEPTION_FLT_DENORMAL_OPERAND : Z;
  EXCEPTION_FLT_DIVIDE_BY_ZERO : Z;
  EXCEPTION_FLT_INEXACT_RESULT : Z;
  EXCEPTION_FLT_INVALID_OPERATION : Z;
  EXCEPTION_FLT_OVERFLOW : Z;
  EXCEPTION_FLT_STACK_CHECK : Z;
  EXCEPTION_FLT_UNDERFLOW : Z;
  EXCEPTION_ILLEGAL_INSTRUCTION : Z;
  EXCEPTION_IN_PAGE_ERROR : Z;
  EXCEPTION_INT_DIVIDE_BY_ZERO : Z;
  EXCEPTION_INT_OVERFLOW : Z;
  EXCEPTION_INVALID_DISPOSITION : Z;
  EXCEPTION_NONCONTINUABLE_EXCEPTION : Z;
  EXCEPTION_PRIV_INSTRUCTION : Z;
  EXCEPTION_SINGLE_STEP : Z;
  EXCEPTION_STACK_OVERFLOW : Z;
  EXCEPTION_CONTINUE_SEARCH : Z;
  SEM_FAILCRITICALERRORS : Z;
  addr_handle_exception : Z;
  addr_sentry__crashpad_handler : Z
}.

Module Windows.

Definition SIGNAL_COUNT : nat := 20.

(** [EXCEPTION_POINTERS], with the one field of the exception record the
    code reads through it. *)
Record EXCEPTION_POINTERS : Type := mk_exception_pointers {
  ExceptionCode : Z;
  ExceptionRecord : Z;
  ContextRecord : Z
}.

Record sentry_ucontext_t : Type := mk_ucontext {
  exception_ptrs : EXCEPTION_POINTERS
}.

(** The process-wide top-level filter kept by the system
    ([top_level_filter], [0] for none), its error mode, and the global of
    the file. *)
Record state : Type := mk_state {
  top_level_filter : Z;
  error_mode : Z;
  g_previous_handler : Z
}.

(** [SetUnhandledExceptionFilter (f)] installs [f] and returns the filter
    it replaced. *)
Definition SetUnhandledExceptionFilter (f : Z) : M state Z :=
  st <- get_plat ;;
  emit (E_SetUnhandledExceptionFilter f) ;;;
  set_plat (mk_state f (error_mode st) (g_previous_handler st)) ;;;
  ret (top_level_filter st).

Definition SetErrorMode (mode : Z) : M state unit :=
  st <- get_plat ;;
  emit (E_SetErrorMode mode) ;;;
  set_plat (mk_state (top_level_filter st) mode (g_previous_handler st)).

Definition set_g_previous_handler (f : Z) : M state unit :=
  st <- get_plat ;;
  set_plat (mk_state (top_level_filter st) (error_mode st) f).

Section WithConsts.

Context `{winnt_consts}.

Definition SIGNAL_DEFINITIONS : list signal_slot :=
  [ SIGNAL_DEF EXCEPTION_ACCESS_VIOLATION
      "EXCEPTION_ACCESS_VIOLATION" "AccessViolation";
    SIGNAL_DEF EXCEPTION_ARRAY_BOUNDS_EXCEEDED
      "EXCEPTION_ARRAY_BOUNDS_EXCEEDED" "ArrayBoundsExceeded";
    SIGNAL_DEF EXCEPTION_BREAKPOINT
      "EXCEPTION_BREAKPOINT" "BreakPoint";
    SIGNAL_DEF EXCEPTION_DATATYPE_MISALIGNMENT
      "EXCEPTION_DATATYPE_MISALIGNMENT" "DatatypeMisalignment";
    SIGNAL_DEF EXCEPTION_FLT_DENORMAL_OPERAND
      "EXCEPTION_FLT_DENORMAL_OPERAND" "FloatDenormalOperand";
    SIGNAL_DEF EXCEPTION_FLT_DIVIDE_BY_ZERO
      "EXCEPTION_FLT_DIVIDE_BY_ZERO" "FloatDivideByZero";
    SIGNAL_DEF EXCEPTION_FLT_INEXACT_RESULT
      "EXCEPTION_FLT_INEXACT_RESULT" "FloatInexactResult";
    SIGNAL_DEF EXCEPTION_FLT_INVALID_OPERATION
      "EXCEPTION_FLT_INVALID_OPERATION" "FloatInvalidOperation";
    SIGNAL_DEF EXCEPTION_FLT_OVERFLOW
      "EXCEPTION_FLT_OVERFLOW" "FloatOverflow";
    SIGNAL_DEF EXCEPTION_FLT_STACK_CHECK
      "EXCEPTION_FLT_STACK_CHECK" "FloatStackCheck";
    SIGNAL_DEF EXCEPTION_FLT_UNDERFLOW
      "EXCEPTION_FLT_UNDERFLOW" "FloatUnderflow";
    SIGNAL_DEF EXCEPTION_ILLEGAL_INSTRUCTION
      "EXCEPTION_ILLEGAL_INSTRUCTION" "IllegalInstruction";
    SIGNAL_DEF EXCEPTION_IN_PAGE_ERROR
      "EXCEPTION_IN_PAGE_ERROR" "InPageError";
    SIGNAL_DEF EXCEPTION_INT_DIVIDE_BY_ZERO
      "EXCEPTION_INT_DIVIDE_BY_ZERO" "IntegerDivideByZero";
    SIGNAL_DEF EXCEPTION_INT_OVERFLOW
      "EXCEPTION_INT_OVERFLOW" "IntegerOverflow";
    SIGNAL_DEF EXCEPTION_INVALID_DISPOSITION
      "EXCEPTION_INVALID_DISPOSITION" "InvalidDisposition";
    SIGNAL_DEF EXCEPTION_NONCONTINUABLE_EXCEPTION
      "EXCEPTION_NONCONTINUABLE_EXCEPTION" "NonContinuableException";
    SIGNAL_DEF EXCEPTION_PRIV_INSTRUCTION
      "EXCEPTION_PRIV_INSTRUCTION" "PrivilgedInstruction";
    SIGNAL_DEF EXCEPTION_SINGLE_STEP
      "EXCEPTION_SINGLE_STEP" "SingleStep";
    SIGNAL_DEF EXCEPTION_STACK_OVERFLOW
      "EXCEPTION_STACK_OVERFLOW" "StackOverflow" ].

Definition startup_inproc_backend : M state unit :=
  old <- SetUnhandledExceptionFilter addr_handle_exception ;;
  set_g_previous_handler old ;;;
  SetErrorMode SEM_FAILCRITICALERRORS.

Definition shutdown_inproc_backend : M state unit :=
  st <- get_plat ;;
  current_handler <- SetUnhandledExceptionFilter (g_previous_handler st) ;;
  if negb (Z.eqb current_handler addr_handle_exception) then
    SetUnhandledExceptionFilter current_handler ;;; ret tt
  else ret tt.

Section WithCollaborators.

Variable event_defaults : list (string * sentry_value_t).
Variable sentry_unwind_stack_from_ucontext :
  sentry_ucontext_t -> nat -> list Z.

(** No [SENTRY_PLATFORM_UNIX] block is compiled in. *)
Definition handle_ucontext : sentry_ucontext_t -> M state unit :=
  handle_ucontext event_defaults sentry_unwind_stack_from_ucontext
    SIGNAL_DEFINITIONS (fun uctx => ExceptionCode (exception_ptrs uctx))
    (ret tt) (fun _ => ret tt).

Definition handle_exception (ExceptionInfo : EXCEPTION_POINTERS)
  : M state Z :=
  if Z.eqb (ExceptionCode ExceptionInfo) EXCEPTION_BREAKPOINT
     || Z.eqb (ExceptionCode ExceptionInfo) EXCEPTION_SINGLE_STEP
  then ret EXCEPTION_CONTINUE_SEARCH
  else
    handle_ucontext (mk_ucontext ExceptionInfo) ;;;
    ret EXCEPTION_CONTINUE_SEARCH.

Definition handle_except (uctx : sentry_ucontext_t) : M state unit :=
  handle_ucontext uctx.

End WithCollaborators.

End WithConsts.

End Windows.

(** ** [sentry_backend_crashpad.cpp] *)

(** [SENTRY_BREADCRUMBS_MAX] comes from the public header and [size_t] from
    the compiler: [SIZE_BITS] is its width. *)
Class crumb_consts : Type := {
  SENTRY_BREADCRUMBS_MAX : Z;
  SIZE_BITS : Z
}.

(** What the model asks of them: a positive maximum whose double is
    an [int], and a [size_t] that can hold it. *)
Record crumb_consts_ok `{crumb_consts} : Prop := {
  max_positive : 0 < SENTRY_BREADCRUMBS_MAX;
  max_twice_int : SENTRY_BREADCRUMBS_MAX * 2 < 2 ^ 31;
  size_bits_int : 32 <= SIZE_BITS
}.

(** The conditional-compilation cases of the file. *)
Inductive sentry_platform : Type :=
  | SENTRY_PLATFORM_WINDOWS
  | SENTRY_PLATFORM_LINUX
  | SENTRY_PLATFORM_OTHER.

(** How a write to a file ended: well, or with an error that left
    [residue] in the file. *)
Inductive io_result : Type :=
  | IoOk
  | IoError (residue : list Byte.byte).

(** What the collaborators of one call answer: the encoding
    [sentry_value_to_msgpack] returns ([None] for [NULL]) and the fate of
    the file write that may follow. *)
Record outcome : Type := mk_outcome {
  mpack : option (list Byte.byte);
  io : io_result
}.

Module Crashpad.

Record crashpad_state_t : Type := mk_data {
  db : option Z;
  event_path : option string;
  breadcrumb1_path : option string;
  breadcrumb2_path : option string;
  num_breadcrumbs : Z
}.

(** [backend->data], the files of the run directory, and (Windows) the
    top-level filter with the file's [g_previous_handler]. *)
Record state : Type := mk_state {
  data : crashpad_state_t;
  files : gmap string (list Byte.byte);
  filter : Windows.state
}.

Definition get_data : M state crashpad_state_t :=
  st <- get_plat ;; ret (data st).

Definition set_data (d : crashpad_state_t) : M state unit :=
  st <- get_plat ;; set_plat (mk_state d (files st) (filter st)).

Definition in_filter {A} (m : M Windows.state A) : M state A :=
  zoom filter (fun f st => mk_state (data st) (files st) f) m.

(** Modelled from the spec: the path helpers ("create/touch/write/
    append-buffer on a path") of [sentry_path.h]; a non-zero return value
    reports a failed write. *)
Definition sentry__path_join_str (base other : string) : option string :=
  Some (base +:+ "/" +:+ other).

Definition sentry__path_touch (path : option string) : M state unit :=
  match path with
  | None => ret tt
  | Some p =>
      st <- get_plat ;;
      emit (E_path_touch p) ;;;
      set_plat (mk_state (data st)
                  (<[p := default [] (files st !! p)]> (files st))
                  (filter st))
  end.

Definition sentry__path_write_buffer (p : string) (buf : list Byte.byte)
    (r : io_result) : M state Z :=
  st <- get_plat ;;
  emit (E_path_write_buffer p buf) ;;;
  match r with
  | IoOk =>
      set_plat (mk_state (data st) (<[p := buf]> (files st)) (filter st)) ;;;
      ret 0
  | IoError residue =>
      set_plat (mk_state (data st) (<[p := residue]> (files st)) (filter st)) ;;;
      ret 1
  end.

Definition sentry__path_append_buffer (p : string) (buf : list Byte.byte)
    (r : io_result) : M state Z :=
  st <- get_plat ;;
  emit (E_path_append_buffer p buf) ;;;
  match r with
  | IoOk =>
      set_plat (mk_state (data st)
                  (<[p := default [] (files st !! p) ++ buf]> (files st))
                  (filter st)) ;;;
      ret 0
  | IoError residue =>
      set_plat (mk_state (data st) (<[p := residue]> (files st)) (filter st)) ;;;
      ret 1
  end.

(** [sentry_value_decref] *)
Definition sentry_value_decref (v : sentry_value_t) : M state unit :=
  emit (E_value_decref v).

(** [sentry_value_to_msgpack (v, &size)]: the buffer, or [NULL]; [answer]
    is what the encoder gives for [v]. *)
Definition sentry_value_to_msgpack (v : sentry_value_t)
    (answer : option (list Byte.byte)) : M state (option (list Byte.byte)) :=
  emit (E_value_to_msgpack v) ;;;
  ret answer.

(** [sentry_free (mpack)] *)
Definition sentry_free_mpack (buf : list Byte.byte) : M state unit :=
  emit (E_free_mpack buf).

(** [SENTRY_WITH_SCOPE (scope) { sentry__scope_apply_to_event (scope,
    event, SENTRY_SCOPE_NONE); }]: what the scope puts into the object
    shows in the encoder's answer only. *)
Definition sentry__scope_apply_to_event (ev : sentry_value_t)
  : M state unit :=
  emit (E_scope_apply_to_event ev).

(** [SENTRY_MAKE] and [memset (data, 0, ...)] of [sentry__backend_new]. *)
Definition new_data : crashpad_state_t := mk_data None None None None 0.

Section WithConsts.

Context `{crumb_consts} `{winnt_consts}.
Variable platform : sentry_platform.

(** [num_breadcrumbs++] on a [size_t]. *)
Definition size_wrap (n : Z) : Z := n mod 2 ^ SIZE_BITS.

Definition sentry__crashpad_backend_flush_scope (o : outcome)
  : M state unit :=
  d <- get_data ;;
  match event_path d with
  | None => ret tt
  | Some path =>
      event <- Value.new_object ;;
      sentry__scope_apply_to_event event ;;;
      mpack <- sentry_value_to_msgpack event (mpack o) ;;
      sentry_value_decref event ;;;
      match mpack with
      | None => ret tt
      | Some buf =>
          sentry__path_write_buffer path buf (io o) ;;;
          sentry_free_mpack buf
      end
  end.

Definition sentry__crashpad_backend_add_breadcrumb (o : outcome)
    (breadcrumb : sentry_value_t) : M state unit :=
  d <- get_data ;;
  let first_breadcrumb :=
    Z.eqb (num_breadcrumbs d mod SENTRY_BREADCRUMBS_MAX) 0 in
  let breadcrumb_file :=
    if Z.ltb (num_breadcrumbs d mod (SENTRY_BREADCRUMBS_MAX * 2))
         SENTRY_BREADCRUMBS_MAX
    then breadcrumb1_path d
    else breadcrumb2_path d in
  set_data (mk_data (db d) (event_path d) (breadcrumb1_path d)
              (breadcrumb2_path d) (size_wrap (num_breadcrumbs d + 1))) ;;;
  match breadcrumb_file with
  | None => ret tt
  | Some file =>
      mpack <- sentry_value_to_msgpack breadcrumb (mpack o) ;;
      sentry_value_decref breadcrumb ;;;
      match mpack with
      | None => ret tt
      | Some buf =>
          (if first_breadcrumb
           then sentry__path_write_buffer file buf (io o)
           else sentry__path_append_buffer file buf (io o)) ;;;
          sentry_free_mpack buf
      end
  end.

(** Modelled from the spec: [sentry__enforce_disk_transport (options)]
    installs the disk fallback transport and hands back "a reference to
    whatever transport was active". *)
Definition sentry__enforce_disk_transport_options
  : M state (option sentry_transport_t) :=
  old <- get_transport ;;
  emit E_enforce_disk_transport ;;;
  set_transport (Some DiskTransport) ;;;
  ret old.

(** The body shared by both variants of [sentry__crashpad_handler]. *)
Definition with_options_block : M state unit :=
  emit E_write_crash_marker ;;;
  transport <- sentry__enforce_disk_transport_options ;;
  emit (E_end_current_session_with_status SENTRY_SESSION_STATUS_CRASHED) ;;;
  emit (E_transport_dump_queue transport) ;;;
  current <- get_transport ;;
  emit (E_transport_free current) ;;;
  set_transport transport.

(** [previous_result] is what the chained filter returns (Windows);
    elsewhere the result is [false], written [0]. *)
Definition sentry__crashpad_handler (previous_result : Z) : M state Z :=
  match platform with
  | SENTRY_PLATFORM_WINDOWS =>
      with_options_block ;;;
      st <- get_plat ;;
      emit (E_call_previous_filter
              (Windows.g_previous_handler (filter st))) ;;;
      ret previous_result
  | _ =>
      emit E_page_allocator_enable ;;;
      emit E_enter_signal_handler ;;;
      with_options_block ;;;
      emit E_leave_signal_handler ;;;
      ret 0
  end.

(** The statements of [sentry__crashpad_backend_startup] that touch the
    modelled state; the crashpad client itself is outside.
    [handler_is_file]: the handler path resolved to a file;
    [run_path]: [options->run->run_path]; [flush]: the collaborators'
    answers to the first scope flush; [db_handle]: the database;
    [success]: the result of [StartHandler]. *)
Definition sentry__crashpad_backend_startup (handler_is_file : bool)
    (run_path : string) (flush : outcome) (db_handle : option Z)
    (success : bool) : M state unit :=
  if negb handler_is_file then ret tt
  else
    d <- get_data ;;
    set_data (mk_data (db d)
                (sentry__path_join_str run_path "__sentry-event")
                (sentry__path_join_str run_path "__sentry-breadcrumb1")
                (sentry__path_join_str run_path "__sentry-breadcrumb2")
                (num_breadcrumbs d)) ;;;
    d <- get_data ;;
    sentry__path_touch (event_path d) ;;;
    sentry__path_touch (breadcrumb1_path d) ;;;
    sentry__path_touch (breadcrumb2_path d) ;;;
    sentry__crashpad_backend_flush_scope flush ;;;
    d <- get_data ;;
    set_data (mk_data db_handle (event_path d) (breadcrumb1_path d)
                (breadcrumb2_path d) (num_breadcrumbs d)) ;;;
    if negb success then ret tt
    else
      match platform with
      | SENTRY_PLATFORM_WINDOWS =>
          in_filter
            (old <- Windows.SetUnhandledExceptionFilter
                      addr_sentry__crashpad_handler ;;
             Windows.set_g_previous_handler old)
      | _ => ret tt
      end.

Definition sentry__crashpad_backend_shutdown : M state unit :=
  d <- get_data ;;
  set_data (mk_data None (event_path d) (breadcrumb1_path d)
              (breadcrumb2_path d) (num_breadcrumbs d)) ;;;
  match platform with
  | SENTRY_PLATFORM_WINDOWS =>
      in_filter
        (st <- get_plat ;;
         current_handler <-
           Windows.SetUnhandledExceptionFilter
             (Windows.g_previous_handler st) ;;
         if negb (Z.eqb current_handler addr_sentry__crashpad_handler)
         then Windows.SetUnhandledExceptionFilter current_handler ;;; ret tt
         else ret tt)
  | _ => ret tt
  end.

(** The calls of a run, oldest first, each with the answers of its
    collaborators. *)
Fixpoint add_breadcrumbs (calls : list (outcome * sentry_value_t))
  : M state unit :=
  match calls with
  | [] => ret tt
  | (o, b) :: rest =>
      sentry__crashpad_backend_add_breadcrumb o b ;;;
      add_breadcrumbs rest
  end.

End WithConsts.

End Crashpad.

(** ** Reading a finished event

    What the statements below say about an event is said through the
    readers of the value API and through these descriptions of the cells a
    construction leaves in the store. *)

(** The object made for the [i]-th frame of a backtrace buffer [bt]. *)
Definition frame_cell (bt : list Z) (i : nat) : thing :=
  TObject [("instruction_addr",
            VAddr (to_uint64 (nth (length bt - i - 1) bt 0)))].

Definition slot_name (s : option signal_slot) : string :=
  match s with Some s => signame s | None => "UNKNOWN_SIGNAL" end.

Definition slot_desc (s : option signal_slot) : string :=
  match s with Some s => sigdesc s | None => "UnknownSignal" end.

Definition slot_meta (s : option signal_slot)
  : list (string * sentry_value_t) :=
  match s with
  | Some s =>
      [("name", VString (signame s));
       ("number", VInt32 (to_int32 (signum s)))]
  | None => []
  end.

(** The cells [make_signal_event] adds to a store that held [n] cells, in
    allocation order: event, exception entry, mechanism, its meta, the
    signal meta, the frame list, one object per frame, the stacktrace, the
    [exception] object and its [values] list. *)
Definition event_cells (defaults : list (string * sentry_value_t))
    (n : nat) (s : option signal_slot) (bt : list Z) : list thing :=
  let fc := length bt in
  [ TObject (Value.put "exception" (VRef (n + (6 + fc) + 1))
               (Value.put "level" (VString "fatal") defaults));
    TObject [("type", VString (slot_name s));
             ("value", VString (slot_desc s));
             ("mechanism", VRef (n + 2));
             ("stacktrace", VRef (n + (6 + fc) + 0))];
    TObject [("type", VString "signalhandler");
             ("synthetic", VBool true);
             ("handled", VBool false);
             ("meta", VRef (n + 3))];
    TObject [("signal", VRef (n + 4))];
    TObject (slot_meta s);
    TList (map (fun i => VRef (n + 6 + i)) (seq 0 fc)) ]
  ++ map (frame_cell bt) (seq 0 fc)
  ++ [ TObject [("frames", VRef (n + 5))];
       TObject [("values", VRef (n + (6 + fc) + 2))];
       TList [VRef (n + 1)] ].

(** The single entry of [event.exception.values]. *)
Definition exception_entry (h : store) (event : sentry_value_t)
  : sentry_value_t :=
  Value.get_by_index h
    (Value.get_by_key h (Value.get_by_key h event "exception") "values") 0.

Definition exception_count (h : store) (event : sentry_value_t) : nat :=
  Value.get_length h
    (Value.get_by_key h (Value.get_by_key h event "exception") "values").

Definition mechanism_of (h : store) (event : sentry_value_t)
  : sentry_value_t :=
  Value.get_by_key h (exception_entry h event) "mechanism".

(** [mechanism.meta.signal] *)
Definition signal_meta_of (h : store) (event : sentry_value_t)
  : sentry_value_t :=
  Value.get_by_key h
    (Value.get_by_key h (mechanism_of h event) "meta") "signal".

(** The frame objects of [exception.values[0].stacktrace.frames]. *)
Definition frames_of (h : store) (event : sentry_value_t)
  : list sentry_value_t :=
  Value.items h
    (Value.get_by_key h
       (Value.get_by_key h (exception_entry h event) "stacktrace") "frames").

Definition frame_addresses (h : store) (event : sentry_value_t)
  : list sentry_value_t :=
  map (fun f => Value.get_by_key h f "instruction_addr") (frames_of h event).

(** The [type], [value] and [mechanism] fields of the exception entry. *)
Record exception_fields : Type := mk_fields {
  f_type : sentry_value_t;
  f_value : sentry_value_t;
  f_mechanism_keys : list string;
  f_mechanism_type : sentry_value_t;
  f_synthetic : sentry_value_t;
  f_handled : sentry_value_t;
  f_meta_keys : list string;
  f_signal_keys : list string;
  f_signal_name : sentry_value_t;
  f_signal_number : sentry_value_t
}.

Definition fields_of (h : store) (event : sentry_value_t) : exception_fields :=
  let exc := exception_entry h event in
  let mech := mechanism_of h event in
  let sig := signal_meta_of h event in
  {| f_type := Value.get_by_key h exc "type";
     f_value := Value.get_by_key h exc "value";
     f_mechanism_keys := Value.keys h mech;
     f_mechanism_type := Value.get_by_key h mech "type";
     f_synthetic := Value.get_by_key h mech "synthetic";
     f_handled := Value.get_by_key h mech "handled";
     f_meta_keys := Value.keys h (Value.get_by_key h mech "meta");
     f_signal_keys := Value.keys h sig;
     f_signal_name := Value.get_by_key h sig "name";
     f_signal_number := Value.get_by_key h sig "number" |}.

(** ** The steps of the capture pipeline in a log *)

Definition is_pipeline_step (e : event) : bool :=
  match e with
  | E_write_crash_marker
  | E_enforce_disk_transport
  | E_end_current_session_with_status _
  | E_unwind_stack_from_ucontext _
  | E_capture_event _
  | E_transport_dump_queue _ => true
  | _ => false
  end.

(** The pipeline steps among [l], in the order they were made. *)
Definition pipeline_steps (l : list event) : list event :=
  List.filter is_pipeline_step l.

(** The dump of the transport that was active before the swap. *)
Definition dump_of (old : option sentry_transport_t) : list event :=
  match old with
  | Some t => [E_transport_dump_queue (Some t)]
  | None => []
  end.

(** The calls the branch of [invoke_signal_handler] makes for the recorded
    [handler] of the signal [sig]. *)
Definition rechain `{posix_consts} (handler : sigaction_t)
    (sig info user_context : Z) : list event :=
  if Z.eqb (sa_handler handler) SIG_DFL then [E_raise sig]
  else if negb (Z.eqb (Z.land (sa_flags handler) SA_SIGINFO) 0) then
    [E_call_sa_sigaction (sa_sigaction handler) sig info user_context]
  else if negb (Z.eqb (sa_handler handler) SIG_IGN) then
    [E_call_sa_handler (sa_handler handler) sig]
  else [].

(** The six [sigaction] calls of [reset_signal_handlers]. *)
Definition restore_calls `{posix_consts} (st : Posix.state) : list event :=
  map (fun i => E_sigaction_set (Posix.slot_signum i)
                  (Posix.previous_handler st i))
    (seq 0 Posix.SIGNAL_COUNT).

(** Every signal of the table is one the kernel accepts. *)
Definition signals_known `{posix_consts} (st : Posix.state) : Prop :=
  forall i, (i < Posix.SIGNAL_COUNT)%nat ->
    is_Some (Posix.os_handlers st !! Posix.slot_signum i).

(** ** Concrete systems, for the examples *)

(** [<signal.h>] of Linux on x86-64. *)
Definition linux_consts : posix_consts := {|
  SIGILL := 4; SIGTRAP := 5; SIGABRT := 6; SIGBUS := 7; SIGFPE := 8;
  SIGSEGV := 11;
  SIG_DFL := 0; SIG_IGN := 1;
  SA_SIGINFO := 4; SA_ONSTACK := 134217728; SS_DISABLE := 2;
  addr_handle_signal := 4096
|}.

(** [<winnt.h>]. *)
Definition winnt_values : winnt_consts := {|
  EXCEPTION_ACCESS_VIOLATION := 0xC0000005;
  EXCEPTION_ARRAY_BOUNDS_EXCEEDED := 0xC000008C;
  EXCEPTION_BREAKPOINT := 0x80000003;
  EXCEPTION_DATATYPE_MISALIGNMENT := 0x80000002;
  EXCEPTION_FLT_DENORMAL_OPERAND := 0xC000008D;
  EXCEPTION_FLT_DIVIDE_BY_ZERO := 0xC000008E;
  EXCEPTION_FLT_INEXACT_RESULT := 0xC000008F;
  EXCEPTION_FLT_INVALID_OPERATION := 0xC0000090;
  EXCEPTION_FLT_OVERFLOW := 0xC0000091;
  EXCEPTION_FLT_STACK_CHECK := 0xC0000092;
  EXCEPTION_FLT_UNDERFLOW := 0xC0000093;
  EXCEPTION_ILLEGAL_INSTRUCTION := 0xC000001D;
  EXCEPTION_IN_PAGE_ERROR := 0xC0000006;
  EXCEPTION_INT_DIVIDE_BY_ZERO := 0xC0000094;
  EXCEPTION_INT_OVERFLOW := 0xC0000095;
  EXCEPTION_INVALID_DISPOSITION := 0xC0000026;
  EXCEPTION_NONCONTINUABLE_EXCEPTION := 0xC0000025;
  EXCEPTION_PRIV_INSTRUCTION := 0xC0000096;
  EXCEPTION_SINGLE_STEP := 0x80000004;
  EXCEPTION_STACK_OVERFLOW := 0xC00000FD;
  EXCEPTION_CONTINUE_SEARCH := 0;
  SEM_FAILCRITICALERRORS := 1;
  addr_handle_exception := 8192;
  addr_sentry__crashpad_handler := 12288
|}.

(** A process whose host installed an ANSI handler (at address [555]) for
    [SIGSEGV] and a three-argument one (at [777], with [SA_SIGINFO]) for
    [SIGBUS], left the other four signals at their default, and configured
    a transport. *)
Definition sample_handlers : gmap Z sigaction_t :=
  list_to_map
    [ (4, Posix.zero_sigaction); (5, Posix.zero_sigaction);
      (6, Posix.zero_sigaction); (7, mk_sigaction 777 777 0 4);
      (8, Posix.zero_sigaction); (11, mk_sigaction 555 555 0 0) ].

Definition sample_posix_world : world Posix.state :=
  mk_world [] (Some (HostTransport 1)) []
    (Posix.mk_state sample_handlers None Posix.zero_sigaction []
       (mk_stack 0 0 0)).

(** An unwinder that found three frames, stored innermost first. *)
Definition sample_unwind {U} (_ : U) (max : nat) : list Z :=
  take max [100; 200; 300].

Definition sample_windows_world : world Windows.state :=
  mk_world [] (Some (HostTransport 1)) [] (Windows.mk_state 4242 0 0).

(** The sample process after a successful [startup]. *)
Definition started_posix_world : world Posix.state :=
  exec (@Posix.startup_inproc_backend linux_consts 36864) sample_posix_world.

(** ** The state a fault leaves behind *)

(** The world after the platform-independent middle of [handle_ucontext]
    (marker to queue dump) ran on [w] for the slot [s] and the buffer [bt]. *)
Definition after_capture {P} (defaults : list (string * sentry_value_t))
    (s : option signal_slot) (bt : list Z) (w : world P) : world P :=
  mk_world
    (heap w ++ event_cells defaults (length (heap w)) s bt)
    (Some DiskTransport)
    (log w
     ++ [ E_write_crash_marker;
          E_enforce_disk_transport;
          E_end_current_session_with_status SENTRY_SESSION_STATUS_CRASHED;
          E_unwind_stack_from_ucontext MAX_FRAMES;
          E_capture_event (VRef (length (heap w))) ]
     ++ dump_of (transport w))
    (plat w).

(** The kernel's table once every recorded handler is put back. *)
Definition restored_handlers `{posix_consts} (st : Posix.state)
  : gmap Z sigaction_t :=
  fold_left
    (fun m i => <[Posix.slot_signum i := Posix.previous_handler st i]> m)
    (seq 0 Posix.SIGNAL_COUNT) (Posix.os_handlers st).

(** The calls [invoke_signal_handler] makes for [sig]: the branch of every
    slot whose number is [sig]. *)
Definition rechain_all `{posix_consts} (st : Posix.state)
    (sig info user_context : Z) : list event :=
  concat
    (map (fun i =>
            if Z.eqb (Posix.slot_signum i) sig
            then rechain (Posix.previous_handler st i) sig info user_context
            else [])
       (seq 0 Posix.SIGNAL_COUNT)).

(** A computation that leaves the store and the transport alone and makes
    no call that is a step of the capture pipeline. *)
Definition quiet {P A} (m : M P A) : Prop :=
  forall w,
    heap (exec m w) = heap w
    /\ transport (exec m w) = transport w
    /\ exists evs, log (exec m w) = log w ++ evs /\ pipeline_steps evs = [].

(** The steps every capture makes, for the event [ev]: the unwinder is
    called while the event is built, after the session ended and before the
    event is handed over. *)
Definition capture_steps (ev : sentry_value_t) : list event :=
  [ E_write_crash_marker;
    E_enforce_disk_transport;
    E_end_current_session_with_status SENTRY_SESSION_STATUS_CRASHED;
    E_unwind_stack_from_ucontext MAX_FRAMES;
    E_capture_event ev ].

(** The fields of the exception entry made for the slot [s]. *)
Definition slot_fields (s : signal_slot) : exception_fields :=
  {| f_type := VString (signame s);
     f_value := VString (sigdesc s);
     f_mechanism_keys := ["type"; "synthetic"; "handled"; "meta"];
     f_mechanism_type := VString "signalhandler";
     f_synthetic := VBool true;
     f_handled := VBool false;
     f_meta_keys := ["signal"];
     f_signal_keys := ["name"; "number"];
     f_signal_name := VString (signame s);
     f_signal_number := VInt32 (to_int32 (signum s)) |}.

(** The fields of the exception entry made when no slot matched. *)
Definition unknown_fields : exception_fields :=
  {| f_type := VString "UNKNOWN_SIGNAL";
     f_value := VString "UnknownSignal";
     f_mechanism_keys := ["type"; "synthetic"; "handled"; "meta"];
     f_mechanism_type := VString "signalhandler";
     f_synthetic := VBool true;
     f_handled := VBool false;
     f_meta_keys := ["signal"];
     f_signal_keys := [];
     f_signal_name := VNull;
     f_signal_number := VNull |}.

(** The body of the frame loop of [make_signal_event], for the buffer [bt]
    and the list [frames]. *)
Definition frame_body {P} (bt : list Z) (frames : sentry_value_t) (i : nat)
  : M P unit :=
  frame <- Value.new_object ;;
  Value.set_by_key frame "instruction_addr"
    (Value.new_addr (to_uint64 (nth (length bt - i - 1) bt 0))) ;;;
  Value.append frames frame ;;;
  ret tt.

(** ** The breadcrumb ring, seen from outside *)

(** A call whose breadcrumb encodes to [buf] and whose write goes well. *)
Definition ok_call (c : list Byte.byte * sentry_value_t)
  : outcome * sentry_value_t :=
  (mk_outcome (Some (fst c)) IoOk, snd c).

(** The record of a call: the bytes its breadcrumb encodes to. *)
Definition records (cs : list (list Byte.byte * sentry_value_t))
  : list Byte.byte :=
  concat (map fst cs).

(** The file write the [k]-th call issues for the encoding [buf], counting
    from a backend whose ring files are [file_a] and [file_b]: the words of
    the rotation rule. *)
Definition scheduled_write `{crumb_consts} (file_a file_b : string) (k : Z)
    (buf : list Byte.byte) : event :=
  let target :=
    if Z.ltb (k mod (2 * SENTRY_BREADCRUMBS_MAX)) SENTRY_BREADCRUMBS_MAX
    then file_a else file_b in
  if Z.eqb (k mod SENTRY_BREADCRUMBS_MAX) 0
  then E_path_write_buffer target buf
  else E_path_append_buffer target buf.

Definition scheduled_target `{crumb_consts} (file_a file_b : string) (k : Z)
  : string :=
  if Z.ltb (k mod (2 * SENTRY_BREADCRUMBS_MAX)) SENTRY_BREADCRUMBS_MAX
  then file_a else file_b.

(** A backend right after a successful [startup]: both ring files named,
    no breadcrumb counted yet. *)
Definition ring_started (file_a file_b : string) (st : Crashpad.state)
  : Prop :=
  Crashpad.breadcrumb1_path (Crashpad.data st) = Some file_a
  /\ Crashpad.breadcrumb2_path (Crashpad.data st) = Some file_b
  /\ Crashpad.num_breadcrumbs (Crashpad.data st) = 0
  /\ file_a <> file_b.

(** The public header's maximum, with a 64-bit and with a 32-bit [size_t]. *)
Definition crumbs_100_64 : crumb_consts :=
  {| SENTRY_BREADCRUMBS_MAX := 100; SIZE_BITS := 64 |}.

Definition crumbs_100_32 : crumb_consts :=
  {| SENTRY_BREADCRUMBS_MAX := 100; SIZE_BITS := 32 |}.

(** A ring of two, to follow a whole cycle by hand. *)
Definition crumbs_2_64 : crumb_consts :=
  {| SENTRY_BREADCRUMBS_MAX := 2; SIZE_BITS := 64 |}.

(** A process that made the backend ([sentry__backend_new]) and nothing
    more. *)
Definition new_crashpad_world : world Crashpad.state :=
  mk_world [] (Some (HostTransport 1)) []
    (Crashpad.mk_state Crashpad.new_data ∅ (Windows.mk_state 4242 0 0)).

(** The same process after a [startup] that found the handler and started
    it, on Linux and on Windows, for the run directory "run". *)
Definition started_crashpad_world (platform : sentry_platform)
  : world Crashpad.state :=
  exec (@Crashpad.sentry__crashpad_backend_startup winnt_values platform
          true "run" (mk_outcome (Some []) IoOk) (Some 1) true)
    new_crashpad_world.

(** The same process after a [startup] that did not find the handler
    executable. *)
Definition unstarted_crashpad_world : world Crashpad.state :=
  exec (@Crashpad.sentry__crashpad_backend_startup winnt_values
          SENTRY_PLATFORM_LINUX false "run" (mk_outcome (Some []) IoOk)
          (Some 1) true)
    new_crashpad_world.

(** The file the call made at counter value [c] goes to. *)
Definition file_at `{crumb_consts} (st : Crashpad.state) (c : Z)
  : option string :=
  if Z.ltb (c mod (SENTRY_BREADCRUMBS_MAX * 2)) SENTRY_BREADCRUMBS_MAX
  then Crashpad.breadcrumb1_path (Crashpad.data st)
  else Crashpad.breadcrumb2_path (Crashpad.data st).

(** The file of the block of calls that starts at counter value [c]. *)
Definition block_file `{crumb_consts} (file_a file_b : string) (c : Z)
  : string :=
  if Z.ltb (c mod (SENTRY_BREADCRUMBS_MAX * 2)) SENTRY_BREADCRUMBS_MAX
  then file_a else file_b.

(** The three-argument calls of a recorded handler among the calls made. *)
Definition is_sa_sigaction_call (e : event) : bool :=
  match e with
  | E_call_sa_sigaction _ _ _ _ => true
  | _ => false
  end.

(** ** The state [startup] leaves behind on POSIX *)

(** The handler [startup] installs for every signal of the table. *)
Definition dispatcher `{posix_consts} : sigaction_t :=
  mk_sigaction addr_handle_signal addr_handle_signal 0
    (Z.lor SA_SIGINFO SA_ONSTACK).

(** What the kernel held for the signal of slot [i]. *)
Definition installed_before `{posix_consts} (st : Posix.state) (i : nat)
  : sigaction_t :=
  default Posix.zero_sigaction (Posix.os_handlers st !! Posix.slot_signum i).

(** The kernel's table once the dispatcher is installed for every slot. *)
Definition dispatched_handlers `{posix_consts} (st : Posix.state)
  : gmap Z sigaction_t :=
  fold_left (fun m i => <[Posix.slot_signum i := dispatcher]> m)
    (seq 0 Posix.SIGNAL_COUNT) (Posix.os_handlers st).


(** The calls that hand control to an earlier handler. *)
Definition is_rechain_call (e : event) : bool :=
  match e with
  | E_raise _ | E_call_sa_sigaction _ _ _ _ | E_call_sa_handler _ _ => true
  | _ => false
  end.

(** * Theorems *)

(** ** Running the monad *)

Section Exec.

Context {P : Type}.

Lemma bind_run {A B} (m : M P A) (k : A -> M P B) w a w' :
  m w = (a, w') -> bind m k w = k a w'.
Proof. intros E. unfold bind. rewrite E. reflexivity. Qed.

Lemma exec_bind {A B} (m : M P A) (k : A -> M P B) w :
  exec (bind m k) w = exec (k (eval m w)) (exec m w).
Proof. unfold exec, eval, bind. destruct (m w). reflexivity. Qed.

Lemma eval_bind {A B} (m : M P A) (k : A -> M P B) w :
  eval (bind m k) w = eval (k (eval m w)) (exec m w).
Proof. unfold exec, eval, bind. destruct (m w). reflexivity. Qed.

Lemma run_eta {A} (m : M P A) w : m w = (eval m w, exec m w).
Proof. unfold eval, exec. destruct (m w). reflexivity. Qed.

Lemma lookup_skip {A} (l1 l2 : list A) (n i : nat) :
  length l1 = n -> (l1 ++ l2) !! (n + i)%nat = l2 !! i.
Proof. intros <-. rewrite lookup_app_r by lia. f_equal. lia. Qed.

(** *** The value API on a store [H ++ C] *)

Lemma alloc_run c (h : store) t lg (p : P) :
  Value.alloc c (mk_world h t lg p)
  = (VRef (length h), mk_world (h ++ [c]) t lg p).
Proof. reflexivity. Qed.

Lemma set_by_key_run q k v pairs (h : store) t lg (p : P) :
  h !! q = Some (TObject pairs) ->
  Value.set_by_key (VRef q) k v (mk_world h t lg p)
  = (0, mk_world (<[q := TObject (Value.put k v pairs)]> h) t lg p).
Proof.
  intros E. unfold Value.set_by_key, bind, get_heap, set_heap, ret. cbn.
  rewrite E. reflexivity.
Qed.

Lemma append_run q v items (h : store) t lg (p : P) :
  h !! q = Some (TList items) ->
  Value.append (VRef q) v (mk_world h t lg p)
  = (0, mk_world (<[q := TList (items ++ [v])]> h) t lg p).
Proof.
  intros E. unfold Value.append, bind, get_heap, set_heap, ret. cbn.
  rewrite E. reflexivity.
Qed.

Lemma alloc_tail n c (H C : store) t lg (p : P) :
  length H = n ->
  Value.alloc c (mk_world (H ++ C) t lg p)
  = (VRef (n + length C), mk_world (H ++ (C ++ [c])) t lg p).
Proof. intros <-. rewrite alloc_run, length_app, app_assoc. reflexivity. Qed.

Lemma set_tail n j k v pairs (H C : store) t lg (p : P) :
  length H = n ->
  C !! j = Some (TObject pairs) ->
  Value.set_by_key (VRef (n + j)) k v (mk_world (H ++ C) t lg p)
  = (0, mk_world (H ++ <[j := TObject (Value.put k v pairs)]> C) t lg p).
Proof.
  intros <- E. erewrite set_by_key_run.
  - rewrite insert_app_r. reflexivity.
  - erewrite lookup_skip; eauto.
Qed.

Lemma append_tail n j v items (H C : store) t lg (p : P) :
  length H = n ->
  C !! j = Some (TList items) ->
  Value.append (VRef (n + j)) v (mk_world (H ++ C) t lg p)
  = (0, mk_world (H ++ <[j := TList (items ++ [v])]> C) t lg p).
Proof.
  intros <- E. erewrite append_run.
  - rewrite insert_app_r. reflexivity.
  - erewrite lookup_skip; eauto.
Qed.

Lemma set_mid j k v pairs (h L C : store) t lg (p : P) :
  L !! j = Some (TObject pairs) ->
  Value.set_by_key (VRef (length h + j)) k v
    (mk_world ((h ++ L) ++ C) t lg p)
  = (0, mk_world ((h ++ <[j := TObject (Value.put k v pairs)]> L) ++ C)
          t lg p).
Proof.
  intros E.
  assert (E' : (h ++ L) !! (length h + j)%nat = Some (TObject pairs))
    by (erewrite lookup_skip; eauto).
  pose proof (lookup_lt_Some _ _ _ E') as Hlt.
  erewrite set_by_key_run by (rewrite lookup_app_l by done; exact E').
  rewrite insert_app_l by done. rewrite insert_app_r. reflexivity.
Qed.

(** *** The frame loop of [make_signal_event] *)

Lemma frames_loop_run bt (q : nat) m :
  forall a items (h : store) t lg (p : P),
    h !! q = Some (TList items) ->
    for_each (seq a m) (frame_body bt (VRef q)) (mk_world h t lg p)
    = (tt,
       mk_world
         (<[q := TList (items
                        ++ map (fun i => VRef (length h + i)%nat) (seq 0 m))]>
            h
          ++ map (frame_cell bt) (seq a m)) t lg p).
Proof.
  induction m as [|m IH]; intros a items h t lg p Hq.
  - cbn. rewrite !app_nil_r. rewrite list_insert_id by done. reflexivity.
  - cbn [seq for_each].
    assert (Hlt : (q < length h)%nat) by (eapply lookup_lt_Some; eauto).
    unfold frame_body at 1. unfold Value.new_object.
    erewrite bind_run;
      [| erewrite bind_run by apply alloc_run;
         erewrite bind_run;
           [| apply set_by_key_run; apply list_lookup_middle; reflexivity];
         erewrite bind_run;
           [| apply append_run;
              rewrite (insert_app_r_alt h) by lia; rewrite Nat.sub_diag; cbn;
              rewrite lookup_app_l by lia; exact Hq ];
         reflexivity ].
    rewrite (insert_app_r_alt h) by lia. rewrite Nat.sub_diag.
    cbn [list_insert insert].
    rewrite insert_app_l by lia.
    erewrite IH.
    2:{ rewrite lookup_app_l by (rewrite length_insert; lia).
        rewrite list_lookup_insert_eq by lia. reflexivity. }
    f_equal. f_equal.
    rewrite insert_app_l by (rewrite length_insert; lia).
    rewrite list_insert_insert_eq.
    rewrite <- app_assoc. f_equal.
    f_equal. f_equal. rewrite <- app_assoc. f_equal. cbn [seq map app].
    f_equal. { f_equal. lia. }
    rewrite <- seq_shift, map_map. apply map_ext. intros i.
    rewrite length_app, length_insert. cbn. f_equal. lia.
Qed.

Lemma frames_loop_tail bt n j m a items (H C : store) t lg (p : P) :
  length H = n ->
  C !! j = Some (TList items) ->
  for_each (seq a m) (frame_body bt (VRef (n + j))) (mk_world (H ++ C) t lg p)
  = (tt,
     mk_world
       (H ++ (<[j := TList (items
                            ++ map (fun i => VRef (n + length C + i)%nat)
                                 (seq 0 m))]> C
              ++ map (frame_cell bt) (seq a m))) t lg p).
Proof.
  intros <- E. erewrite frames_loop_run by (erewrite lookup_skip; eauto).
  rewrite insert_app_r, length_app, app_assoc. reflexivity.
Qed.

End Exec.

(** ** [make_signal_event] *)

Section Event.

Context {P U : Type}.
Variable event_defaults : list (string * sentry_value_t).
Variable unwind : U -> nat -> list Z.

Local Ltac norm :=
  cbn [length app list_insert insert Value.put String.eqb Ascii.eqb Bool.eqb
       Value.new_string Value.new_int32 Value.new_bool Value.new_addr].

Local Ltac step_with lem :=
  erewrite bind_run; [| first [ apply lem; reflexivity | apply lem ] ]; norm.

Local Ltac head_steps h :=
  step_with (@alloc_tail P (length h));
  step_with (@set_tail P (length h) 0);
  step_with (@alloc_tail P (length h));
  step_with (@set_tail P (length h) 1);
  step_with (@set_tail P (length h) 1);
  step_with (@alloc_tail P (length h));
  step_with (@set_tail P (length h) 1);
  step_with (@alloc_tail P (length h));
  step_with (@alloc_tail P (length h)).

Local Ltac tail_steps h bt t lg p :=
  step_with (@set_tail P (length h) 3);
  step_with (@set_tail P (length h) 2);
  step_with (@set_tail P (length h) 2);
  step_with (@set_tail P (length h) 2);
  step_with (@set_tail P (length h) 2);
  (erewrite bind_run by reflexivity); cbn [heap transport log plat];
  step_with (@alloc_tail P (length h));
  step_with (@frames_loop_tail P bt (length h) 5);
  let Hlen := fresh "Hlen" in
  match goal with
  | |- _ (mk_world (h ++ ?L) t _ p) = _ =>
      rewrite <- (app_nil_r (h ++ L));
      assert (Hlen : forall c0 c1, length (h ++ c0 :: c1 :: tl (tl L))
                     = (length h + (6 + length bt))%nat)
        by (intros; rewrite length_app; cbn [length tl];
            rewrite length_map, length_seq; lia)
  end;
  cbn [tl] in Hlen;
  (erewrite bind_run; [| apply alloc_tail; apply Hlen ]); norm;
  (erewrite bind_run;
    [| apply (set_tail _ 0); [ apply Hlen | reflexivity ] ]); norm;
  step_with (@set_mid P 1);
  (erewrite bind_run; [| apply alloc_tail; apply Hlen ]); norm;
  (erewrite bind_run; [| apply alloc_tail; apply Hlen ]); norm;
  (erewrite bind_run;
    [| apply (set_tail _ 1); [ apply Hlen | reflexivity ] ]); norm;
  (erewrite bind_run;
    [| apply (append_tail _ 2); [ apply Hlen | reflexivity ] ]); norm;
  step_with (@set_mid P 0);
  unfold ret, event_cells; rewrite ?Nat.add_0_r;
  cbn [app slot_name slot_desc slot_meta];
  rewrite <- app_assoc; reflexivity.

(** The store after [make_signal_event] is the store before, extended by
    [event_cells]; the event is the first new cell; the one call that
    leaves the value API is the unwinder's. *)
Lemma make_signal_event_run (s : option signal_slot) (uctx : U)
    (h : store) t lg (p : P) :
  make_signal_event event_defaults unwind s uctx (mk_world h t lg p)
  = (VRef (length h),
     mk_world
       (h ++ event_cells event_defaults (length h) s (unwind uctx MAX_FRAMES))
       t (lg ++ [E_unwind_stack_from_ucontext MAX_FRAMES]) p).
Proof.
  unfold make_signal_event.
  set (bt := unwind uctx MAX_FRAMES).
  unfold Value.new_event, Value.new_object, Value.new_list,
    Value.new_list_with_size, Value.new_level_fatal.
  fold (frame_body (P := P) bt).
  rewrite <- (app_nil_r h) at 1.
  destruct s as [sl|]; head_steps h.
  - erewrite bind_run;
      [| step_with (@set_tail P (length h) 4);
         step_with (@set_tail P (length h) 4); reflexivity ].
    tail_steps h bt t lg p.
  - erewrite bind_run by reflexivity.
    tail_steps h bt t lg p.
Qed.

End Event.

(** ** Reading the cells of an event *)

Section Reading.

Variable defaults : list (string * sentry_value_t).

Lemma find_put_eq k v pairs : Value.find k (Value.put k v pairs) = Some v.
Proof.
  induction pairs as [|[k' v'] rest IH]; cbn.
  - rewrite String.eqb_refl. reflexivity.
  - destruct (String.eqb k' k) eqn:E; cbn.
    + rewrite String.eqb_refl. reflexivity.
    + rewrite E. exact IH.
Qed.

Lemma find_put_ne k k' v pairs :
  k <> k' -> Value.find k' (Value.put k v pairs) = Value.find k' pairs.
Proof.
  intros Hne. induction pairs as [|[k0 v0] rest IH]; cbn.
  - apply String.eqb_neq in Hne. rewrite Hne. reflexivity.
  - destruct (String.eqb k0 k) eqn:E; cbn.
    + apply String.eqb_eq in E. subst k0.
      apply String.eqb_neq in Hne. rewrite Hne. reflexivity.
    + destruct (String.eqb k0 k'); [reflexivity | exact IH].
Qed.

Variables (h : store) (s : option signal_slot) (bt : list Z).

Let n := length h.
Let h' := h ++ event_cells defaults n s bt.
Let event := VRef n.

(** The cell at offset [j] of the new part. *)
Lemma event_cell_at j : h' !! (n + j)%nat = event_cells defaults n s bt !! j.
Proof. apply lookup_skip. reflexivity. Qed.

Lemma event_cell_tail j :
  h' !! (n + (6 + length bt) + j)%nat
  = [ TObject [("frames", VRef (n + 5))];
      TObject [("values", VRef (n + (6 + length bt) + 2))];
      TList [VRef (n + 1)] ] !! j.
Proof.
  replace (n + (6 + length bt) + j)%nat
    with (n + (6 + (length bt + j)))%nat by lia.
  rewrite event_cell_at. unfold event_cells.
  rewrite (lookup_skip _ _ 6) by reflexivity.
  apply lookup_skip. rewrite length_map, length_seq. reflexivity.
Qed.

Lemma event_cell_frame i :
  (i < length bt)%nat ->
  h' !! (n + 6 + i)%nat = Some (frame_cell bt i).
Proof.
  intros Hi. rewrite <- Nat.add_assoc, event_cell_at. unfold event_cells.
  rewrite (lookup_skip _ _ 6) by reflexivity.
  rewrite lookup_app_l by (rewrite length_map, length_seq; lia).
  rewrite list_lookup_fmap, lookup_seq_lt by lia. reflexivity.
Qed.

Lemma event_cell_first :
  h' !! n
  = Some (TObject (Value.put "exception" (VRef (n + (6 + length bt) + 1))
                     (Value.put "level" (VString "fatal") defaults))).
Proof.
  pose proof (event_cell_at 0) as E. rewrite Nat.add_0_r in E.
  rewrite E. reflexivity.
Qed.

Lemma event_level : Value.get_by_key h' event "level" = VString "fatal".
Proof.
  unfold Value.get_by_key, event.
  rewrite event_cell_first.
  rewrite find_put_ne by discriminate. rewrite find_put_eq. reflexivity.
Qed.

Lemma event_exception :
  Value.get_by_key h' event "exception" = VRef (n + (6 + length bt) + 1).
Proof.
  unfold Value.get_by_key, event.
  rewrite event_cell_first.
  rewrite find_put_eq. reflexivity.
Qed.

Lemma event_values :
  Value.get_by_key h' (Value.get_by_key h' event "exception") "values"
  = VRef (n + (6 + length bt) + 2).
Proof.
  rewrite event_exception. unfold Value.get_by_key.
  rewrite event_cell_tail. reflexivity.
Qed.

Lemma event_exception_count : exception_count h' event = 1%nat.
Proof.
  unfold exception_count. rewrite event_values.
  unfold Value.get_length, Value.items. rewrite event_cell_tail. reflexivity.
Qed.

Lemma event_exception_entry : exception_entry h' event = VRef (n + 1).
Proof.
  unfold exception_entry. rewrite event_values.
  unfold Value.get_by_index, Value.items. rewrite event_cell_tail. reflexivity.
Qed.

Lemma event_mechanism : mechanism_of h' event = VRef (n + 2).
Proof.
  unfold mechanism_of. rewrite event_exception_entry.
  unfold Value.get_by_key. rewrite event_cell_at. reflexivity.
Qed.

Lemma event_signal_meta : signal_meta_of h' event = VRef (n + 4).
Proof.
  unfold signal_meta_of. rewrite event_mechanism.
  unfold Value.get_by_key. rewrite !event_cell_at. cbn.
  rewrite event_cell_at. reflexivity.
Qed.

(** The fields of the exception entry, read back. *)
Lemma event_fields :
  fields_of h' event
  = {| f_type := VString (slot_name s);
       f_value := VString (slot_desc s);
       f_mechanism_keys := ["type"; "synthetic"; "handled"; "meta"];
       f_mechanism_type := VString "signalhandler";
       f_synthetic := VBool true;
       f_handled := VBool false;
       f_meta_keys := ["signal"];
       f_signal_keys := (slot_meta s).*1;
       f_signal_name := default VNull (Value.find "name" (slot_meta s));
       f_signal_number := default VNull (Value.find "number" (slot_meta s)) |}.
Proof.
  unfold fields_of.
  rewrite event_exception_entry, event_mechanism, event_signal_meta.
  unfold Value.get_by_key, Value.keys. rewrite !event_cell_at. cbn.
  rewrite event_cell_at. reflexivity.
Qed.

Lemma event_frames :
  frames_of h' event = map (fun i => VRef (n + 6 + i)) (seq 0 (length bt)).
Proof.
  unfold frames_of. rewrite event_exception_entry.
  unfold Value.get_by_key at 2. rewrite event_cell_at. cbn.
  unfold Value.get_by_key. rewrite event_cell_tail. cbn.
  unfold Value.items. rewrite event_cell_at. reflexivity.
Qed.

(** The frame list holds the buffer back to front. *)
Lemma event_frame_addresses :
  frame_addresses h' event = map (fun a => VAddr (to_uint64 a)) (rev bt).
Proof.
  unfold frame_addresses. rewrite event_frames, map_map.
  apply list_eq. intros i.
  rewrite !list_lookup_fmap.
  destruct (decide (i < length bt)%nat) as [Hi|Hi].
  - rewrite lookup_seq_lt by lia. cbn.
    unfold Value.get_by_key. rewrite event_cell_frame by lia. cbn.
    destruct (nth_lookup_or_length (rev bt) i 0) as [E|E];
      [| rewrite length_rev in E; lia].
    rewrite E, rev_nth by lia.
    replace (length bt - S i)%nat with (length bt - i - 1)%nat by lia.
    reflexivity.
  - rewrite lookup_seq_ge by lia.
    rewrite lookup_ge_None_2 by (rewrite length_rev; lia). reflexivity.
Qed.

End Reading.

(** ** [handle_ucontext] *)

Section FindSlot.

Lemma scan_none (code : Z) (l : list signal_slot) acc :
  (forall s, In s l -> signum s <> code) ->
  fold_left
    (fun sig_slot s => if Z.eqb (signum s) code then Some s else sig_slot)
    l acc = acc.
Proof.
  revert acc. induction l as [|x l IH]; intros acc Hno; cbn; [reflexivity|].
  rewrite IH by (intros s Hs; apply Hno; right; exact Hs).
  destruct (Z.eqb_spec (signum x) code) as [E|E]; [|reflexivity].
  exfalso. apply (Hno x); [left; reflexivity | exact E].
Qed.

Lemma scan_some (s : signal_slot) (l : list signal_slot) acc :
  List.NoDup (map signum l) -> In s l ->
  fold_left
    (fun sig_slot x => if Z.eqb (signum x) (signum s) then Some x else sig_slot)
    l acc = Some s.
Proof.
  revert acc. induction l as [|x l IH]; intros acc Hnd Hin; [destruct Hin|].
  cbn in Hnd. inversion Hnd as [|? ? Hx Hnd']; subst.
  cbn. destruct Hin as [->|Hin].
  - rewrite Z.eqb_refl. apply scan_none.
    intros s' Hs' E. apply Hx. rewrite <- E. apply in_map. exact Hs'.
  - apply IH; assumption.
Qed.

Lemma scan_in (code : Z) (s : signal_slot) (l : list signal_slot) acc :
  fold_left
    (fun sig_slot x => if Z.eqb (signum x) code then Some x else sig_slot)
    l acc = Some s ->
  (In s l /\ signum s = code) \/ acc = Some s.
Proof.
  revert acc. induction l as [|x l IH]; intros acc E; cbn in E.
  - right. exact E.
  - apply IH in E as [[Hin Hc]|E].
    + left. split; [right; exact Hin | exact Hc].
    + destruct (Z.eqb_spec (signum x) code) as [Ec|Ec].
      * inversion E; subst. left. split; [left; reflexivity | reflexivity].
      * right. exact E.
Qed.

Variable table : list signal_slot.

(** A code that matches no slot leaves [sig_slot] at [NULL]. *)
Lemma find_slot_none code :
  (forall s, In s table -> signum s <> code) -> find_slot table code = None.
Proof. apply scan_none. Qed.

(** With distinct numbers the scan finds the slot of the code. *)
Lemma find_slot_some s :
  List.NoDup (map signum table) -> In s table ->
  find_slot table (signum s) = Some s.
Proof. apply scan_some. Qed.

Lemma find_slot_in code s :
  find_slot table code = Some s -> In s table /\ signum s = code.
Proof.
  intros E. apply scan_in in E as [H|H]; [exact H | discriminate].
Qed.

End FindSlot.

Section PipelineRun.

Context {P U : Type}.
Variable event_defaults : list (string * sentry_value_t).
Variable unwind : U -> nat -> list Z.
Variable table : list signal_slot.
Variable fault_code : U -> Z.
Variable prologue : M P unit.
Variable epilogue : U -> M P unit.

(** [handle_ucontext] is its prologue, the capture, and its epilogue. *)
Lemma handle_ucontext_run (uctx : U) (w : world P) :
  handle_ucontext event_defaults unwind table fault_code prologue epilogue
    uctx w
  = epilogue uctx
      (after_capture event_defaults (find_slot table (fault_code uctx))
         (unwind uctx MAX_FRAMES) (exec prologue w)).
Proof.
  unfold handle_ucontext.
  rewrite (bind_run _ _ w tt (exec prologue w))
    by (rewrite (run_eta prologue w); destruct (eval prologue w); reflexivity).
  destruct (exec prologue w) as [h t lg p].
  unfold sentry__enforce_disk_transport, sentry_capture_event, emit,
    get_transport, set_transport.
  cbn [bind heap transport log plat].
  erewrite bind_run by apply make_signal_event_run.
  unfold after_capture, dump_of. cbn [heap transport log plat length].
  destruct t as [tr|]; cbn [bind ret emit heap transport log plat];
    rewrite <- ?app_assoc; cbn [app]; rewrite ?app_nil_r; reflexivity.
Qed.

End PipelineRun.

(** ** POSIX: restoring and re-invoking the recorded handlers *)

Section FoldInsert.

Context {V : Type}.
Variables (key : nat -> Z) (val : nat -> V).

Lemma fold_insert_other (l : list nat) (m : gmap Z V) (k : Z) :
  ~ In k (map key l) ->
  fold_left (fun m i => <[key i := val i]> m) l m !! k = m !! k.
Proof.
  revert m. induction l as [|x l IH]; intros m Hk; cbn; [reflexivity|].
  rewrite IH by (intros Hin; apply Hk; right; exact Hin).
  apply lookup_insert_ne. intros E. apply Hk. left. exact E.
Qed.

Lemma fold_insert_lookup (l : list nat) (m : gmap Z V) (j : nat) :
  List.NoDup (map key l) -> In j l ->
  fold_left (fun m i => <[key i := val i]> m) l m !! key j = Some (val j).
Proof.
  revert m. induction l as [|x l IH]; intros m Hnd Hin; [destruct Hin|].
  cbn in Hnd. inversion Hnd as [|? ? Hx Hnd']; subst.
  cbn. destruct Hin as [->|Hin].
  - rewrite fold_insert_other by exact Hx. apply lookup_insert_eq.
  - apply IH; assumption.
Qed.

Lemma concat_single (g : nat -> list event) (l : list nat) (j : nat) :
  List.NoDup (map key l) -> In j l ->
  concat (map (fun i => if Z.eqb (key i) (key j) then g i else []) l) = g j.
Proof.
  induction l as [|x l IH]; intros Hnd Hin; [destruct Hin|].
  cbn in Hnd. inversion Hnd as [|? ? Hx Hnd']; subst.
  cbn. destruct Hin as [->|Hin].
  - rewrite Z.eqb_refl.
    assert (E : concat
              (map (fun i => if Z.eqb (key i) (key j) then g i else []) l)
            = []).
    { clear IH Hnd Hnd'. induction l as [|y l IHl]; [reflexivity|].
      cbn. destruct (Z.eqb_spec (key y) (key j)) as [E|E].
      - exfalso. apply Hx. left. exact E.
      - apply IHl. intros Hin. apply Hx. right. exact Hin. }
    rewrite E. apply app_nil_r.
  - destruct (Z.eqb_spec (key x) (key j)) as [E|E].
    + exfalso. apply Hx. rewrite E. apply in_map. exact Hin.
    + cbn. apply IH; assumption.
Qed.

Lemma concat_none (g : nat -> list event) (l : list nat) (k : Z) :
  ~ In k (map key l) ->
  concat (map (fun i => if Z.eqb (key i) k then g i else []) l) = [].
Proof.
  induction l as [|y l IHl]; intros Hk; [reflexivity|].
  cbn. destruct (Z.eqb_spec (key y) k) as [E|E].
  - exfalso. apply Hk. left. exact E.
  - apply IHl. intros Hin. apply Hk. right. exact Hin.
Qed.

End FoldInsert.

Section PosixRun.

Context `{posix_consts}.

Implicit Types (st : Posix.state) (h : store) (lg : list event).

Lemma slot_signums :
  map Posix.slot_signum (seq 0 Posix.SIGNAL_COUNT)
  = [SIGILL; SIGTRAP; SIGABRT; SIGBUS; SIGFPE; SIGSEGV].
Proof. reflexivity. Qed.

Lemma table_signums :
  map signum Posix.SIGNAL_DEFINITIONS
  = [SIGILL; SIGTRAP; SIGABRT; SIGBUS; SIGFPE; SIGSEGV].
Proof. reflexivity. Qed.

Lemma slot_signum_nth i :
  (i < Posix.SIGNAL_COUNT)%nat ->
  exists s, nth_error Posix.SIGNAL_DEFINITIONS i = Some s
            /\ signum s = Posix.slot_signum i.
Proof.
  intros Hi. unfold Posix.SIGNAL_COUNT in Hi.
  do 6 (destruct i as [|i]; [eexists; split; reflexivity|]). lia.
Qed.

Lemma sigaction_set_run sig new old h t lg st :
  Posix.os_handlers st !! sig = Some old ->
  Posix.sigaction sig (Some new) None (mk_world h t lg st)
  = (0, mk_world h t (lg ++ [E_sigaction_set sig new])
          (Posix.mk_state (<[sig := new]> (Posix.os_handlers st))
             (Posix.os_altstack st) (Posix.g_sigaction st)
             (Posix.g_previous_handlers st) (Posix.g_signal_stack st))).
Proof.
  intros E. unfold Posix.sigaction, bind, get_plat. cbn. rewrite E.
  reflexivity.
Qed.

Lemma sigaction_unknown sig act oact (w : world Posix.state) :
  Posix.os_handlers (plat w) !! sig = None ->
  Posix.sigaction sig act oact w = (-1, w).
Proof.
  intros E. unfold Posix.sigaction, bind, get_plat. cbn. rewrite E.
  reflexivity.
Qed.

(** The loop of [reset_signal_handlers], over any list of indices. *)
Lemma reset_loop_run (l : list nat) h t a g prev gs :
  forall om lg,
    (forall i, In i l -> is_Some (om !! Posix.slot_signum i)) ->
    for_each l (fun i =>
        (st <- get_plat ;;
         Posix.sigaction (Posix.slot_signum i)
           (Some (Posix.previous_handler st i)) None ;;;
         ret tt)%sentry)
      (mk_world h t lg (Posix.mk_state om a g prev gs))
    = (tt,
       mk_world h t
         (lg ++ map (fun i => E_sigaction_set (Posix.slot_signum i)
                                (nth i prev Posix.zero_sigaction)) l)
         (Posix.mk_state
            (fold_left
               (fun m i => <[Posix.slot_signum i
                             := nth i prev Posix.zero_sigaction]> m) l om)
            a g prev gs)).
Proof.
  induction l as [|x l IH]; intros om lg Hk.
  - cbn. rewrite app_nil_r. reflexivity.
  - cbn [for_each].
    destruct (Hk x (or_introl eq_refl)) as [old Hold].
    erewrite bind_run.
    2:{ erewrite bind_run by reflexivity.
        erewrite bind_run by (eapply sigaction_set_run; cbn; exact Hold).
        reflexivity. }
    cbn [Posix.os_handlers Posix.os_altstack Posix.g_sigaction
         Posix.g_previous_handlers Posix.g_signal_stack
         Posix.previous_handler plat].
    rewrite IH.
    + cbn [map fold_left]. rewrite <- app_assoc. reflexivity.
    + intros i Hi. apply lookup_insert_is_Some'. right. apply Hk.
      right. exact Hi.
Qed.

Lemma reset_signal_handlers_run (w : world Posix.state) :
  signals_known (plat w) ->
  Posix.reset_signal_handlers w
  = (tt,
     mk_world (heap w) (transport w) (log w ++ restore_calls (plat w))
       (Posix.mk_state (restored_handlers (plat w))
          (Posix.os_altstack (plat w)) (Posix.g_sigaction (plat w))
          (Posix.g_previous_handlers (plat w))
          (Posix.g_signal_stack (plat w)))).
Proof.
  intros Hk. destruct w as [h t lg [om a g prev gs]].
  unfold Posix.reset_signal_handlers.
  rewrite reset_loop_run.
  - reflexivity.
  - intros i Hi. apply Hk. apply in_seq in Hi. unfold Posix.SIGNAL_COUNT in *. lia.
Qed.

(** The loop of [invoke_signal_handler]: it leaves the state alone and
    makes the calls of the slots whose number is [sig]. *)
Lemma invoke_loop_run sig info user_context (l : list nat) :
  forall (w : world Posix.state),
    for_each l (fun i =>
        if Z.eqb (Posix.slot_signum i) sig then
          (st <- get_plat ;;
           let handler := Posix.previous_handler st i in
           if Z.eqb (sa_handler handler) SIG_DFL then
             emit (E_raise sig)
           else if negb (Z.eqb (Z.land (sa_flags handler) SA_SIGINFO) 0) then
             emit (E_call_sa_sigaction (sa_sigaction handler)
                     sig info user_context)
           else if negb (Z.eqb (sa_handler handler) SIG_IGN) then
             emit (E_call_sa_handler (sa_handler handler) sig)
           else ret tt)%sentry
        else ret tt) w
    = (tt,
       mk_world (heap w) (transport w)
         (log w
          ++ concat
               (map (fun i =>
                       if Z.eqb (Posix.slot_signum i) sig
                       then rechain (Posix.previous_handler (plat w) i)
                              sig info user_context
                       else []) l))
         (plat w)).
Proof.
  induction l as [|x l IH]; intros [h t lg st].
  - cbn. rewrite app_nil_r. reflexivity.
  - cbn [for_each map concat]. unfold bind at 1.
    destruct (Z.eqb (Posix.slot_signum x) sig).
    + unfold bind at 1, get_plat, rechain. cbn [plat].
      destruct (Z.eqb (sa_handler (Posix.previous_handler st x)) SIG_DFL);
        [| destruct (negb (Z.eqb (Z.land (sa_flags (Posix.previous_handler st x)) SA_SIGINFO) 0));
           [| destruct (negb (Z.eqb (sa_handler (Posix.previous_handler st x)) SIG_IGN)) ] ];
        cbn [emit ret heap transport log plat]; rewrite IH;
        cbn [heap transport log plat]; rewrite <- ?app_assoc;
        rewrite ?app_nil_r; reflexivity.
    + cbn [ret]. rewrite IH. reflexivity.
Qed.

Lemma invoke_signal_handler_run sig info user_context
    (w : world Posix.state) :
  Posix.invoke_signal_handler sig info user_context w
  = (tt,
     mk_world (heap w) (transport w)
       (log w ++ rechain_all (plat w) sig info user_context) (plat w)).
Proof. apply invoke_loop_run. Qed.

Section Distinct.

Hypothesis consts_ok : posix_consts_ok.

Lemma slot_signums_NoDup :
  List.NoDup (map Posix.slot_signum (seq 0 Posix.SIGNAL_COUNT)).
Proof.
  rewrite slot_signums. apply NoDup_ListNoDup. apply signals_distinct. exact consts_ok.
Qed.

Lemma table_signums_NoDup :
  List.NoDup (map signum Posix.SIGNAL_DEFINITIONS).
Proof.
  rewrite table_signums. apply NoDup_ListNoDup. apply signals_distinct. exact consts_ok.
Qed.

(** After the restore, the kernel holds the recorded handler of every
    slot. *)
Lemma restored_handlers_lookup st j :
  (j < Posix.SIGNAL_COUNT)%nat ->
  restored_handlers st !! Posix.slot_signum j
  = Some (Posix.previous_handler st j).
Proof.
  intros Hj. unfold restored_handlers.
  apply (fold_insert_lookup Posix.slot_signum
           (Posix.previous_handler st)).
  - apply slot_signums_NoDup.
  - apply in_seq. unfold Posix.SIGNAL_COUNT in *. lia.
Qed.

(** Only the recorded handler of the faulting signal is invoked. *)
Lemma rechain_all_slot st j info user_context :
  (j < Posix.SIGNAL_COUNT)%nat ->
  rechain_all st (Posix.slot_signum j) info user_context
  = rechain (Posix.previous_handler st j) (Posix.slot_signum j)
      info user_context.
Proof.
  intros Hj. unfold rechain_all.
  apply (concat_single Posix.slot_signum
           (fun i => rechain (Posix.previous_handler st i)
                       (Posix.slot_signum j) info user_context)).
  - apply slot_signums_NoDup.
  - apply in_seq. unfold Posix.SIGNAL_COUNT in *. lia.
Qed.

End Distinct.

Lemma restored_handlers_other st k :
  ~ In k [SIGILL; SIGTRAP; SIGABRT; SIGBUS; SIGFPE; SIGSEGV] ->
  restored_handlers st !! k = Posix.os_handlers st !! k.
Proof.
  intros Hk. unfold restored_handlers.
  apply fold_insert_other. rewrite slot_signums. exact Hk.
Qed.

Lemma rechain_all_other st sig info user_context :
  ~ In sig [SIGILL; SIGTRAP; SIGABRT; SIGBUS; SIGFPE; SIGSEGV] ->
  rechain_all st sig info user_context = [].
Proof.
  intros Hk. unfold rechain_all.
  apply (concat_none Posix.slot_signum). rewrite slot_signums. exact Hk.
Qed.

End PosixRun.

(** ** Calls that are no pipeline step *)

Section Quiet.

Context {P : Type}.

Lemma pipeline_steps_app l1 l2 :
  pipeline_steps (l1 ++ l2) = pipeline_steps l1 ++ pipeline_steps l2.
Proof. apply List.filter_app. Qed.

Lemma quiet_ret {A} (a : A) : quiet (P := P) (ret a).
Proof.
  intros w. repeat split. exists []. rewrite app_nil_r. split; reflexivity.
Qed.

Lemma quiet_bind {A B} (m : M P A) (k : A -> M P B) :
  quiet m -> (forall a, quiet (k a)) -> quiet (bind m k).
Proof.
  intros Hm Hk w. rewrite exec_bind.
  destruct (Hm w) as (Hh & Ht & evs & Hl & Hf).
  destruct (Hk (eval m w) (exec m w)) as (Hh' & Ht' & evs' & Hl' & Hf').
  split; [congruence|]. split; [congruence|].
  exists (evs ++ evs'). split.
  - rewrite Hl', Hl, app_assoc. reflexivity.
  - rewrite pipeline_steps_app, Hf, Hf'. reflexivity.
Qed.

Lemma quiet_emit e : is_pipeline_step e = false -> quiet (P := P) (emit e).
Proof.
  intros He w. repeat split. exists [e]. split; [reflexivity|].
  unfold pipeline_steps. cbn. rewrite He. reflexivity.
Qed.

Lemma quiet_get_plat : quiet (P := P) get_plat.
Proof.
  intros w. repeat split. exists []. rewrite app_nil_r. split; reflexivity.
Qed.

Lemma quiet_set_plat p : quiet (P := P) (set_plat p).
Proof.
  intros w. repeat split. exists []. rewrite app_nil_r. split; reflexivity.
Qed.

Lemma quiet_for_each {A} (l : list A) (body : A -> M P unit) :
  (forall x, quiet (body x)) -> quiet (for_each l body).
Proof.
  intros Hb. induction l as [|x l IH]; cbn [for_each].
  - apply quiet_ret.
  - apply quiet_bind; [apply Hb | intros _; exact IH].
Qed.

End Quiet.

Section QuietPosix.

Context `{posix_consts}.

Lemma quiet_sigaction sig act oact : quiet (Posix.sigaction sig act oact).
Proof.
  unfold Posix.sigaction. apply quiet_bind; [apply quiet_get_plat|].
  intros st. destruct (Posix.os_handlers st !! sig); [|apply quiet_ret].
  apply quiet_bind; [|intros; apply quiet_ret].
  destruct act; (apply quiet_bind;
    [apply quiet_emit; reflexivity | intros; apply quiet_set_plat]).
Qed.

Lemma quiet_reset_signal_handlers : quiet Posix.reset_signal_handlers.
Proof.
  apply quiet_for_each. intros i.
  apply quiet_bind; [apply quiet_get_plat|]. intros st.
  apply quiet_bind; [apply quiet_sigaction | intros; apply quiet_ret].
Qed.

Lemma quiet_invoke_signal_handler sig info user_context :
  quiet (Posix.invoke_signal_handler sig info user_context).
Proof.
  apply quiet_for_each. intros i.
  destruct (Z.eqb (Posix.slot_signum i) sig); [|apply quiet_ret].
  apply quiet_bind; [apply quiet_get_plat|]. intros st. cbv zeta.
  repeat match goal with
         | |- quiet (if ?c then _ else _) => destruct c
         end;
    first [apply quiet_ret | apply quiet_emit; reflexivity].
Qed.

Lemma quiet_unix_prologue : quiet Posix.unix_prologue.
Proof.
  apply quiet_bind; [|intros _]; apply quiet_emit; reflexivity.
Qed.

Lemma quiet_unix_epilogue uctx : quiet (Posix.unix_epilogue uctx).
Proof.
  apply quiet_bind; [apply quiet_reset_signal_handlers|]. intros _.
  apply quiet_bind; [apply quiet_emit; reflexivity|]. intros _.
  apply quiet_invoke_signal_handler.
Qed.

End QuietPosix.

Section CaptureBetween.

Context {P U : Type}.
Variable event_defaults : list (string * sentry_value_t).
Variable unwind : U -> nat -> list Z.
Variable table : list signal_slot.
Variable fault_code : U -> Z.
Variable prologue : M P unit.
Variable epilogue : U -> M P unit.
Hypothesis prologue_quiet : quiet prologue.
Hypothesis epilogue_quiet : forall uctx, quiet (epilogue uctx).

Lemma pipeline_steps_dump old : pipeline_steps (dump_of old) = dump_of old.
Proof. destruct old; reflexivity. Qed.

(** Between a quiet prologue and a quiet epilogue, [handle_ucontext]
    extends the store by the cells of one event, installs the disk
    transport, and makes the pipeline steps once and in order. *)
Lemma handle_ucontext_between (uctx : U) (w : world P) :
  let w' :=
    exec (handle_ucontext event_defaults unwind table fault_code
            prologue epilogue uctx) w in
  heap w'
  = heap w ++ event_cells event_defaults (length (heap w))
                (find_slot table (fault_code uctx))
                (unwind uctx MAX_FRAMES)
  /\ transport w' = Some DiskTransport
  /\ exists new,
       log w' = log w ++ new
       /\ pipeline_steps new
          = capture_steps (VRef (length (heap w))) ++ dump_of (transport w).
Proof.
  cbv zeta.
  assert (E : exec (handle_ucontext event_defaults unwind table fault_code
                      prologue epilogue uctx) w
              = exec (epilogue uctx)
                  (after_capture event_defaults
                     (find_slot table (fault_code uctx))
                     (unwind uctx MAX_FRAMES) (exec prologue w)))
    by (unfold exec at 1; rewrite handle_ucontext_run; reflexivity).
  rewrite E. clear E.
  destruct (prologue_quiet w) as (Hh & Ht & evs & Hl & Hf).
  match goal with
  | |- context [exec (epilogue uctx) ?W] =>
      destruct (epilogue_quiet uctx W) as (Hh' & Ht' & evs' & Hl' & Hf')
  end.
  rewrite Hh', Ht', Hl'. unfold after_capture. cbn [heap transport log].
  rewrite Hh, Ht, Hl. split; [reflexivity|]. split; [reflexivity|].
  eexists. split.
  - rewrite <- !app_assoc. reflexivity.
  - rewrite !pipeline_steps_app, Hf, Hf', pipeline_steps_dump.
    cbn. rewrite app_nil_r. reflexivity.
Qed.

End CaptureBetween.

(** ** The in-process backend on a fault *)

Section PosixFault.

Context `{posix_consts}.
Variable event_defaults : list (string * sentry_value_t).
Variable unwind : Posix.sentry_ucontext_t -> nat -> list Z.

(** The whole effect of [handle_ucontext] on POSIX. *)
Lemma posix_handle_ucontext_run uctx (w : world Posix.state) :
  signals_known (plat w) ->
  exec (Posix.handle_ucontext event_defaults unwind uctx) w
  = mk_world
      (heap w ++ event_cells event_defaults (length (heap w))
                   (find_slot Posix.SIGNAL_DEFINITIONS
                      (Posix.uctx_signum uctx))
                   (unwind uctx MAX_FRAMES))
      (Some DiskTransport)
      (log w
       ++ [E_page_allocator_enable; E_enter_signal_handler]
       ++ capture_steps (VRef (length (heap w)))
       ++ dump_of (transport w)
       ++ restore_calls (plat w)
       ++ [E_leave_signal_handler]
       ++ rechain_all (plat w) (Posix.uctx_signum uctx)
            (Posix.uctx_siginfo uctx) (Posix.uctx_user_context uctx))
      (Posix.mk_state (restored_handlers (plat w))
         (Posix.os_altstack (plat w)) (Posix.g_sigaction (plat w))
         (Posix.g_previous_handlers (plat w))
         (Posix.g_signal_stack (plat w))).
Proof.
  intros Hk. unfold exec, Posix.handle_ucontext.
  rewrite handle_ucontext_run.
  destruct w as [h t lg st].
  unfold Posix.unix_prologue, Posix.unix_epilogue, after_capture, exec.
  cbn [bind emit snd heap transport log plat].
  erewrite bind_run by (apply reset_signal_handlers_run; exact Hk).
  cbn [heap transport log plat].
  erewrite bind_run by reflexivity.
  rewrite invoke_signal_handler_run.
  cbn [snd heap transport log plat].
  destruct st as [om a g prev gs].
  unfold restore_calls, rechain_all, restored_handlers, capture_steps.
  cbn [Posix.os_handlers Posix.os_altstack Posix.g_sigaction
       Posix.g_previous_handlers Posix.g_signal_stack
       Posix.previous_handler].
  f_equal. rewrite <- !app_assoc. reflexivity.
Qed.

End PosixFault.

Section Rechain.

Context `{posix_consts}.

Lemma rechain_default handler sig info user_context :
  sa_handler handler = SIG_DFL ->
  rechain handler sig info user_context = [E_raise sig].
Proof. intros E. unfold rechain. rewrite E, Z.eqb_refl. reflexivity. Qed.

Lemma rechain_siginfo handler sig info user_context :
  sa_handler handler <> SIG_DFL ->
  Z.land (sa_flags handler) SA_SIGINFO <> 0 ->
  rechain handler sig info user_context
  = [E_call_sa_sigaction (sa_sigaction handler) sig info user_context].
Proof.
  intros E1 E2. unfold rechain.
  apply Z.eqb_neq in E1, E2. rewrite E1, E2. reflexivity.
Qed.

Lemma rechain_ignore handler sig info user_context :
  SIG_DFL <> SIG_IGN ->
  sa_handler handler = SIG_IGN ->
  Z.land (sa_flags handler) SA_SIGINFO = 0 ->
  rechain handler sig info user_context = [].
Proof.
  intros Hne E1 E2. unfold rechain.
  assert (E : Z.eqb SIG_IGN SIG_DFL = false)
    by (apply Z.eqb_neq; congruence).
  rewrite E1, E2, E, !Z.eqb_refl. reflexivity.
Qed.

Lemma rechain_ansi handler sig info user_context :
  sa_handler handler <> SIG_DFL ->
  sa_handler handler <> SIG_IGN ->
  Z.land (sa_flags handler) SA_SIGINFO = 0 ->
  rechain handler sig info user_context
  = [E_call_sa_handler (sa_handler handler) sig].
Proof.
  intros E1 E2 E3. unfold rechain. rewrite E3.
  apply Z.eqb_neq in E1, E2. rewrite E1, E2. reflexivity.
Qed.

Lemma rechain_nil handler sig info user_context :
  rechain handler sig info user_context = [] ->
  sa_handler handler = SIG_IGN.
Proof.
  unfold rechain.
  destruct (Z.eqb (sa_handler handler) SIG_DFL); [discriminate|].
  destruct (negb (Z.eqb (Z.land (sa_flags handler) SA_SIGINFO) 0));
    [discriminate|].
  destruct (Z.eqb_spec (sa_handler handler) SIG_IGN);
    [trivial | discriminate].
Qed.

End Rechain.

(** C1, as the code has it.  A fault on the signal of slot [i] makes these
    calls and no others, in this order: the two that switch to signal-safe
    mode, the capture (marker, swap, session end, unwinder, capture, dump),
    the six [sigaction] calls that put every recorded handler back, the
    call that leaves signal-handler mode, and only then the recorded
    handler of that signal alone gets control: default disposition, the
    signal is raised again; registered with [SA_SIGINFO], its
    three-argument function is called with the signal number, the siginfo
    and the context; ignore disposition (without [SA_SIGINFO]), nothing is
    called; any other handler registered without [SA_SIGINFO] is called
    with the signal number alone.  Nothing being called means the recorded
    disposition was to ignore.  No earlier handler is called before the
    handlers are put back. *)
Theorem previous_handler_gets_control `{posix_consts}
    (event_defaults : list (string * sentry_value_t))
    (unwind : Posix.sentry_ucontext_t -> nat -> list Z)
    (i : nat) (info user_context : Z) (w : world Posix.state) :
  posix_consts_ok ->
  (i < Posix.SIGNAL_COUNT)%nat ->
  signals_known (plat w) ->
  let sig := Posix.slot_signum i in
  let handler := Posix.previous_handler (plat w) i in
  let w' :=
    exec (Posix.handle_signal event_defaults unwind sig info user_context) w in
  (forall j, (j < Posix.SIGNAL_COUNT)%nat ->
     Posix.os_handlers (plat w') !! Posix.slot_signum j
     = Some (Posix.previous_handler (plat w) j))
  /\ exists after,
       log w'
       = log w
         ++ [E_page_allocator_enable; E_enter_signal_handler]
         ++ capture_steps (VRef (length (heap w)))
         ++ dump_of (transport w)
         ++ restore_calls (plat w)
         ++ [E_leave_signal_handler]
         ++ after
       /\ (sa_handler handler = SIG_DFL -> after = [E_raise sig])
       /\ (sa_handler handler <> SIG_DFL ->
           Z.land (sa_flags handler) SA_SIGINFO <> 0 ->
           after = [E_call_sa_sigaction (sa_sigaction handler)
                      sig info user_context])
       /\ (sa_handler handler = SIG_IGN ->
           Z.land (sa_flags handler) SA_SIGINFO = 0 ->
           after = [])
       /\ (sa_handler handler <> SIG_DFL ->
           sa_handler handler <> SIG_IGN ->
           Z.land (sa_flags handler) SA_SIGINFO = 0 ->
           after = [E_call_sa_handler (sa_handler handler) sig])
       /\ (after = [] -> sa_handler handler = SIG_IGN)
       /\ List.filter is_rechain_call
            (capture_steps (VRef (length (heap w)))
             ++ dump_of (transport w) ++ restore_calls (plat w))
          = [].
Proof.
  intros Hok Hi Hk sig handler w'.
  subst w' sig handler. unfold Posix.handle_signal.
  rewrite posix_handle_ucontext_run by exact Hk.
  cbn [plat log Posix.os_handlers Posix.uctx_signum Posix.uctx_siginfo
       Posix.uctx_user_context].
  split.
  - intros j Hj. apply restored_handlers_lookup; assumption.
  - exists (rechain (Posix.previous_handler (plat w) i) (Posix.slot_signum i)
              info user_context).
    split.
    { rewrite rechain_all_slot by assumption. reflexivity. }
    split; [apply rechain_default|].
    split; [apply rechain_siginfo|].
    split; [apply rechain_ignore; apply dfl_not_ign; exact Hok|].
    split; [apply rechain_ansi|].
    split; [apply rechain_nil|].
    rewrite !List.filter_app.
    destruct (transport w); reflexivity.
Qed.

Lemma linux_consts_ok : @posix_consts_ok linux_consts.
Proof.
  split.
  - apply NoDup_ListNoDup. cbn.
    repeat (constructor; [cbn; intuition discriminate|]). constructor.
  - discriminate.
  - discriminate.
Qed.

Lemma started_posix_world_known :
  @signals_known linux_consts (plat started_posix_world).
Proof.
  intros i Hi. unfold Posix.SIGNAL_COUNT in Hi.
  do 6 (destruct i as [|i]; [vm_compute; eauto|]). lia.
Qed.

Lemma started_previous_segv :
  Posix.previous_handler (plat started_posix_world) 5
  = mk_sigaction 555 555 0 0.
Proof. vm_compute. reflexivity. Qed.

(** The theorem at work: the sample process started the backend and takes a
    [SIGSEGV] (slot 5, number 11). *)
Lemma previous_handler_gets_control_witness :
  let w := started_posix_world in
  let w' :=
    exec (@Posix.handle_signal linux_consts [] sample_unwind 11 1 2) w in
  Posix.os_handlers (plat w') !! 11 = Some (mk_sigaction 555 555 0 0)
  /\ log w'
     = log w
       ++ [E_page_allocator_enable; E_enter_signal_handler]
       ++ capture_steps (VRef (length (heap w)))
       ++ dump_of (transport w)
       ++ @restore_calls linux_consts (plat w)
       ++ [E_leave_signal_handler]
       ++ [E_call_sa_handler 555 11].
Proof.
  pose proof (@previous_handler_gets_control linux_consts [] sample_unwind
                5%nat 1 2 started_posix_world linux_consts_ok
                ltac:(unfold Posix.SIGNAL_COUNT; lia)
                started_posix_world_known) as Hthm.
  cbv zeta in Hthm.
  destruct Hthm
    as [Hrest (after & Hlog & _ & _ & _ & Hansi & _)].
  rewrite started_previous_segv in Hansi.
  pose proof (Hrest 5%nat ltac:(unfold Posix.SIGNAL_COUNT; lia)) as H5.
  rewrite started_previous_segv in H5.
  split.
  - exact H5.
  - rewrite Hansi in Hlog.
    + exact Hlog.
    + discriminate.
    + discriminate.
    + reflexivity.
Defined.

(** C1 as stated fails: the recorded [SIGSEGV] handler of the sample
    process is a function (neither default nor ignore) registered without
    [SA_SIGINFO]; it is called last, with the signal number alone, and no
    three-argument call is made at all. *)
Lemma ansi_handler_called_without_siginfo :
  let w' :=
    exec (@Posix.handle_signal linux_consts [] sample_unwind 11 1 2)
      started_posix_world in
  Posix.previous_handler (plat started_posix_world) 5
  = mk_sigaction 555 555 0 0
  /\ 555 <> @SIG_DFL linux_consts
  /\ 555 <> @SIG_IGN linux_consts
  /\ last (log w') = Some (E_call_sa_handler 555 11)
  /\ List.filter is_sa_sigaction_call (log w') = [].
Proof.
  cbv zeta. split; [exact started_previous_segv|]. split; [discriminate|].
  split; [discriminate|]. split; vm_compute; reflexivity.
Qed.

(** ** The capture itself *)

Section Capture.

Context `{posix_consts} `{winnt_consts}.
Variable event_defaults : list (string * sentry_value_t).
Variable unwind_posix : Posix.sentry_ucontext_t -> nat -> list Z.
Variable unwind_windows : Windows.sentry_ucontext_t -> nat -> list Z.

Lemma posix_capture uctx (w : world Posix.state) :
  let w' :=
    exec (Posix.handle_ucontext event_defaults unwind_posix uctx) w in
  heap w'
  = heap w ++ event_cells event_defaults (length (heap w))
                (find_slot Posix.SIGNAL_DEFINITIONS (Posix.uctx_signum uctx))
                (unwind_posix uctx MAX_FRAMES)
  /\ transport w' = Some DiskTransport
  /\ exists new,
       log w' = log w ++ new
       /\ pipeline_steps new
          = capture_steps (VRef (length (heap w))) ++ dump_of (transport w).
Proof.
  apply handle_ucontext_between.
  - apply quiet_unix_prologue.
  - apply quiet_unix_epilogue.
Qed.

Lemma windows_capture uctx (w : world Windows.state) :
  let w' :=
    exec (Windows.handle_ucontext event_defaults unwind_windows uctx) w in
  heap w'
  = heap w ++ event_cells event_defaults (length (heap w))
                (find_slot Windows.SIGNAL_DEFINITIONS
                   (Windows.ExceptionCode (Windows.exception_ptrs uctx)))
                (unwind_windows uctx MAX_FRAMES)
  /\ transport w' = Some DiskTransport
  /\ exists new,
       log w' = log w ++ new
       /\ pipeline_steps new
          = capture_steps (VRef (length (heap w))) ++ dump_of (transport w).
Proof.
  apply (handle_ucontext_between event_defaults unwind_windows
           Windows.SIGNAL_DEFINITIONS
           (fun uctx => Windows.ExceptionCode (Windows.exception_ptrs uctx))
           (ret tt) (fun _ => ret tt)).
  - apply quiet_ret.
  - intros _. apply quiet_ret.
Qed.

End Capture.



(** [(int32_t)] keeps a number that fits, such as a POSIX signal number. *)
Lemma to_int32_small x : 0 <= x < 2 ^ 31 -> to_int32 x = x.
Proof.
  intros Hx. unfold to_int32. rewrite Z.mod_small; lia.
Qed.

(** ** The crash event *)

Section BuiltEvent.

Context {P U : Type}.
Variable event_defaults : list (string * sentry_value_t).
Variable unwind : U -> nat -> list Z.

Lemma make_signal_event_eval s uctx (w : world P) :
  eval (make_signal_event event_defaults unwind s uctx) w
  = VRef (length (heap w)).
Proof.
  destruct w as [h t lg p]. unfold eval.
  rewrite make_signal_event_run. reflexivity.
Qed.

Lemma make_signal_event_heap s uctx (w : world P) :
  heap (exec (make_signal_event event_defaults unwind s uctx) w)
  = heap w ++ event_cells event_defaults (length (heap w)) s
                (unwind uctx MAX_FRAMES).
Proof.
  destruct w as [h t lg p]. unfold exec.
  rewrite make_signal_event_run. reflexivity.
Qed.

Lemma built_fields s uctx (w : world P) :
  let build := make_signal_event event_defaults unwind (Some s) uctx in
  fields_of (heap (exec build w)) (eval build w) = slot_fields s.
Proof.
  cbv zeta. rewrite make_signal_event_eval, make_signal_event_heap.
  rewrite event_fields. reflexivity.
Qed.

Lemma built_unknown_fields uctx (w : world P) :
  let build := make_signal_event event_defaults unwind None uctx in
  fields_of (heap (exec build w)) (eval build w) = unknown_fields.
Proof.
  cbv zeta. rewrite make_signal_event_eval, make_signal_event_heap.
  rewrite event_fields. reflexivity.
Qed.

End BuiltEvent.

(** C4.  For a fault whose code is that of a slot [s] of the table (a table
    of distinct numbers), the event built has level fatal and exactly one
    exception entry; the entry's type is the slot's name, its value the
    slot's description, its mechanism has type "signalhandler", synthetic
    true, handled false, and a signal meta with the slot's name and its
    number as [int32_t].  Whatever the state the event is built in, these
    fields come out the same. *)
Theorem crash_event_fields {P U : Type}
    (event_defaults : list (string * sentry_value_t))
    (unwind : U -> nat -> list Z)
    (table : list signal_slot) (fault_code : U -> Z)
    (s : signal_slot) (uctx : U) (w : world P) :
  List.NoDup (map signum table) ->
  In s table ->
  fault_code uctx = signum s ->
  let build :=
    make_signal_event event_defaults unwind
      (find_slot table (fault_code uctx)) uctx in
  let ev := eval build w in
  let h' := heap (exec build w) in
  Value.get_by_key h' ev "level" = VString "fatal"
  /\ exception_count h' ev = 1%nat
  /\ fields_of h' ev = slot_fields s
  /\ forall w2 : world P,
       fields_of (heap (exec build w2)) (eval build w2) = fields_of h' ev.
Proof.
  intros Hnd Hin Hcode. cbv zeta.
  rewrite Hcode, find_slot_some by assumption.
  rewrite make_signal_event_eval, make_signal_event_heap.
  split; [apply event_level|].
  split; [apply event_exception_count|].
  rewrite event_fields.
  split; [reflexivity|].
  intros w2. rewrite make_signal_event_eval, make_signal_event_heap.
  rewrite event_fields. reflexivity.
Qed.

(** The theorem at work: a [SIGSEGV] on Linux. *)
Lemma crash_event_fields_witness :
  let build :=
    make_signal_event (P := Posix.state) [] sample_unwind
      (find_slot (@Posix.SIGNAL_DEFINITIONS linux_consts) 11)
      (Posix.mk_ucontext 11 1 2) in
  let ev := eval build sample_posix_world in
  let h' := heap (exec build sample_posix_world) in
  Value.get_by_key h' ev "level" = VString "fatal"
  /\ exception_count h' ev = 1%nat
  /\ f_type (fields_of h' ev) = VString "SIGSEGV"
  /\ f_value (fields_of h' ev) = VString "Segfault"
  /\ f_signal_number (fields_of h' ev) = VInt32 11.
Proof.
  destruct (@crash_event_fields Posix.state Posix.sentry_ucontext_t []
              sample_unwind (@Posix.SIGNAL_DEFINITIONS linux_consts)
              Posix.uctx_signum (SIGNAL_DEF 11 "SIGSEGV" "Segfault")
              (Posix.mk_ucontext 11 1 2) sample_posix_world)
    as (Hlevel & Hcount & Hfields & _).
  - apply (@table_signums_NoDup linux_consts). exact linux_consts_ok.
  - cbn. tauto.
  - reflexivity.
  - cbv zeta. split; [exact Hlevel|]. split; [exact Hcount|].
    change (Posix.uctx_signum (Posix.mk_ucontext 11 1 2)) with 11 in Hfields.
    rewrite Hfields. repeat split.
Defined.

(** C5, as the code has it.  When the unwinder respects the bound it is
    given, the frame list has as many frames as the unwinder reported, at
    most 128, and holds their addresses in the reverse of the order in
    which the unwinder stored them: frame [i] carries buffer entry
    [frame_count - 1 - i]. *)
Theorem frames_reverse_backtrace {P U : Type}
    (event_defaults : list (string * sentry_value_t))
    (unwind : U -> nat -> list Z)
    (s : option signal_slot) (uctx : U) (w : world P) :
  (forall u max, (length (unwind u max) <= max)%nat) ->
  let build := make_signal_event event_defaults unwind s uctx in
  let ev := eval build w in
  let h' := heap (exec build w) in
  let backtrace := unwind uctx MAX_FRAMES in
  length (frames_of h' ev) = length backtrace
  /\ (length backtrace <= 128)%nat
  /\ frame_addresses h' ev = map (fun a => VAddr (to_uint64 a)) (rev backtrace)
  /\ forall i, (i < length backtrace)%nat ->
       frame_addresses h' ev !! i
       = Some (VAddr (to_uint64
                        (nth (length backtrace - 1 - i) backtrace 0))).
Proof.
  intros Hbound. cbv zeta.
  rewrite make_signal_event_eval, make_signal_event_heap.
  split.
  { rewrite event_frames, length_map, length_seq. reflexivity. }
  split; [apply (Hbound uctx MAX_FRAMES)|].
  split; [apply event_frame_addresses|].
  intros i Hi. rewrite event_frame_addresses, list_lookup_fmap.
  destruct (nth_lookup_or_length (rev (unwind uctx MAX_FRAMES)) i 0)
    as [E|E]; [| rewrite length_rev in E; lia].
  rewrite E, rev_nth by lia. cbn. do 4 f_equal. lia.
Qed.

Lemma sample_unwind_bound {U} (u : U) (max : nat) :
  (length (sample_unwind u max) <= max)%nat.
Proof. unfold sample_unwind. rewrite length_take. lia. Qed.

(** The theorem at work: a buffer of three addresses. *)
Lemma frames_reverse_backtrace_witness :
  let build :=
    make_signal_event (P := unit) (U := unit) [] sample_unwind None tt in
  let w := mk_world [] None [] tt in
  frame_addresses (heap (exec build w)) (eval build w)
  = [VAddr 300; VAddr 200; VAddr 100].
Proof.
  destruct (@frames_reverse_backtrace unit unit [] sample_unwind None tt
              (mk_world [] None [] tt))
    as (_ & _ & Haddr & _).
  - intros u max. apply sample_unwind_bound.
  - cbv zeta. rewrite Haddr. reflexivity.
Defined.

(** C5 as stated fails: the unwinder stored [100; 200; 300] and the frame
    list holds the addresses in another order. *)
Lemma frames_not_in_buffer_order :
  let build :=
    make_signal_event (P := unit) (U := unit) [] sample_unwind None tt in
  let w := mk_world [] None [] tt in
  sample_unwind tt MAX_FRAMES = [100; 200; 300]
  /\ frame_addresses (heap (exec build w)) (eval build w)
     <> map (fun a => VAddr (to_uint64 a)) (sample_unwind tt MAX_FRAMES).
Proof.
  cbv zeta. split; [reflexivity|]. vm_compute. discriminate.
Qed.

(** ** The structural-exception dispatcher *)

(** C9.  [handle_exception] answers [EXCEPTION_CONTINUE_SEARCH] for every
    exception; for a breakpoint and for a single step it does so at once,
    making no call and changing nothing, although both codes are in the
    table. *)
Theorem dispatcher_continues_search `{winnt_consts}
    (event_defaults : list (string * sentry_value_t))
    (unwind : Windows.sentry_ucontext_t -> nat -> list Z) :
  (forall ExceptionInfo (w : world Windows.state),
     eval (Windows.handle_exception event_defaults unwind ExceptionInfo) w
     = EXCEPTION_CONTINUE_SEARCH)
  /\ (forall record context (w : world Windows.state),
        Windows.handle_exception event_defaults unwind
          (Windows.mk_exception_pointers EXCEPTION_BREAKPOINT record context) w
        = (EXCEPTION_CONTINUE_SEARCH, w))
  /\ (forall record context (w : world Windows.state),
        Windows.handle_exception event_defaults unwind
          (Windows.mk_exception_pointers EXCEPTION_SINGLE_STEP record context) w
        = (EXCEPTION_CONTINUE_SEARCH, w))
  /\ In EXCEPTION_BREAKPOINT (map signum Windows.SIGNAL_DEFINITIONS)
  /\ In EXCEPTION_SINGLE_STEP (map signum Windows.SIGNAL_DEFINITIONS).
Proof.
  split; [|split; [|split; [|split]]].
  - intros info w. unfold Windows.handle_exception.
    destruct (_ || _); [reflexivity|].
    rewrite eval_bind. reflexivity.
  - intros record context w. unfold Windows.handle_exception.
    cbn [Windows.ExceptionCode]. rewrite Z.eqb_refl. reflexivity.
  - intros record context w. unfold Windows.handle_exception.
    cbn [Windows.ExceptionCode]. rewrite Z.eqb_refl, orb_true_r. reflexivity.
  - cbn. tauto.
  - cbn. tauto.
Qed.

(** A code outside the table is neither of the two debugger codes, so the
    dispatcher runs the capture. *)
Lemma handle_exception_unmatched `{winnt_consts}
    (event_defaults : list (string * sentry_value_t))
    (unwind : Windows.sentry_ucontext_t -> nat -> list Z)
    ExceptionInfo (w : world Windows.state) :
  (forall s, In s Windows.SIGNAL_DEFINITIONS ->
     signum s <> Windows.ExceptionCode ExceptionInfo) ->
  exec (Windows.handle_exception event_defaults unwind ExceptionInfo) w
  = exec (Windows.handle_ucontext event_defaults unwind
            (Windows.mk_ucontext ExceptionInfo)) w.
Proof.
  intros Hno. unfold Windows.handle_exception.
  assert (E1 : Z.eqb (Windows.ExceptionCode ExceptionInfo) EXCEPTION_BREAKPOINT
               = false).
  { apply Z.eqb_neq. intros E.
    apply (Hno (SIGNAL_DEF EXCEPTION_BREAKPOINT
                  "EXCEPTION_BREAKPOINT" "BreakPoint"));
      [cbn; tauto | symmetry; exact E]. }
  assert (E2 : Z.eqb (Windows.ExceptionCode ExceptionInfo) EXCEPTION_SINGLE_STEP
               = false).
  { apply Z.eqb_neq. intros E.
    apply (Hno (SIGNAL_DEF EXCEPTION_SINGLE_STEP
                  "EXCEPTION_SINGLE_STEP" "SingleStep"));
      [cbn; tauto | symmetry; exact E]. }
  rewrite E1, E2. cbn [orb]. rewrite exec_bind. reflexivity.
Qed.

(** C10.  A fault whose code is in no slot still goes through the whole
    pipeline, on POSIX (through [except]) and under the structural-exception
    dispatcher: the steps are made in order with one capture, and the event
    captured is a fatal event with one exception entry of type
    "UNKNOWN_SIGNAL" and value "UnknownSignal" whose signal meta is an
    object without any key. *)
Theorem unknown_signal_is_captured `{posix_consts} `{winnt_consts}
    (event_defaults : list (string * sentry_value_t))
    (unwind_posix : Posix.sentry_ucontext_t -> nat -> list Z)
    (unwind_windows : Windows.sentry_ucontext_t -> nat -> list Z) :
  (forall uctx (w : world Posix.state),
     (forall s, In s Posix.SIGNAL_DEFINITIONS ->
        signum s <> Posix.uctx_signum uctx) ->
     let w' := exec (Posix.handle_except event_defaults unwind_posix uctx) w in
     exists new ev,
       log w' = log w ++ new
       /\ pipeline_steps new = capture_steps ev ++ dump_of (transport w)
       /\ Value.get_by_key (heap w') ev "level" = VString "fatal"
       /\ exception_count (heap w') ev = 1%nat
       /\ fields_of (heap w') ev = unknown_fields
       /\ Value.is_object (heap w') (signal_meta_of (heap w') ev) = true)
  /\ (forall ExceptionInfo (w : world Windows.state),
        (forall s, In s Windows.SIGNAL_DEFINITIONS ->
           signum s <> Windows.ExceptionCode ExceptionInfo) ->
        let w' :=
          exec (Windows.handle_exception event_defaults unwind_windows
                  ExceptionInfo) w in
        exists new ev,
          log w' = log w ++ new
          /\ pipeline_steps new = capture_steps ev ++ dump_of (transport w)
          /\ Value.get_by_key (heap w') ev "level" = VString "fatal"
          /\ exception_count (heap w') ev = 1%nat
          /\ fields_of (heap w') ev = unknown_fields
          /\ Value.is_object (heap w') (signal_meta_of (heap w') ev) = true).
Proof.
  split.
  - intros uctx w Hno w'. subst w'. unfold Posix.handle_except.
    destruct (posix_capture event_defaults unwind_posix uctx w)
      as (Hh & _ & new & Hl & Hs).
    exists new, (VRef (length (heap w))).
    rewrite Hh, find_slot_none by exact Hno.
    split; [exact Hl|]. split; [exact Hs|].
    split; [apply event_level|].
    split; [apply event_exception_count|].
    split; [apply event_fields|].
    rewrite event_signal_meta. unfold Value.is_object.
    rewrite event_cell_at. reflexivity.
  - intros info w Hno w'. subst w'.
    rewrite handle_exception_unmatched by exact Hno.
    destruct (windows_capture event_defaults unwind_windows
                (Windows.mk_ucontext info) w)
      as (Hh & _ & new & Hl & Hs).
    cbn [Windows.exception_ptrs] in Hh.
    exists new, (VRef (length (heap w))).
    rewrite Hh, find_slot_none by exact Hno.
    split; [exact Hl|]. split; [exact Hs|].
    split; [apply event_level|].
    split; [apply event_exception_count|].
    split; [apply event_fields|].
    rewrite event_signal_meta. unfold Value.is_object.
    rewrite event_cell_at. reflexivity.
Qed.

(** The theorem at work: [SIGTERM] (15) handed to [except] on Linux, and a
    C++ exception (0xE06D7363) reaching the dispatcher. *)
Lemma unknown_signal_is_captured_witness :
  (let w' :=
     exec (@Posix.handle_except linux_consts [] sample_unwind
             (Posix.mk_ucontext 15 1 2)) started_posix_world in
   exists new ev,
     log w' = log started_posix_world ++ new
     /\ pipeline_steps new
        = capture_steps ev ++ [E_transport_dump_queue (Some (HostTransport 1))]
     /\ f_type (fields_of (heap w') ev) = VString "UNKNOWN_SIGNAL")
  /\ (let w' :=
        exec (@Windows.handle_exception winnt_values [] sample_unwind
                (Windows.mk_exception_pointers 0xE06D7363 0 0))
          sample_windows_world in
      exists new ev,
        log w' = log sample_windows_world ++ new
        /\ pipeline_steps new
           = capture_steps ev
             ++ [E_transport_dump_queue (Some (HostTransport 1))]
        /\ f_type (fields_of (heap w') ev) = VString "UNKNOWN_SIGNAL").
Proof.
  destruct (@unknown_signal_is_captured linux_consts winnt_values []
              sample_unwind sample_unwind) as [HP HW].
  split.
  - destruct (HP (Posix.mk_ucontext 15 1 2) started_posix_world)
      as (new & ev & Hl & Hs & _ & _ & Hf & _).
    + intros s Hs. cbn in Hs.
      repeat (destruct Hs as [<-|Hs]; [discriminate|]). destruct Hs.
    + exists new, ev. cbv zeta. rewrite Hf. repeat split; assumption.
  - destruct (HW (Windows.mk_exception_pointers 0xE06D7363 0 0)
                sample_windows_world)
      as (new & ev & Hl & Hs & _ & _ & Hf & _).
    + intros s Hs. cbn in Hs.
      repeat (destruct Hs as [<-|Hs]; [discriminate|]). destruct Hs.
    + exists new, ev. cbv zeta. rewrite Hf. repeat split; assumption.
Defined.

(** ** The breadcrumb ring *)

Section Crumbs.

Context `{crumb_consts}.

Implicit Types (w : world Crashpad.state) (o : outcome)
  (b : sentry_value_t).

Local Abbreviation add := Crashpad.sentry__crashpad_backend_add_breadcrumb.
Local Abbreviation num w := (Crashpad.num_breadcrumbs (Crashpad.data (plat w))).
Local Abbreviation path1 w := (Crashpad.breadcrumb1_path (Crashpad.data (plat w))).
Local Abbreviation path2 w := (Crashpad.breadcrumb2_path (Crashpad.data (plat w))).
Local Abbreviation files w := (Crashpad.files (plat w)).
Local Abbreviation file_at w c := (file_at (plat w) c).

Local Ltac run_add :=
  unfold add, Crashpad.get_data, Crashpad.set_data,
    Crashpad.sentry_value_decref, Crashpad.sentry_value_to_msgpack,
    Crashpad.sentry_free_mpack, Crashpad.sentry__path_write_buffer,
    Crashpad.sentry__path_append_buffer, file_at, exec, bind, get_plat,
    set_plat, emit, ret;
  cbn [plat heap log transport Crashpad.data Crashpad.files Crashpad.filter
       Crashpad.db Crashpad.event_path Crashpad.breadcrumb1_path
       Crashpad.breadcrumb2_path Crashpad.num_breadcrumbs snd fst mpack io].

Local Ltac split_add :=
  repeat match goal with
         | |- context [match ?x with _ => _ end] =>
             lazymatch x with
             | context [match _ with _ => _ end] => fail
             | _ => destruct x eqn:?
             end
         end.

Lemma add_counter o b w :
  num (exec (add o b) w) = Crashpad.size_wrap (num w + 1).
Proof.
  destruct w as [h t lg [[d e p1 p2 c] fs flt]], o as [[buf|] [|r]];
    run_add; split_add; reflexivity.
Qed.

Lemma add_paths o b w :
  path1 (exec (add o b) w) = path1 w /\ path2 (exec (add o b) w) = path2 w.
Proof.
  destruct w as [h t lg [[d e p1 p2 c] fs flt]], o as [[buf|] [|r]];
    run_add; split_add; split; reflexivity.
Qed.

(** No target file: nothing but the counter changes, and nothing is
    called. *)
Lemma add_without_file o b w :
  file_at w (num w) = None ->
  log (exec (add o b) w) = log w
  /\ files (exec (add o b) w) = files w.
Proof.
  destruct w as [h t lg [[d e p1 p2 c] fs flt]], o as [[buf|] [|r]];
    run_add; intros E; rewrite E; split; reflexivity.
Qed.

(** Encoding failed: the breadcrumb is released and no file is touched. *)
Lemma add_without_encoding o b w f :
  file_at w (num w) = Some f ->
  mpack o = None ->
  log (exec (add o b) w) = log w ++ [E_value_to_msgpack b; E_value_decref b]
  /\ files (exec (add o b) w) = files w.
Proof.
  destruct w as [h t lg [[d e p1 p2 c] fs flt]], o as [m r];
    run_add; intros E ->; rewrite E; cbn; rewrite <- ?app_assoc;
    split; reflexivity.
Qed.

(** The call made at counter value [c] with an encoding [buf]. *)
Lemma add_with_encoding o b w f buf :
  file_at w (num w) = Some f ->
  mpack o = Some buf ->
  log (exec (add o b) w)
  = log w
    ++ [ E_value_to_msgpack b;
         E_value_decref b;
         if Z.eqb (num w mod SENTRY_BREADCRUMBS_MAX) 0
         then E_path_write_buffer f buf
         else E_path_append_buffer f buf;
         E_free_mpack buf ]
  /\ files (exec (add o b) w)
     = match io o with
       | IoOk =>
           <[f := if Z.eqb (num w mod SENTRY_BREADCRUMBS_MAX) 0
                  then buf
                  else default [] (files w !! f) ++ buf]> (files w)
       | IoError residue => <[f := residue]> (files w)
       end.
Proof.
  destruct w as [h t lg [[d e p1 p2 c] fs flt]], o as [m r];
    run_add; intros E ->; rewrite E.
  destruct (Z.eqb (c mod SENTRY_BREADCRUMBS_MAX) 0), r;
    cbn; rewrite <- ?app_assoc; split; reflexivity.
Qed.

(** *** Many calls *)

Lemma add_breadcrumbs_cons o b rest w :
  exec (Crashpad.add_breadcrumbs ((o, b) :: rest)) w
  = exec (Crashpad.add_breadcrumbs rest) (exec (add o b) w).
Proof. cbn [Crashpad.add_breadcrumbs]. rewrite exec_bind. reflexivity. Qed.

Lemma add_breadcrumbs_ok_cons buf b rest w :
  exec (Crashpad.add_breadcrumbs (map ok_call ((buf, b) :: rest))) w
  = exec (Crashpad.add_breadcrumbs (map ok_call rest))
      (exec (add (mk_outcome (Some buf) IoOk) b) w).
Proof. apply add_breadcrumbs_cons. Qed.

Lemma add_breadcrumbs_app calls1 calls2 w :
  exec (Crashpad.add_breadcrumbs (calls1 ++ calls2)) w
  = exec (Crashpad.add_breadcrumbs calls2)
      (exec (Crashpad.add_breadcrumbs calls1) w).
Proof.
  revert w. induction calls1 as [|[o b] rest IH]; intros w.
  - reflexivity.
  - cbn [app]. rewrite !add_breadcrumbs_cons. apply IH.
Qed.

Lemma add_breadcrumbs_paths calls w :
  path1 (exec (Crashpad.add_breadcrumbs calls) w) = path1 w
  /\ path2 (exec (Crashpad.add_breadcrumbs calls) w) = path2 w.
Proof.
  revert w. induction calls as [|[o b] rest IH]; intros w.
  - split; reflexivity.
  - rewrite add_breadcrumbs_cons.
    destruct (IH (exec (add o b) w)) as [E1 E2].
    destruct (add_paths o b w) as [F1 F2].
    split; congruence.
Qed.

(** The counter after a run is the initial counter incremented once per
    call, whatever the calls' outcomes. *)
Lemma add_breadcrumbs_counter calls w :
  num (exec (Crashpad.add_breadcrumbs calls) w)
  = Nat.iter (length calls) (fun c => Crashpad.size_wrap (c + 1)) (num w).
Proof.
  revert w. induction calls as [|[o b] rest IH]; intros w.
  - reflexivity.
  - rewrite add_breadcrumbs_cons, IH, add_counter.
    cbn [length]. rewrite Nat.iter_succ_r. reflexivity.
Qed.

Lemma size_wrap_succ c :
  Crashpad.size_wrap (Crashpad.size_wrap c + 1) = Crashpad.size_wrap (c + 1).
Proof.
  unfold Crashpad.size_wrap.
  destruct (Z.eq_dec (2 ^ SIZE_BITS) 0) as [E|E].
  - rewrite E, !Z.mod_0_r. reflexivity.
  - rewrite Z.add_mod_idemp_l by exact E. reflexivity.
Qed.

Lemma iter_size_wrap n c :
  Nat.iter (S n) (fun c => Crashpad.size_wrap (c + 1)) c
  = Crashpad.size_wrap (c + Z.of_nat (S n)).
Proof.
  induction n as [|n IH].
  - reflexivity.
  - rewrite Nat.iter_succ, IH, size_wrap_succ. f_equal. lia.
Qed.

(** Below the width of [size_t] the counter is the number of calls. *)
Lemma counter_is_call_count calls w :
  num w = 0 ->
  Z.of_nat (length calls) < 2 ^ SIZE_BITS ->
  num (exec (Crashpad.add_breadcrumbs calls) w) = Z.of_nat (length calls).
Proof.
  intros E Hlt. rewrite add_breadcrumbs_counter, E.
  destruct (length calls) as [|n] eqn:En; [reflexivity|].
  rewrite iter_size_wrap. unfold Crashpad.size_wrap.
  rewrite Z.add_0_l. apply Z.mod_small. lia.
Qed.

End Crumbs.

(** *** Arithmetic of the rotation *)

Section Rotation.

Variable MAX : Z.
Hypothesis MAX_pos : 0 < MAX.

Lemma block_start_half c :
  c mod MAX = 0 -> c mod (MAX * 2) = 0 \/ c mod (MAX * 2) = MAX.
Proof.
  intros Hc.
  assert (Hr : (c mod (MAX * 2)) mod MAX = 0).
  { rewrite Z.mod_mod_divide by (exists 2; lia). exact Hc. }
  pose proof (Z.mod_pos_bound c (MAX * 2) ltac:(lia)) as Hb.
  apply Z.mod_divide in Hr; [|lia]. destruct Hr as [q Hq].
  rewrite Hq in *. assert (q = 0 \/ q = 1) as [->| ->] by nia; lia.
Qed.

Lemma same_half c j :
  c mod MAX = 0 -> 0 <= j < MAX ->
  Z.ltb ((c + j) mod (MAX * 2)) MAX = Z.ltb (c mod (MAX * 2)) MAX.
Proof.
  intros Hc Hj.
  rewrite <- (Z.add_mod_idemp_l c j) by lia.
  destruct (block_start_half c Hc) as [E|E]; rewrite E.
  - rewrite Z.mod_small by lia.
    destruct (Z.ltb_spec j MAX), (Z.ltb_spec 0 MAX); try reflexivity; lia.
  - rewrite Z.mod_small by lia.
    destruct (Z.ltb_spec (MAX + j) MAX), (Z.ltb_spec MAX MAX);
      try reflexivity; lia.
Qed.

Lemma not_block_start c j :
  c mod MAX = 0 -> 0 < j < MAX -> Z.eqb ((c + j) mod MAX) 0 = false.
Proof.
  intros Hc Hj. apply Z.eqb_neq.
  rewrite <- (Z.add_mod_idemp_l c j), Hc by lia.
  rewrite Z.add_0_l, Z.mod_small by lia. lia.
Qed.

Lemma other_half k :
  Z.ltb ((k + MAX) mod (MAX * 2)) MAX
  = negb (Z.ltb (k mod (MAX * 2)) MAX).
Proof.
  rewrite <- (Z.add_mod_idemp_l k MAX) by lia.
  pose proof (Z.mod_pos_bound k (MAX * 2) ltac:(lia)) as Hb.
  set (r := k mod (MAX * 2)) in *.
  destruct (Z.ltb_spec r MAX) as [Hr|Hr]; cbn [negb].
  - rewrite Z.mod_small by lia. apply Z.ltb_ge. lia.
  - replace (r + MAX) with ((r - MAX) + 1 * (MAX * 2)) by lia.
    rewrite Z.mod_add, Z.mod_small by lia. apply Z.ltb_lt. lia.
Qed.

End Rotation.

(** *** A block of calls that all go well *)

Section Blocks.

Context `{crumb_consts}.
Hypothesis consts_ok : crumb_consts_ok.
Variables file_a file_b : string.

Local Abbreviation add := Crashpad.sentry__crashpad_backend_add_breadcrumb.
Local Abbreviation num w := (Crashpad.num_breadcrumbs (Crashpad.data (plat w))).
Local Abbreviation path1 w := (Crashpad.breadcrumb1_path (Crashpad.data (plat w))).
Local Abbreviation path2 w := (Crashpad.breadcrumb2_path (Crashpad.data (plat w))).
Local Abbreviation files w := (Crashpad.files (plat w)).
Local Abbreviation MAX := SENTRY_BREADCRUMBS_MAX.

Let MAX_pos : 0 < MAX := max_positive consts_ok.

Lemma size_limit : MAX * 3 < 2 ^ SIZE_BITS.
Proof.
  pose proof (max_twice_int consts_ok) as H2.
  pose proof (size_bits_int consts_ok) as Hb.
  assert (2 ^ 32 <= 2 ^ SIZE_BITS) by (apply Z.pow_le_mono_r; lia).
  lia.
Qed.

Local Abbreviation block_file c := (block_file file_a file_b c).

Lemma file_at_block (w : world Crashpad.state) c j :
  path1 w = Some file_a -> path2 w = Some file_b ->
  c mod MAX = 0 -> 0 <= j < MAX ->
  file_at (plat w) (c + j) = Some (block_file c).
Proof.
  intros E1 E2 Hc Hj. unfold file_at, block_file.
  rewrite same_half by assumption. rewrite E1, E2.
  destruct (Z.ltb _ _); reflexivity.
Qed.

(** Calls [j], [j+1], ... of a block (with [0 < j]) append. *)
Lemma appends_run (rest : list (list Byte.byte * sentry_value_t)) c :
  c mod MAX = 0 -> 0 <= c -> c + MAX < 2 ^ SIZE_BITS ->
  forall (w : world Crashpad.state) j content,
    path1 w = Some file_a -> path2 w = Some file_b ->
    num w = c + j -> 0 < j -> j + Z.of_nat (length rest) <= MAX ->
    files w !! block_file c = Some content ->
    let w' := exec (Crashpad.add_breadcrumbs (map ok_call rest)) w in
    num w' = c + j + Z.of_nat (length rest)
    /\ files w' = <[block_file c := content ++ records rest]> (files w).
Proof.
  intros Hc Hc0 Hlim.
  induction rest as [|[buf b] rest IH]; intros w j content E1 E2 En Hj Hlen Hf.
  - cbn. rewrite Z.add_0_r, app_nil_r. split; [exact En|].
    symmetry. apply insert_id. exact Hf.
  - cbv zeta. rewrite add_breadcrumbs_ok_cons.
    cbn [length] in Hlen.
    set (o := mk_outcome (Some buf) IoOk).
    destruct (add_paths o b w) as [F1 F2].
    pose proof (add_counter o b w) as Fn.
    destruct (add_with_encoding o b w (block_file c) buf) as [_ Ff].
    { rewrite En. apply file_at_block; try assumption. lia. }
    { reflexivity. }
    cbn [io o] in Ff.
    rewrite En, not_block_start in Ff by (try assumption; lia).
    rewrite Hf in Ff. cbn [default] in Ff.
    rewrite En in Fn. unfold Crashpad.size_wrap in Fn.
    rewrite Z.mod_small in Fn by lia.
    destruct (IH (exec (add o b) w) (j + 1) (content ++ buf)) as [Gn Gf].
    + congruence.
    + congruence.
    + rewrite Fn. lia.
    + lia.
    + lia.
    + rewrite Ff. apply lookup_insert_eq.
    + split.
      * rewrite Gn. cbn [length]. lia.
      * rewrite Gf, Ff, insert_insert_eq. unfold records. cbn [map concat fst].
        rewrite app_assoc. reflexivity.
Qed.

(** A block: its first call overwrites the file, the others append, and
    the file ends up holding the records of the block and nothing else. *)
Lemma block_run (seg : list (list Byte.byte * sentry_value_t)) c
    (w : world Crashpad.state) :
  c mod MAX = 0 -> 0 <= c -> c + MAX < 2 ^ SIZE_BITS ->
  path1 w = Some file_a -> path2 w = Some file_b ->
  num w = c -> seg <> [] -> Z.of_nat (length seg) <= MAX ->
  let w' := exec (Crashpad.add_breadcrumbs (map ok_call seg)) w in
  num w' = c + Z.of_nat (length seg)
  /\ path1 w' = Some file_a /\ path2 w' = Some file_b
  /\ files w' = <[block_file c := records seg]> (files w).
Proof.
  intros Hc Hc0 Hlim E1 E2 En Hne Hlen. cbv zeta.
  destruct (add_breadcrumbs_paths (map ok_call seg) w) as [P1 P2].
  destruct seg as [|[buf b] rest]; [congruence|].
  rewrite add_breadcrumbs_ok_cons in P1, P2 |- *.
  cbn [length] in Hlen.
  set (o := mk_outcome (Some buf) IoOk).
  destruct (add_paths o b w) as [F1 F2].
  pose proof (add_counter o b w) as Fn.
  destruct (add_with_encoding o b w (block_file c) buf) as [_ Ff].
  { rewrite En.
    pose proof (file_at_block w c 0 E1 E2 Hc ltac:(lia)) as Hf0.
    rewrite Z.add_0_r in Hf0. exact Hf0. }
  { reflexivity. }
  cbn [io o] in Ff. rewrite En, Hc in Ff. cbn [Z.eqb] in Ff.
  rewrite En in Fn. unfold Crashpad.size_wrap in Fn.
  rewrite Z.mod_small in Fn by lia.
  destruct (appends_run rest c Hc Hc0 Hlim (exec (add o b) w) 1 buf)
    as [Gn Gf].
  - congruence.
  - congruence.
  - exact Fn.
  - lia.
  - lia.
  - rewrite Ff. apply lookup_insert_eq.
  - split; [rewrite Gn; cbn [length]; lia|].
    split; [rewrite <- E1; exact P1|].
    split; [rewrite <- E2; exact P2|].
    rewrite Gf, Ff, insert_insert_eq. reflexivity.
Qed.

End Blocks.

(** C3, as the code has it.  Counting from a freshly started backend, and
    as long as the counter has not wrapped ([k < 2 ^ SIZE_BITS]), the
    [k]-th call whose breadcrumb encodes makes four calls: the encoding, the
    release of the breadcrumb, one file write and the release of the
    buffer; the write goes to file A when [k mod (2 * MAX) < MAX] and to file B
    otherwise, overwriting when [k mod MAX = 0] and appending otherwise;
    when the write goes well the file holds just the record, or its former
    content followed by the record.  The target changes every [MAX] calls.
    After [2 * MAX + 1] calls that all encode and write well, file A holds
    exactly the last record and file B exactly the [MAX] records of calls
    [MAX] to [2 * MAX - 1]. *)
Theorem breadcrumb_rotation `{crumb_consts} (file_a file_b : string) :
  crumb_consts_ok ->
  (forall before o b buf (w : world Crashpad.state),
     ring_started file_a file_b (plat w) ->
     Z.of_nat (length before) < 2 ^ SIZE_BITS ->
     mpack o = Some buf ->
     let k := Z.of_nat (length before) in
     let wk := exec (Crashpad.add_breadcrumbs before) w in
     let w' := exec (Crashpad.sentry__crashpad_backend_add_breadcrumb o b) wk in
     log w'
     = log wk
       ++ [ E_value_to_msgpack b;
            E_value_decref b;
            scheduled_write file_a file_b k buf;
            E_free_mpack buf ]
     /\ (io o = IoOk ->
         Crashpad.files (plat w')
         = <[scheduled_target file_a file_b k
             := if Z.eqb (k mod SENTRY_BREADCRUMBS_MAX) 0
                then buf
                else default [] (Crashpad.files (plat wk)
                                   !! scheduled_target file_a file_b k)
                     ++ buf]>
             (Crashpad.files (plat wk))))
  /\ (forall k,
        scheduled_target file_a file_b (k + SENTRY_BREADCRUMBS_MAX)
        = scheduled_target file_b file_a k)
  /\ (forall c j,
        c mod SENTRY_BREADCRUMBS_MAX = 0 ->
        0 <= j < SENTRY_BREADCRUMBS_MAX ->
        scheduled_target file_a file_b (c + j)
        = scheduled_target file_a file_b c)
  /\ (forall first second last (w : world Crashpad.state),
        ring_started file_a file_b (plat w) ->
        Z.of_nat (length first) = SENTRY_BREADCRUMBS_MAX ->
        Z.of_nat (length second) = SENTRY_BREADCRUMBS_MAX ->
        let w' :=
          exec (Crashpad.add_breadcrumbs
                  (map ok_call (first ++ second ++ [last]))) w in
        Crashpad.files (plat w') !! file_a = Some (fst last)
        /\ Crashpad.files (plat w') !! file_b = Some (records second)).
Proof.
  intros Hok.
  pose proof (max_positive Hok) as Hpos.
  split; [|split; [|split]].
  - intros before o b buf w (E1 & E2 & En & Hne) Hlt Hbuf k wk w'.
    subst k wk w'.
    destruct (add_breadcrumbs_paths before w) as [P1 P2].
    pose proof (counter_is_call_count before w En Hlt) as Hk.
    set (wk := exec (Crashpad.add_breadcrumbs before) w) in *.
    destruct (add_with_encoding o b wk
                (scheduled_target file_a file_b (Z.of_nat (length before)))
                buf) as [Hl Hf].
    + unfold file_at, scheduled_target. rewrite Hk, P1, P2, E1, E2.
      rewrite (Z.mul_comm SENTRY_BREADCRUMBS_MAX 2).
      destruct (Z.ltb _ _); reflexivity.
    + exact Hbuf.
    + rewrite Hk in Hl, Hf. split.
      * rewrite Hl. unfold scheduled_write, scheduled_target.
        destruct (Z.eqb _ 0); reflexivity.
      * intros Hio. rewrite Hio in Hf. exact Hf.
  - intros k. unfold scheduled_target.
    rewrite !(Z.mul_comm 2), other_half by exact Hpos.
    destruct (Z.ltb _ _); reflexivity.
  - intros c j Hc Hj. unfold scheduled_target.
    rewrite !(Z.mul_comm 2), same_half by assumption. reflexivity.
  - intros first second last w (E1 & E2 & En & Hne) Hfirst Hsecond w'.
    subst w'.
    pose proof (size_limit Hok) as Hlim.
    rewrite !map_app, !add_breadcrumbs_app.
    destruct (block_run Hok file_a file_b first 0 w)
      as (N1 & A1 & B1 & F1);
      try assumption; try lia.
    { apply Z.mod_0_l. lia. }
    { intros ->. cbn in Hfirst. lia. }
    set (w1 := exec (Crashpad.add_breadcrumbs (map ok_call first)) w) in *.
    destruct (block_run Hok file_a file_b second SENTRY_BREADCRUMBS_MAX w1)
      as (N2 & A2 & B2 & F2);
      try assumption; try lia.
    { apply Z.mod_same. lia. }
    { intros ->. cbn in Hsecond. lia. }
    set (w2 := exec (Crashpad.add_breadcrumbs (map ok_call second)) w1) in *.
    destruct (block_run Hok file_a file_b [last]
                (SENTRY_BREADCRUMBS_MAX * 2) w2)
      as (N3 & A3 & B3 & F3);
      try assumption; try (cbn [length]; lia).
    { rewrite Z.mul_comm. apply Z.mod_mul. lia. }
    { discriminate. }
    set (w3 := exec (Crashpad.add_breadcrumbs (map ok_call [last])) w2) in *.
    assert (Ha : forall q, block_file file_a file_b
                             (SENTRY_BREADCRUMBS_MAX * (2 * q)) = file_a).
    { intros q. unfold block_file.
      replace (SENTRY_BREADCRUMBS_MAX * (2 * q))
        with (q * (SENTRY_BREADCRUMBS_MAX * 2)) by lia.
      rewrite Z.mod_mul by lia.
      destruct (Z.ltb_spec 0 SENTRY_BREADCRUMBS_MAX); [reflexivity | lia]. }
    assert (Hb : block_file file_a file_b SENTRY_BREADCRUMBS_MAX = file_b).
    { unfold block_file. rewrite Z.mod_small by lia.
      rewrite Z.ltb_irrefl. reflexivity. }
    replace 0 with (SENTRY_BREADCRUMBS_MAX * (2 * 0)) in F1 by lia.
    replace (SENTRY_BREADCRUMBS_MAX * 2)
      with (SENTRY_BREADCRUMBS_MAX * (2 * 1)) in F3 by lia.
    rewrite Ha in F1, F3. rewrite Hb in F2.
    rewrite F3, F2, F1. split.
    + rewrite lookup_insert_eq. unfold records. cbn. rewrite app_nil_r.
      reflexivity.
    + rewrite lookup_insert_ne by exact Hne. apply lookup_insert_eq.
Qed.

Lemma crumbs_2_64_ok : @crumb_consts_ok crumbs_2_64.
Proof. split; cbn; lia. Qed.

Lemma crumbs_100_64_ok : @crumb_consts_ok crumbs_100_64.
Proof. split; cbn; lia. Qed.

Lemma crumbs_100_32_ok : @crumb_consts_ok crumbs_100_32.
Proof. split; cbn; lia. Qed.

Lemma started_crashpad_ring platform :
  ring_started "run/__sentry-breadcrumb1" "run/__sentry-breadcrumb2"
    (plat (started_crashpad_world platform)).
Proof.
  destruct platform; repeat split; try (vm_compute; reflexivity);
    discriminate.
Qed.

(** The theorem at work: a ring of two, five calls. *)
Lemma breadcrumb_rotation_witness :
  let w' :=
    exec (@Crashpad.add_breadcrumbs crumbs_2_64
            (map ok_call
               ([([Byte.x01], VNull); ([Byte.x02], VNull)]
                ++ [([Byte.x03], VNull); ([Byte.x04], VNull)]
                ++ [([Byte.x05], VNull)])))
      (started_crashpad_world SENTRY_PLATFORM_LINUX) in
  Crashpad.files (plat w') !! "run/__sentry-breadcrumb1" = Some [Byte.x05]
  /\ Crashpad.files (plat w') !! "run/__sentry-breadcrumb2"
     = Some [Byte.x03; Byte.x04].
Proof.
  destruct (@breadcrumb_rotation crumbs_2_64
              "run/__sentry-breadcrumb1" "run/__sentry-breadcrumb2"
              crumbs_2_64_ok) as (_ & _ & _ & Hcycle).
  apply (Hcycle [([Byte.x01], VNull); ([Byte.x02], VNull)]
           [([Byte.x03], VNull); ([Byte.x04], VNull)]
           ([Byte.x05], VNull)
           (started_crashpad_world SENTRY_PLATFORM_LINUX)).
  - apply started_crashpad_ring.
  - reflexivity.
  - reflexivity.
Defined.

Section Wrapped.

Context `{crumb_consts}.

Lemma iter_size_wrap_pos n c :
  (0 < n)%nat ->
  Nat.iter n (fun c => Crashpad.size_wrap (c + 1)) c
  = Crashpad.size_wrap (c + Z.of_nat n).
Proof.
  intros Hn. destruct n as [|n]; [lia|]. apply iter_size_wrap.
Qed.

(** After [2 ^ SIZE_BITS] calls the counter is back at zero. *)
Lemma counter_wraps calls (w : world Crashpad.state) :
  Crashpad.num_breadcrumbs (Crashpad.data (plat w)) = 0 ->
  Z.of_nat (length calls) = 2 ^ SIZE_BITS ->
  0 < 2 ^ SIZE_BITS ->
  Crashpad.num_breadcrumbs
    (Crashpad.data (plat (exec (Crashpad.add_breadcrumbs calls) w))) = 0.
Proof.
  intros En Hlen Hpos.
  rewrite add_breadcrumbs_counter, En, iter_size_wrap_pos by lia.
  unfold Crashpad.size_wrap. rewrite Z.add_0_l, Hlen.
  apply Z.mod_same. lia.
Qed.

End Wrapped.

(** C3 as stated fails in two ways.  A call whose breadcrumb does not
    encode writes nothing, although it is call 0.  And with [MAX = 100] and
    a 32-bit [size_t], call number [2 ^ 32] finds the counter back at zero
    and overwrites file A, although [2 ^ 32 mod 100] is 96. *)
Lemma rotation_needs_encoding_and_no_wrap :
  (let w := started_crashpad_world SENTRY_PLATFORM_LINUX in
   let w' :=
     exec (@Crashpad.sentry__crashpad_backend_add_breadcrumb crumbs_100_64
             (mk_outcome None IoOk) (VRef 7)) w in
   0 mod 100 = 0
   /\ log w' = log w ++ [E_value_to_msgpack (VRef 7); E_value_decref (VRef 7)]
   /\ Crashpad.files (plat w') = Crashpad.files (plat w))
  /\ (let before :=
        replicate (Z.to_nat (2 ^ 32)) (ok_call ([Byte.x01], VNull)) in
      let wk :=
        exec (@Crashpad.add_breadcrumbs crumbs_100_32 before)
          (started_crashpad_world SENTRY_PLATFORM_LINUX) in
      let w' :=
        exec (@Crashpad.sentry__crashpad_backend_add_breadcrumb crumbs_100_32
                (mk_outcome (Some [Byte.x02]) IoOk) (VRef 7)) wk in
      Z.of_nat (length before) = 2 ^ 32
      /\ 2 ^ 32 mod 100 = 96
      /\ log w'
         = log wk
           ++ [ E_value_to_msgpack (VRef 7);
                E_value_decref (VRef 7);
                E_path_write_buffer "run/__sentry-breadcrumb1" [Byte.x02];
                E_free_mpack [Byte.x02] ]).
Proof.
  split.
  - cbv zeta. split; [reflexivity|].
    apply (@add_without_encoding crumbs_100_64 _ _ _
             "run/__sentry-breadcrumb1"); reflexivity.
  - cbv zeta.
    assert (Hlen : Z.of_nat (length (replicate (Z.to_nat (2 ^ 32))
                                       (ok_call ([Byte.x01], VNull))))
                   = 2 ^ 32)
      by (rewrite length_replicate; apply Z2Nat.id; lia).
    split; [exact Hlen|]. split; [reflexivity|].
    set (before := replicate (Z.to_nat (2 ^ 32)) (ok_call ([Byte.x01], VNull)))
      in *.
    set (w := started_crashpad_world SENTRY_PLATFORM_LINUX).
    destruct (@add_breadcrumbs_paths crumbs_100_32 before w) as [P1 P2].
    assert (Hn : Crashpad.num_breadcrumbs
                   (Crashpad.data
                      (plat (exec (@Crashpad.add_breadcrumbs crumbs_100_32
                                     before) w))) = 0).
    { apply (@counter_wraps crumbs_100_32); [reflexivity | exact Hlen |].
      cbn. lia. }
    set (wk := exec (@Crashpad.add_breadcrumbs crumbs_100_32 before) w) in *.
    destruct (@add_with_encoding crumbs_100_32
                (mk_outcome (Some [Byte.x02]) IoOk) (VRef 7) wk
                "run/__sentry-breadcrumb1" [Byte.x02]) as [Hl _].
    + unfold file_at. rewrite Hn, P1. reflexivity.
    + reflexivity.
    + rewrite Hl, Hn. reflexivity.
Qed.

(** ** The breadcrumb counter and the breadcrumb reference *)

(** C7.  Whatever a call's outcome (no target file, encoding failed, write
    failed or went well), the counter afterwards is the counter before plus
    one, as a [size_t]; below the width of [size_t] that is exactly one
    more.  So after any run the counter is the initial one incremented once
    per call, and changing the outcomes of the calls changes neither the
    counter nor the file the next call goes to. *)
Theorem breadcrumb_counter_always_advances `{crumb_consts} :
  (forall o b (w : world Crashpad.state),
     Crashpad.num_breadcrumbs
       (Crashpad.data
          (plat (exec (Crashpad.sentry__crashpad_backend_add_breadcrumb o b)
                   w)))
     = Crashpad.size_wrap
         (Crashpad.num_breadcrumbs (Crashpad.data (plat w)) + 1))
  /\ (forall o b (w : world Crashpad.state),
        0 <= Crashpad.num_breadcrumbs (Crashpad.data (plat w)) ->
        Crashpad.num_breadcrumbs (Crashpad.data (plat w)) + 1
        < 2 ^ SIZE_BITS ->
        Crashpad.num_breadcrumbs
          (Crashpad.data
             (plat (exec (Crashpad.sentry__crashpad_backend_add_breadcrumb o b)
                      w)))
        = Crashpad.num_breadcrumbs (Crashpad.data (plat w)) + 1)
  /\ (forall calls (w : world Crashpad.state),
        Crashpad.num_breadcrumbs
          (Crashpad.data (plat (exec (Crashpad.add_breadcrumbs calls) w)))
        = Nat.iter (length calls) (fun c => Crashpad.size_wrap (c + 1))
            (Crashpad.num_breadcrumbs (Crashpad.data (plat w))))
  /\ (forall (change : outcome -> outcome) calls (w : world Crashpad.state),
        let w1 := exec (Crashpad.add_breadcrumbs calls) w in
        let w2 :=
          exec (Crashpad.add_breadcrumbs
                  (map (fun c => (change (fst c), snd c)) calls)) w in
        Crashpad.num_breadcrumbs (Crashpad.data (plat w2))
        = Crashpad.num_breadcrumbs (Crashpad.data (plat w1))
        /\ file_at (plat w2)
             (Crashpad.num_breadcrumbs (Crashpad.data (plat w2)))
           = file_at (plat w1)
               (Crashpad.num_breadcrumbs (Crashpad.data (plat w1)))).
Proof.
  split; [|split; [|split]].
  - intros o b w. apply add_counter.
  - intros o b w H0 Hlt. rewrite add_counter. unfold Crashpad.size_wrap.
    apply Z.mod_small. lia.
  - intros calls w. apply add_breadcrumbs_counter.
  - intros change calls w w1 w2. subst w1 w2.
    assert (En : Crashpad.num_breadcrumbs
                   (Crashpad.data
                      (plat (exec (Crashpad.add_breadcrumbs
                                     (map (fun c => (change (fst c), snd c))
                                        calls)) w)))
                 = Crashpad.num_breadcrumbs
                     (Crashpad.data
                        (plat (exec (Crashpad.add_breadcrumbs calls) w))))
      by (rewrite !add_breadcrumbs_counter, length_map; reflexivity).
    split; [exact En|].
    unfold file_at. rewrite En.
    destruct (add_breadcrumbs_paths calls w) as [P1 P2].
    destruct (add_breadcrumbs_paths
                (map (fun c => (change (fst c), snd c)) calls) w) as [Q1 Q2].
    rewrite P1, P2, Q1, Q2. reflexivity.
Qed.

(** The theorem at work: a call whose encoding fails, on the started
    sample process. *)
Lemma breadcrumb_counter_always_advances_witness :
  Crashpad.num_breadcrumbs
    (Crashpad.data
       (plat (exec (@Crashpad.sentry__crashpad_backend_add_breadcrumb
                      crumbs_100_64 (mk_outcome None IoOk) (VRef 7))
                (started_crashpad_world SENTRY_PLATFORM_LINUX))))
  = 1.
Proof.
  destruct (@breadcrumb_counter_always_advances crumbs_100_64)
    as (_ & Hone & _).
  rewrite Hone.
  - vm_compute. reflexivity.
  - vm_compute. discriminate.
  - vm_compute. reflexivity.
Defined.

(** With a target file the breadcrumb is released exactly once, right
    after the encoder was called, whether the encoding and the write fail
    or not. *)
Lemma breadcrumb_released_once `{crumb_consts} o b f
    (w : world Crashpad.state) :
  file_at (plat w) (Crashpad.num_breadcrumbs (Crashpad.data (plat w)))
  = Some f ->
  exists rest,
    log (exec (Crashpad.sentry__crashpad_backend_add_breadcrumb o b) w)
    = log w ++ E_value_to_msgpack b :: E_value_decref b :: rest
    /\ forall v, ~ In (E_value_decref v) rest.
Proof.
  intros Hf. destruct (mpack o) as [buf|] eqn:Em.
  - destruct (add_with_encoding o b w f buf Hf Em) as [Hl _].
    eexists. split; [exact Hl|].
    intros v [E|[E|[]]]; [|discriminate E].
    destruct (Z.eqb _ 0); discriminate E.
  - destruct (add_without_encoding o b w f Hf Em) as [Hl _].
    exists []. split; [exact Hl|]. intros v [].
Qed.

(** C8 fails on the code: in a backend whose [startup] gave up before
    naming the ring files, a call returns at [if (!breadcrumb_file)], before
    [sentry_value_decref]: it counts the breadcrumb and makes no call at
    all, so the reference handed over is never released. *)
Theorem breadcrumb_kept_without_file :
  let w := unstarted_crashpad_world in
  let w' :=
    exec (@Crashpad.sentry__crashpad_backend_add_breadcrumb crumbs_100_64
            (mk_outcome (Some [Byte.x01]) IoOk) (VRef 7)) w in
  Crashpad.breadcrumb1_path (Crashpad.data (plat w)) = None
  /\ log w' = log w
  /\ List.filter
       (fun e => match e with E_value_decref _ => true | _ => false end)
       (log w') = []
  /\ Crashpad.num_breadcrumbs (Crashpad.data (plat w')) = 1.
Proof.
  cbv zeta. repeat split; vm_compute; reflexivity.
Qed.

(** ** Shutdown *)

(** POSIX [shutdown] never touches the kernel's handler table. *)
Lemma posix_shutdown_handlers `{posix_consts} (w : world Posix.state) :
  Posix.os_handlers (plat (exec Posix.shutdown_inproc_backend w))
  = Posix.os_handlers (plat w)
  /\ log (exec Posix.shutdown_inproc_backend w)
     = log w
       ++ [ E_sigaltstack
              (mk_stack (ss_sp (Posix.g_signal_stack (plat w)))
                 (ss_size (Posix.g_signal_stack (plat w))) SS_DISABLE);
            E_free (ss_sp (Posix.g_signal_stack (plat w))) ].
Proof.
  destruct w as [h t lg [om a g prev gs]].
  unfold Posix.shutdown_inproc_backend, Posix.sigaltstack_g_signal_stack,
    exec, bind, get_plat, set_plat, emit.
  cbn. rewrite <- app_assoc. split; reflexivity.
Qed.

(** C6 fails on the code.  The sample process started the backend and
    nobody replaced the handlers; [shutdown] on POSIX disables and frees the
    alternate stack and leaves the backend's own handler installed for
    [SIGSEGV] (and every other signal of the table), where the host's
    handler was installed before [startup]. *)
Theorem posix_shutdown_leaves_dispatcher :
  let w0 := sample_posix_world in
  let w1 := started_posix_world in
  let w2 := exec (@Posix.shutdown_inproc_backend linux_consts) w1 in
  Posix.os_handlers (plat w0) !! 11 = Some (mk_sigaction 555 555 0 0)
  /\ Posix.os_handlers (plat w1) !! 11
     = Some (mk_sigaction 4096 4096 0 (Z.lor 4 134217728))
  /\ Posix.os_handlers (plat w2) !! 11
     = Some (mk_sigaction 4096 4096 0 (Z.lor 4 134217728))
  /\ Posix.os_handlers (plat w2) = Posix.os_handlers (plat w1)
  /\ log w2 = log w1 ++ [E_sigaltstack (mk_stack 36864 65536 2); E_free 36864].
Proof.
  cbv zeta.
  split; [vm_compute; reflexivity|].
  split; [vm_compute; reflexivity|].
  split; [vm_compute; reflexivity|].
  split; [apply (@posix_shutdown_handlers linux_consts)|].
  vm_compute. reflexivity.
Qed.

(** The sibling paths do what the claim says: the two Windows [shutdown]s
    put the saved filter back when the installed one is still theirs and
    leave a filter somebody else installed. *)
Lemma windows_shutdown_filter `{winnt_consts} (w : world Windows.state) :
  Windows.top_level_filter (plat (exec Windows.shutdown_inproc_backend w))
  = if Z.eqb (Windows.top_level_filter (plat w)) addr_handle_exception
    then Windows.g_previous_handler (plat w)
    else Windows.top_level_filter (plat w).
Proof.
  destruct w as [h t lg [flt mode prev]].
  unfold Windows.shutdown_inproc_backend, Windows.SetUnhandledExceptionFilter,
    exec, bind, get_plat, set_plat, emit, ret.
  cbn. destruct (Z.eqb flt addr_handle_exception); reflexivity.
Qed.

Lemma crashpad_shutdown_filter `{winnt_consts} (w : world Crashpad.state) :
  Windows.top_level_filter
    (Crashpad.filter
       (plat (exec (Crashpad.sentry__crashpad_backend_shutdown
                      SENTRY_PLATFORM_WINDOWS) w)))
  = if Z.eqb (Windows.top_level_filter (Crashpad.filter (plat w)))
         addr_sentry__crashpad_handler
    then Windows.g_previous_handler (Crashpad.filter (plat w))
    else Windows.top_level_filter (Crashpad.filter (plat w)).
Proof.
  destruct w as [h t lg [d fs [flt mode prev]]].
  unfold Crashpad.sentry__crashpad_backend_shutdown, Crashpad.in_filter, zoom,
    Crashpad.get_data, Crashpad.set_data, Windows.SetUnhandledExceptionFilter,
    exec, bind, get_plat, set_plat, emit, ret.
  cbn. destruct (Z.eqb flt addr_sentry__crashpad_handler); reflexivity.
Qed.

(** ** POSIX [startup] *)

Section PosixStartup.

Context `{posix_consts}.

(** The query loop of [startup] while the kernel knows every signal. *)
Lemma query_loop_run (l : list nat) h t om a g gs :
  forall prev lg,
    (forall i, In i l -> is_Some (om !! Posix.slot_signum i)) ->
    for_each_return l (fun i =>
        (rv <- Posix.sigaction (Posix.slot_signum i) None (Some i) ;;
         ret (Z.eqb rv (-1)))%sentry)
      (mk_world h t lg (Posix.mk_state om a g prev gs))
    = (false,
       mk_world h t
         (lg ++ map (fun i => E_sigaction_get (Posix.slot_signum i)) l)
         (Posix.mk_state om a g
            (fold_left
               (fun p i =>
                  <[i := default Posix.zero_sigaction
                           (om !! Posix.slot_signum i)]> p) l prev)
            gs)).
Proof.
induction l as [|x l IH]; intros prev lg Hk.
- cbn. rewrite app_nil_r. reflexivity.
- cbn [for_each_return].
  destruct (Hk x (or_introl eq_refl)) as [old Hold].
  erewrite bind_run.
  2:{ unfold Posix.sigaction, bind, get_plat, ret, emit, set_plat.
      cbn. rewrite Hold. cbn. reflexivity. }
  cbn [Z.eqb]. rewrite IH by (intros i Hi; apply Hk; right; exact Hi).
  cbn [map fold_left]. rewrite Hold. cbn [default].
  rewrite <- app_assoc. reflexivity.
Qed.

Lemma sigaction_get_run sig i h t lg om a g prev gs :
  Posix.sigaction sig None (Some i)
    (mk_world h t lg (Posix.mk_state om a g prev gs))
  = match om !! sig with
    | Some old =>
        (0, mk_world h t (lg ++ [E_sigaction_get sig])
              (Posix.mk_state om a g (<[i := old]> prev) gs))
    | None => (-1, mk_world h t lg (Posix.mk_state om a g prev gs))
    end.
Proof.
unfold Posix.sigaction, bind, get_plat, ret, emit, set_plat. cbn.
destruct (om !! sig); reflexivity.
Qed.

(** The query loop never changes the kernel's table, and it stops with
    [return] at a signal the kernel refuses. *)
Lemma query_loop_handlers (l : list nat) :
  forall (w : world Posix.state),
    let r :=
      for_each_return l (fun i =>
        (rv <- Posix.sigaction (Posix.slot_signum i) None (Some i) ;;
         ret (Z.eqb rv (-1)))%sentry) w in
    Posix.os_handlers (plat (snd r)) = Posix.os_handlers (plat w)
    /\ List.filter
         (fun e => match e with E_sigaction_set _ _ => true | _ => false end)
         (log (snd r))
       = List.filter
           (fun e => match e with E_sigaction_set _ _ => true | _ => false end)
           (log w)
    /\ ((exists i, In i l
                   /\ Posix.os_handlers (plat w) !! Posix.slot_signum i = None)
        -> fst r = true).
Proof.
induction l as [|x l IH]; intros [h t lg [om a g prev gs]]; cbv zeta.
- cbn. split; [reflexivity|]. split; [reflexivity|].
  intros (i & [] & _).
- cbn [for_each_return].
  destruct (om !! Posix.slot_signum x) as [old|] eqn:Eold.
  + erewrite bind_run.
    2:{ erewrite bind_run by (rewrite sigaction_get_run, Eold; reflexivity).
        reflexivity. }
    cbn [Z.eqb].
    match goal with
    | |- context [for_each_return l ?body ?W] =>
        destruct (IH W) as (Ho & Hl & Hr)
    end.
    cbn [plat Posix.os_handlers log] in Ho, Hl, Hr.
    split; [exact Ho|]. split.
    * rewrite Hl, List.filter_app. cbn. apply app_nil_r.
    * intros (i & [->|Hi] & Hnone); [cbn in Hnone; congruence|].
      apply Hr. exists i. split; assumption.
  + erewrite bind_run.
    2:{ erewrite bind_run by (rewrite sigaction_get_run, Eold; reflexivity).
        reflexivity. }
    cbn. split; [reflexivity|]. split; [reflexivity|]. reflexivity.
Qed.

(** The install loop of [startup]. *)
Lemma install_loop_run (l : list nat) h t a g prev gs :
  forall om lg,
    (forall i, In i l -> is_Some (om !! Posix.slot_signum i)) ->
    for_each l (fun i =>
        (st <- get_plat ;;
         Posix.sigaction (Posix.slot_signum i)
           (Some (Posix.g_sigaction st)) None ;;;
         ret tt)%sentry)
      (mk_world h t lg (Posix.mk_state om a g prev gs))
    = (tt,
       mk_world h t
         (lg ++ map (fun i => E_sigaction_set (Posix.slot_signum i) g) l)
         (Posix.mk_state
            (fold_left (fun m i => <[Posix.slot_signum i := g]> m) l om)
            a g prev gs)).
Proof.
induction l as [|x l IH]; intros om lg Hk.
- cbn. rewrite app_nil_r. reflexivity.
- cbn [for_each].
  destruct (Hk x (or_introl eq_refl)) as [old Hold].
  erewrite bind_run.
  2:{ erewrite bind_run by reflexivity.
      erewrite bind_run by (eapply sigaction_set_run; cbn; exact Hold).
      reflexivity. }
  cbn [Posix.os_handlers Posix.os_altstack Posix.g_sigaction
       Posix.g_previous_handlers Posix.g_signal_stack plat].
  rewrite IH.
  + cbn [map fold_left]. rewrite <- app_assoc. reflexivity.
  + intros i Hi. apply lookup_insert_is_Some'. right. apply Hk.
    right. exact Hi.
Qed.

(** The whole effect of a [startup] that the kernel does not refuse. *)
Lemma startup_run stack_mem (w : world Posix.state) :
  signals_known (plat w) ->
  exec (Posix.startup_inproc_backend stack_mem) w
  = mk_world (heap w) (transport w)
      (log w
       ++ [ E_malloc Posix.SIGNAL_STACK_SIZE;
            E_sigaltstack (mk_stack stack_mem Posix.SIGNAL_STACK_SIZE 0) ]
       ++ map (fun i => E_sigaction_get (Posix.slot_signum i))
            (seq 0 Posix.SIGNAL_COUNT)
       ++ map (fun i => E_sigaction_set (Posix.slot_signum i)
                          dispatcher)
            (seq 0 Posix.SIGNAL_COUNT))
      (Posix.mk_state (dispatched_handlers (plat w))
         (Some (mk_stack stack_mem Posix.SIGNAL_STACK_SIZE 0))
         dispatcher
         (map (installed_before (plat w)) (seq 0 Posix.SIGNAL_COUNT))
         (mk_stack stack_mem Posix.SIGNAL_STACK_SIZE 0)).
Proof.
intros Hk. destruct w as [h t lg [om a g prev gs]].
assert (Hk' : forall i, In i (seq 0 Posix.SIGNAL_COUNT) ->
                is_Some (om !! Posix.slot_signum i)).
{ intros i Hi. apply Hk. apply in_seq in Hi.
  unfold Posix.SIGNAL_COUNT in *. lia. }
unfold exec, Posix.startup_inproc_backend, Posix.sigaltstack_g_signal_stack.
cbn [bind emit get_plat set_plat plat heap transport log
     Posix.os_handlers Posix.os_altstack Posix.g_sigaction
     Posix.g_previous_handlers Posix.g_signal_stack].
erewrite bind_run by (apply query_loop_run; exact Hk').
cbv iota. rewrite install_loop_run by exact Hk'.
unfold dispatched_handlers, dispatcher, installed_before.
cbn [snd plat Posix.os_handlers Posix.g_sigaction].
f_equal. rewrite <- !app_assoc. reflexivity.
Qed.

End PosixStartup.

Section PosixStartupFacts.

Context `{posix_consts}.

Lemma fold_insert_const {V} (key : nat -> Z) (v : V) (l : list nat)
    (m : gmap Z V) (k : Z) :
  In k (map key l) ->
  fold_left (fun m i => <[key i := v]> m) l m !! k = Some v.
Proof.
revert m. induction l as [|x l IH]; intros m Hin; [destruct Hin|].
cbn. destruct (in_dec Z.eq_dec k (map key l)) as [Hl|Hl].
- apply IH. exact Hl.
- destruct Hin as [<-|Hin]; [|contradiction].
  rewrite (fold_insert_other key (fun _ => v)) by exact Hl.
  apply lookup_insert_eq.
Qed.

Lemma dispatched_lookup st j :
  (j < Posix.SIGNAL_COUNT)%nat ->
  dispatched_handlers st !! Posix.slot_signum j = Some dispatcher.
Proof.
intros Hj. unfold dispatched_handlers. apply fold_insert_const.
apply in_map. apply in_seq. unfold Posix.SIGNAL_COUNT in *. lia.
Qed.

Lemma dispatched_other st k :
  ~ In k [SIGILL; SIGTRAP; SIGABRT; SIGBUS; SIGFPE; SIGSEGV] ->
  dispatched_handlers st !! k = Posix.os_handlers st !! k.
Proof.
intros Hk. unfold dispatched_handlers.
apply (fold_insert_other Posix.slot_signum (fun _ => dispatcher)).
rewrite slot_signums. exact Hk.
Qed.

Lemma recorded_nth st j :
  (j < Posix.SIGNAL_COUNT)%nat ->
  nth j (map (installed_before st) (seq 0 Posix.SIGNAL_COUNT))
    Posix.zero_sigaction
  = installed_before st j.
Proof.
intros Hj. unfold Posix.SIGNAL_COUNT in *.
do 6 (destruct j as [|j]; [reflexivity|]). lia.
Qed.

Lemma started_known stack_mem (w : world Posix.state) :
  signals_known (plat w) ->
  signals_known (plat (exec (Posix.startup_inproc_backend stack_mem) w)).
Proof.
intros Hk i Hi. rewrite startup_run by exact Hk.
cbn [plat Posix.os_handlers]. rewrite dispatched_lookup by exact Hi. eauto.
Qed.

End PosixStartupFacts.

(** When the kernel accepts the six signals, [startup] records for every
    slot the handler that was installed, installs the backend's own handler
    (three-argument [handle_signal], on the alternate stack, empty mask;
    [sa_handler] shares the storage of [sa_sigaction] and so holds
    [handle_signal] too) for every signal of the table and for no other
    signal, and registers the 64 KiB alternate stack. *)
Theorem startup_records_and_installs `{posix_consts} (stack_mem : Z)
    (w : world Posix.state) :
  signals_known (plat w) ->
  let w' := exec (Posix.startup_inproc_backend stack_mem) w in
  (forall i, (i < Posix.SIGNAL_COUNT)%nat ->
     Posix.os_handlers (plat w) !! Posix.slot_signum i
     = Some (Posix.previous_handler (plat w') i))
  /\ (forall i, (i < Posix.SIGNAL_COUNT)%nat ->
        Posix.os_handlers (plat w') !! Posix.slot_signum i
        = Some (mk_sigaction addr_handle_signal addr_handle_signal 0
                  (Z.lor SA_SIGINFO SA_ONSTACK)))
  /\ (forall k, ~ In k [SIGILL; SIGTRAP; SIGABRT; SIGBUS; SIGFPE; SIGSEGV] ->
        Posix.os_handlers (plat w') !! k = Posix.os_handlers (plat w) !! k)
  /\ Posix.os_altstack (plat w') = Some (mk_stack stack_mem 65536 0)
  /\ length (Posix.g_previous_handlers (plat w')) = 6%nat.
Proof.
intros Hk w'. subst w'. rewrite startup_run by exact Hk.
cbn [plat Posix.os_handlers Posix.os_altstack Posix.g_previous_handlers
     Posix.previous_handler].
split; [|split; [|split; [|split]]].
- intros i Hi. unfold Posix.previous_handler.
  cbn [Posix.g_previous_handlers]. rewrite recorded_nth by exact Hi.
  unfold installed_before. destruct (Hk i Hi) as [old ->]. reflexivity.
- intros i Hi. apply dispatched_lookup. exact Hi.
- intros k Hn. apply dispatched_other. exact Hn.
- reflexivity.
- reflexivity.
Qed.

Lemma sample_posix_world_known :
  @signals_known linux_consts (plat sample_posix_world).
Proof.
intros i Hi. unfold Posix.SIGNAL_COUNT in Hi.
do 6 (destruct i as [|i]; [vm_compute; eauto|]). lia.
Qed.

(** The theorem at work on the sample process. *)
Lemma startup_records_and_installs_witness :
  let w' :=
    exec (@Posix.startup_inproc_backend linux_consts 36864)
      sample_posix_world in
  Posix.os_handlers (plat sample_posix_world) !! 11
  = Some (Posix.previous_handler (plat w') 5)
  /\ Posix.os_handlers (plat w') !! @Posix.slot_signum linux_consts 5
     = Some (mk_sigaction 4096 4096 0 (Z.lor 4 134217728))
  /\ Posix.os_altstack (plat w') = Some (mk_stack 36864 65536 0).
Proof.
destruct (@startup_records_and_installs linux_consts 36864
            sample_posix_world sample_posix_world_known)
  as (Hrec & Hinst & _ & Hstack & _).
split; [|split].
- apply (Hrec 5%nat). unfold Posix.SIGNAL_COUNT. lia.
- apply (Hinst 5%nat). unfold Posix.SIGNAL_COUNT. lia.
- exact Hstack.
Defined.

(** When the kernel refuses one signal of the table, [startup] returns from
    its first loop: it installs no handler at all and leaves the kernel's
    table as it was; the alternate stack it allocated stays registered. *)
Theorem startup_refused_installs_nothing `{posix_consts} (stack_mem : Z)
    (i : nat) (w : world Posix.state) :
  (i < Posix.SIGNAL_COUNT)%nat ->
  Posix.os_handlers (plat w) !! Posix.slot_signum i = None ->
  let w' := exec (Posix.startup_inproc_backend stack_mem) w in
  Posix.os_handlers (plat w') = Posix.os_handlers (plat w)
  /\ List.filter
       (fun e => match e with E_sigaction_set _ _ => true | _ => false end)
       (log w')
     = List.filter
         (fun e => match e with E_sigaction_set _ _ => true | _ => false end)
         (log w)
  /\ List.filter
       (fun e => match e with E_free _ => true | _ => false end) (log w')
     = List.filter
         (fun e => match e with E_free _ => true | _ => false end) (log w).
Proof.
intros Hi Hnone w'. subst w'.
destruct w as [h t lg [om a g prev gs]].
unfold exec, Posix.startup_inproc_backend, Posix.sigaltstack_g_signal_stack.
cbn [bind emit get_plat set_plat plat heap transport log
     Posix.os_handlers Posix.os_altstack Posix.g_sigaction
     Posix.g_previous_handlers Posix.g_signal_stack].
match goal with
| |- context [bind (for_each_return ?l ?body) ?k ?W] =>
    pose proof (query_loop_handlers l W) as Hq;
    destruct (for_each_return l body W) as [r W'] eqn:Er;
    rewrite !(bind_run (for_each_return l body) k W r W' Er)
end.
cbv zeta in Hq. cbn [fst snd plat Posix.os_handlers log] in Hq.
destruct Hq as (Ho & Hl & Hr).
assert (r = true) as ->.
{ apply Hr. exists i. split; [|exact Hnone].
  apply in_seq. unfold Posix.SIGNAL_COUNT in *. lia. }
cbn [ret snd].
split; [exact Ho|]. split.
- rewrite Hl, !List.filter_app. cbn. rewrite !app_nil_r. reflexivity.
- clear Ho Hl Hr Hnone Hi.
  assert (Hf : forall l (W : world Posix.state),
            List.filter
              (fun e => match e with E_free _ => true | _ => false end)
              (log (snd (for_each_return l (fun i =>
                 (rv <- Posix.sigaction (Posix.slot_signum i) None (Some i) ;;
                  ret (Z.eqb rv (-1)))%sentry) W)))
            = List.filter
                (fun e => match e with E_free _ => true | _ => false end)
                (log W)).
  { clear. intros l. induction l as [|x l IH]; intros [h t lg [om a g prev gs]].
    - reflexivity.
    - cbn [for_each_return].
      destruct (om !! Posix.slot_signum x) eqn:E;
        (erewrite bind_run
           by (erewrite bind_run by (rewrite sigaction_get_run, E; reflexivity);
               reflexivity));
        cbn [Z.eqb].
      + rewrite IH. cbn [log]. rewrite List.filter_app. cbn.
        apply app_nil_r.
      + reflexivity. }
  match type of Er with
  | for_each_return ?l ?body ?W = _ =>
      pose proof (Hf l W) as Hf'; rewrite Er in Hf'
  end.
  cbn [snd log] in Hf'. rewrite Hf', !List.filter_app. cbn.
  rewrite !app_nil_r. reflexivity.
Qed.

(** The theorem at work: a kernel without [SIGBUS] (number 7). *)
Lemma startup_refused_installs_nothing_witness :
  let w :=
    mk_world [] None []
      (Posix.mk_state (delete 7 sample_handlers) None Posix.zero_sigaction []
         (mk_stack 0 0 0)) in
  Posix.os_handlers
    (plat (exec (@Posix.startup_inproc_backend linux_consts 36864) w))
  = delete 7 sample_handlers.
Proof.
destruct (@startup_refused_installs_nothing linux_consts 36864 3%nat
            (mk_world [] None []
               (Posix.mk_state (delete 7 sample_handlers) None
                  Posix.zero_sigaction [] (mk_stack 0 0 0))))
  as (Ho & _ & _).
- unfold Posix.SIGNAL_COUNT. lia.
- vm_compute. reflexivity.
- exact Ho.
Defined.

(** ** POSIX: [startup] followed by a fault *)

Lemma table_signal_slot `{posix_consts} k :
  In k [SIGILL; SIGTRAP; SIGABRT; SIGBUS; SIGFPE; SIGSEGV] ->
  exists j, (j < Posix.SIGNAL_COUNT)%nat /\ k = Posix.slot_signum j.
Proof.
unfold Posix.SIGNAL_COUNT. cbn.
intros [<-|[<-|[<-|[<-|[<-|[<-|[]]]]]]];
  [exists 0%nat | exists 1%nat | exists 2%nat | exists 3%nat | exists 4%nat
  | exists 5%nat]; split; (lia || reflexivity).
Qed.

(** A fault after [startup] puts the kernel's handler table back exactly
    as it was before [startup], for the signals of the table and for all
    others. *)
Theorem fault_undoes_startup `{posix_consts}
    (event_defaults : list (string * sentry_value_t))
    (unwind : Posix.sentry_ucontext_t -> nat -> list Z)
    (stack_mem : Z) (uctx : Posix.sentry_ucontext_t)
    (w : world Posix.state) :
  posix_consts_ok ->
  signals_known (plat w) ->
  Posix.os_handlers
    (plat (exec (Posix.handle_ucontext event_defaults unwind uctx)
             (exec (Posix.startup_inproc_backend stack_mem) w)))
  = Posix.os_handlers (plat w).
Proof.
intros Hok Hk.
rewrite posix_handle_ucontext_run by (apply started_known; exact Hk).
cbn [plat Posix.os_handlers].
apply map_eq. intros k.
destruct (in_dec Z.eq_dec k [SIGILL; SIGTRAP; SIGABRT; SIGBUS; SIGFPE; SIGSEGV])
  as [Hin|Hout].
- destruct (table_signal_slot k Hin) as (j & Hj & ->).
  rewrite restored_handlers_lookup by assumption.
  rewrite startup_run by exact Hk.
  unfold Posix.previous_handler. cbn [plat Posix.g_previous_handlers].
  rewrite recorded_nth by exact Hj.
  unfold installed_before. destruct (Hk j Hj) as [old ->]. reflexivity.
- rewrite restored_handlers_other by exact Hout.
  rewrite startup_run by exact Hk. cbn [plat Posix.os_handlers].
  apply dispatched_other. exact Hout.
Qed.

(** The theorem at work: the sample process starts the backend and takes a
    [SIGFPE]. *)
Lemma fault_undoes_startup_witness :
  Posix.os_handlers
    (plat (exec (@Posix.handle_ucontext linux_consts [] sample_unwind
                   (Posix.mk_ucontext 8 1 2))
             (exec (@Posix.startup_inproc_backend linux_consts 36864)
                sample_posix_world)))
  = sample_handlers.
Proof.
apply (@fault_undoes_startup linux_consts [] sample_unwind 36864
         (Posix.mk_ucontext 8 1 2) sample_posix_world).
- exact linux_consts_ok.
- exact sample_posix_world_known.
Defined.

(** The calls one fault makes on POSIX outside the value API, for any
    signal number, in order: the page allocator and the signal-handler mode
    are switched on first, then come marker, swap, session end, the
    unwinder, capture and the dump of the earlier transport, then the six
    restoring [sigaction] calls, then the signal-handler mode is left, and
    only then the recorded handler of the signal is invoked.  The store
    grows by the cells of the event and the disk transport stays
    installed. *)
Theorem posix_fault_call_sequence `{posix_consts}
    (event_defaults : list (string * sentry_value_t))
    (unwind : Posix.sentry_ucontext_t -> nat -> list Z)
    (sig info user_context : Z) (w : world Posix.state) :
  signals_known (plat w) ->
  let w' :=
    exec (Posix.handle_signal event_defaults unwind sig info user_context) w in
  log w'
  = log w
    ++ [ E_page_allocator_enable;
         E_enter_signal_handler;
         E_write_crash_marker;
         E_enforce_disk_transport;
         E_end_current_session_with_status SENTRY_SESSION_STATUS_CRASHED;
         E_unwind_stack_from_ucontext MAX_FRAMES;
         E_capture_event (VRef (length (heap w))) ]
    ++ dump_of (transport w)
    ++ restore_calls (plat w)
    ++ [E_leave_signal_handler]
    ++ rechain_all (plat w) sig info user_context
  /\ transport w' = Some DiskTransport
  /\ length (heap w')
     = (length (heap w) + 9
        + length (unwind (Posix.mk_ucontext sig info user_context)
                    MAX_FRAMES))%nat.
Proof.
intros Hk w'. subst w'. unfold Posix.handle_signal.
rewrite posix_handle_ucontext_run by exact Hk.
cbn [log transport heap Posix.uctx_signum Posix.uctx_siginfo
     Posix.uctx_user_context].
split; [reflexivity|]. split; [reflexivity|].
rewrite length_app. unfold event_cells.
rewrite !length_app, length_map, length_seq. cbn [length]. lia.
Qed.

(** The theorem at work on the started sample process. *)
Lemma posix_fault_call_sequence_witness :
  transport
    (exec (@Posix.handle_signal linux_consts [] sample_unwind 11 1 2)
       started_posix_world)
  = Some DiskTransport.
Proof.
destruct (@posix_fault_call_sequence linux_consts [] sample_unwind 11 1 2
            started_posix_world started_posix_world_known) as (_ & Ht & _).
exact Ht.
Defined.

(** [except] on POSIX with a signal number outside the table still runs the
    capture and still puts every recorded handler back (the backend's
    handlers are gone afterwards), but invokes no earlier handler and
    raises nothing: its last call is the one that leaves signal-handler
    mode. *)
Theorem except_outside_table_invokes_nothing `{posix_consts}
    (event_defaults : list (string * sentry_value_t))
    (unwind : Posix.sentry_ucontext_t -> nat -> list Z)
    (uctx : Posix.sentry_ucontext_t) (w : world Posix.state) :
  posix_consts_ok ->
  signals_known (plat w) ->
  ~ In (Posix.uctx_signum uctx)
      [SIGILL; SIGTRAP; SIGABRT; SIGBUS; SIGFPE; SIGSEGV] ->
  let w' := exec (Posix.handle_except event_defaults unwind uctx) w in
  (forall j, (j < Posix.SIGNAL_COUNT)%nat ->
     Posix.os_handlers (plat w') !! Posix.slot_signum j
     = Some (Posix.previous_handler (plat w) j))
  /\ last (log w') = Some E_leave_signal_handler
  /\ List.filter is_rechain_call (log w') = List.filter is_rechain_call (log w).
Proof.
intros Hok Hk Hout w'. subst w'. unfold Posix.handle_except.
rewrite posix_handle_ucontext_run by exact Hk.
cbn [plat log Posix.os_handlers].
rewrite rechain_all_other by exact Hout.
split; [|split].
- intros j Hj. apply restored_handlers_lookup; assumption.
- rewrite app_nil_r, !app_assoc. apply last_snoc.
- rewrite !List.filter_app.
  assert (E1 : List.filter is_rechain_call (dump_of (transport w)) = [])
    by (destruct (transport w); reflexivity).
  assert (E2 : List.filter is_rechain_call (restore_calls (plat w)) = [])
    by reflexivity.
  rewrite E1, E2. cbn. rewrite !app_nil_r. reflexivity.
Qed.

(** The theorem at work: [SIGTERM] (15) handed to [except]. *)
Lemma except_outside_table_invokes_nothing_witness :
  last (log (exec (@Posix.handle_except linux_consts [] sample_unwind
                     (Posix.mk_ucontext 15 1 2)) started_posix_world))
  = Some E_leave_signal_handler.
Proof.
destruct (@except_outside_table_invokes_nothing linux_consts [] sample_unwind
            (Posix.mk_ucontext 15 1 2) started_posix_world)
  as (_ & Hlast & _).
- exact linux_consts_ok.
- exact started_posix_world_known.
- cbn. intros [E|[E|[E|[E|[E|[E|[]]]]]]]; discriminate E.
- exact Hlast.
Defined.

(** ** The top-level filter across [startup] and [shutdown] *)

(** On the structural-exception platform [startup] installs
    [handle_exception] and sets the error mode; a [shutdown] that finds its
    own filter still installed puts back the filter [startup] replaced; a
    [shutdown] that finds a filter somebody installed in between leaves
    that filter (after installing the saved one for a moment); the error
    mode is never put back. *)
Theorem windows_shutdown_after_startup `{winnt_consts}
    (w : world Windows.state) :
  let w1 := exec Windows.startup_inproc_backend w in
  Windows.top_level_filter (plat w1) = addr_handle_exception
  /\ Windows.g_previous_handler (plat w1) = Windows.top_level_filter (plat w)
  /\ Windows.top_level_filter (plat (exec Windows.shutdown_inproc_backend w1))
     = Windows.top_level_filter (plat w)
  /\ Windows.error_mode (plat (exec Windows.shutdown_inproc_backend w1))
     = SEM_FAILCRITICALERRORS
  /\ (forall f,
        f <> addr_handle_exception ->
        let w2 := exec (Windows.SetUnhandledExceptionFilter f) w1 in
        let w3 := exec Windows.shutdown_inproc_backend w2 in
        Windows.top_level_filter (plat w3) = f
        /\ log w3
           = log w2
             ++ [ E_SetUnhandledExceptionFilter
                    (Windows.top_level_filter (plat w));
                  E_SetUnhandledExceptionFilter f ]).
Proof.
destruct w as [h t lg [flt mode prev]]. cbv zeta.
unfold Windows.startup_inproc_backend, Windows.shutdown_inproc_backend,
  Windows.SetUnhandledExceptionFilter, Windows.SetErrorMode,
  Windows.set_g_previous_handler, exec, bind, get_plat, set_plat, emit, ret.
cbn [plat log heap transport snd fst Windows.top_level_filter
     Windows.error_mode Windows.g_previous_handler].
rewrite Z.eqb_refl. cbn [negb snd plat Windows.top_level_filter
                         Windows.error_mode].
repeat (split; [reflexivity|]).
intros f Hf. apply Z.eqb_neq in Hf. rewrite Hf.
cbn [negb snd plat log Windows.top_level_filter].
split; [reflexivity|]. rewrite <- !app_assoc. reflexivity.
Qed.

(** The theorem at work: a debugger helper installs its filter (at 5000)
    after the backend started. *)
Lemma windows_shutdown_after_startup_witness :
  let w1 := exec (@Windows.startup_inproc_backend winnt_values)
              sample_windows_world in
  let w2 := exec (Windows.SetUnhandledExceptionFilter 5000) w1 in
  Windows.top_level_filter
    (plat (exec (@Windows.shutdown_inproc_backend winnt_values) w2))
  = 5000.
Proof.
destruct (@windows_shutdown_after_startup winnt_values sample_windows_world)
  as (_ & _ & _ & _ & Hthird).
destruct (Hthird 5000) as [Hf _].
- discriminate.
- exact Hf.
Defined.

Lemma windows_handle_ucontext_run `{winnt_consts}
    (event_defaults : list (string * sentry_value_t))
    (unwind : Windows.sentry_ucontext_t -> nat -> list Z)
    uctx (w : world Windows.state) :
  exec (Windows.handle_ucontext event_defaults unwind uctx) w
  = after_capture event_defaults
      (find_slot Windows.SIGNAL_DEFINITIONS
         (Windows.ExceptionCode (Windows.exception_ptrs uctx)))
      (unwind uctx MAX_FRAMES) w.
Proof.
unfold exec, Windows.handle_ucontext. rewrite handle_ucontext_run.
reflexivity.
Qed.

(** Every exception that is not one of the two debugger codes goes through
    the capture exactly once before the dispatcher answers. *)
Theorem handle_exception_captures `{winnt_consts}
    (event_defaults : list (string * sentry_value_t))
    (unwind : Windows.sentry_ucontext_t -> nat -> list Z)
    (ExceptionInfo : Windows.EXCEPTION_POINTERS)
    (w : world Windows.state) :
  Windows.ExceptionCode ExceptionInfo <> EXCEPTION_BREAKPOINT ->
  Windows.ExceptionCode ExceptionInfo <> EXCEPTION_SINGLE_STEP ->
  let w' :=
    exec (Windows.handle_exception event_defaults unwind ExceptionInfo) w in
  log w'
  = log w ++ capture_steps (VRef (length (heap w))) ++ dump_of (transport w)
  /\ transport w' = Some DiskTransport
  /\ plat w' = plat w
  /\ exception_count (heap w') (VRef (length (heap w))) = 1%nat.
Proof.
intros H1 H2 w'. subst w'. unfold Windows.handle_exception.
apply Z.eqb_neq in H1, H2. rewrite H1, H2. cbn [orb].
rewrite exec_bind, windows_handle_ucontext_run.
unfold after_capture, exec. cbn [ret snd log transport plat heap].
split; [reflexivity|]. split; [reflexivity|]. split; [reflexivity|].
apply event_exception_count.
Qed.

(** The theorem at work: an access violation. *)
Lemma handle_exception_captures_witness :
  log (exec (@Windows.handle_exception winnt_values [] sample_unwind
               (Windows.mk_exception_pointers 0xC0000005 0 0))
         sample_windows_world)
  = [ E_write_crash_marker;
      E_enforce_disk_transport;
      E_end_current_session_with_status SENTRY_SESSION_STATUS_CRASHED;
      E_unwind_stack_from_ucontext 128;
      E_capture_event (VRef 0);
      E_transport_dump_queue (Some (HostTransport 1)) ].
Proof.
destruct (@handle_exception_captures winnt_values [] sample_unwind
            (Windows.mk_exception_pointers 0xC0000005 0 0)
            sample_windows_world) as (Hl & _).
- discriminate.
- discriminate.
- exact Hl.
Defined.

(** [(int32_t)] turns a code with the top bit set, as every exception code
    of the table has, into a negative number. *)
Lemma to_int32_high x : 2 ^ 31 <= x < 2 ^ 32 -> to_int32 x = x - 2 ^ 32.
Proof.
intros Hx. unfold to_int32.
replace (x + 2 ^ 31) with ((x - 2 ^ 31) + 1 * 2 ^ 32) by lia.
rewrite Z.mod_add by lia. rewrite Z.mod_small by lia. lia.
Qed.

(** The signal meta of an event built for a slot whose number has the top
    bit of 32 set carries that number minus [2 ^ 32]: exception codes are
    reported as negative numbers; a number below [2 ^ 31], as every POSIX
    signal number is, is reported unchanged. *)
Theorem signal_number_is_int32 {P U : Type}
    (event_defaults : list (string * sentry_value_t))
    (unwind : U -> nat -> list Z)
    (s : signal_slot) (uctx : U) (w : world P) :
  let build := make_signal_event event_defaults unwind (Some s) uctx in
  let number := f_signal_number (fields_of (heap (exec build w)) (eval build w)) in
  (2 ^ 31 <= signum s < 2 ^ 32 -> number = VInt32 (signum s - 2 ^ 32))
  /\ (0 <= signum s < 2 ^ 31 -> number = VInt32 (signum s)).
Proof.
cbv zeta. rewrite make_signal_event_eval, make_signal_event_heap.
rewrite event_fields. cbn [f_signal_number slot_meta Value.find String.eqb
                           Ascii.eqb Bool.eqb default].
split; intros Hx.
- rewrite to_int32_high by exact Hx. reflexivity.
- rewrite to_int32_small by exact Hx. reflexivity.
Qed.

(** The theorem at work: [EXCEPTION_ACCESS_VIOLATION] is 0xC0000005. *)
Lemma signal_number_is_int32_witness :
  let build :=
    make_signal_event (P := Windows.state) (U := Windows.sentry_ucontext_t)
      [] sample_unwind
      (Some (SIGNAL_DEF 0xC0000005 "EXCEPTION_ACCESS_VIOLATION"
               "AccessViolation"))
      (Windows.mk_ucontext (Windows.mk_exception_pointers 0xC0000005 0 0)) in
  f_signal_number
    (fields_of (heap (exec build sample_windows_world))
       (eval build sample_windows_world))
  = VInt32 (-1073741819).
Proof.
destruct (@signal_number_is_int32 Windows.state Windows.sentry_ucontext_t []
            sample_unwind
            (SIGNAL_DEF 0xC0000005 "EXCEPTION_ACCESS_VIOLATION"
               "AccessViolation")
            (Windows.mk_ucontext (Windows.mk_exception_pointers 0xC0000005 0 0))
            sample_windows_world) as [Hhigh _].
cbv zeta. rewrite Hhigh.
- reflexivity.
- cbn. lia.
Defined.

(** ** The crashpad backend outside the ring *)

Section CrashpadRun.

Context `{winnt_consts}.

Lemma flush_scope_run o (w : world Crashpad.state) :
  exec (Crashpad.sentry__crashpad_backend_flush_scope o) w
  = match Crashpad.event_path (Crashpad.data (plat w)) with
    | None => w
    | Some path =>
        let event := VRef (length (heap w)) in
        let released :=
          mk_world (heap w ++ [TObject []]) (transport w)
            (log w
             ++ [ E_scope_apply_to_event event;
                  E_value_to_msgpack event;
                  E_value_decref event ])
            (plat w) in
        match mpack o with
        | None => released
        | Some buf =>
            mk_world (heap released) (transport w)
              (log released
               ++ [E_path_write_buffer path buf; E_free_mpack buf])
              (Crashpad.mk_state (Crashpad.data (plat w))
                 (<[path := match io o with
                            | IoOk => buf
                            | IoError residue => residue
                            end]> (Crashpad.files (plat w)))
                 (Crashpad.filter (plat w)))
        end
    end.
Proof.
destruct w as [h t lg [[d e p1 p2 c] fs flt]], o as [[buf|] [|r]];
  unfold Crashpad.sentry__crashpad_backend_flush_scope, Crashpad.get_data,
    Crashpad.sentry_value_decref, Crashpad.sentry_value_to_msgpack,
    Crashpad.sentry_free_mpack, Crashpad.sentry__scope_apply_to_event,
    Crashpad.sentry__path_write_buffer,
    Value.new_object, Value.alloc, exec, bind, get_plat, set_plat, get_heap,
    set_heap, emit, ret;
  cbn; destruct e; cbn; rewrite <- ?app_assoc; reflexivity.
Qed.

End CrashpadRun.

(** [flush_scope] without an event file does nothing at all.  With one, it
    applies the scope to the object it built, encodes it and releases it,
    and, when the object encodes, replaces the content of the event file by
    the encoding: a second flush leaves only its own encoding; when the
    object does not encode the file is not touched and no further call is
    made.  It never changes the backend's data (the ring counter and the
    paths). *)
Theorem flush_scope_overwrites (o1 o2 : outcome) (w : world Crashpad.state) :
  let flush := Crashpad.sentry__crashpad_backend_flush_scope in
  (Crashpad.event_path (Crashpad.data (plat w)) = None ->
   exec (flush o1) w = w)
  /\ (forall path buf1 buf2,
        Crashpad.event_path (Crashpad.data (plat w)) = Some path ->
        mpack o1 = Some buf1 -> mpack o2 = Some buf2 -> io o2 = IoOk ->
        Crashpad.files (plat (exec (flush o2) (exec (flush o1) w))) !! path
        = Some buf2)
  /\ (forall path,
        Crashpad.event_path (Crashpad.data (plat w)) = Some path ->
        mpack o1 = None ->
        Crashpad.files (plat (exec (flush o1) w)) = Crashpad.files (plat w)
        /\ log (exec (flush o1) w)
           = log w
             ++ [ E_scope_apply_to_event (VRef (length (heap w)));
                  E_value_to_msgpack (VRef (length (heap w)));
                  E_value_decref (VRef (length (heap w))) ])
  /\ Crashpad.data (plat (exec (flush o1) w)) = Crashpad.data (plat w).
Proof.
cbv zeta. split; [|split; [|split]].
- intros E. rewrite flush_scope_run, E. reflexivity.
- intros path buf1 buf2 E E1 E2 Eio.
  rewrite (flush_scope_run o2), (flush_scope_run o1), E, E1. cbv zeta.
  cbn [plat Crashpad.data]. rewrite E, E2, Eio.
  cbn [plat Crashpad.files]. apply lookup_insert_eq.
- intros path E E1. rewrite flush_scope_run, E, E1. cbv zeta.
  split; reflexivity.
- rewrite flush_scope_run.
  destruct (Crashpad.event_path (Crashpad.data (plat w))); [|reflexivity].
  cbv zeta. destruct (mpack o1); reflexivity.
Qed.

(** The theorem at work: two flushes on the started sample process. *)
Lemma flush_scope_overwrites_witness :
  Crashpad.files
    (plat (exec (Crashpad.sentry__crashpad_backend_flush_scope
                   (mk_outcome (Some [Byte.x02]) IoOk))
             (exec (Crashpad.sentry__crashpad_backend_flush_scope
                      (mk_outcome (Some [Byte.x01; Byte.x01]) IoOk))
                (started_crashpad_world SENTRY_PLATFORM_LINUX))))
  !! "run/__sentry-event"
  = Some [Byte.x02].
Proof.
destruct (flush_scope_overwrites
            (mk_outcome (Some [Byte.x01; Byte.x01]) IoOk)
            (mk_outcome (Some [Byte.x02]) IoOk)
            (started_crashpad_world SENTRY_PLATFORM_LINUX))
  as (_ & Htwice & _).
apply (Htwice "run/__sentry-event" [Byte.x01; Byte.x01] [Byte.x02]).
- vm_compute. reflexivity.
- reflexivity.
- reflexivity.
- reflexivity.
Defined.

(** What [sentry__crashpad_handler] does before crashpad takes over: the
    crash marker, the swap to the disk transport, the end of the session
    with status crashed, the dump of the queue of the transport the swap
    returned (asked for even when there was none), the release of the disk
    transport; it captures no event and leaves the earlier transport
    installed again.  Elsewhere than on Windows this is bracketed by the
    page allocator and the signal-handler mode and the answer is [false];
    on Windows the saved filter is called last and its answer returned. *)
Theorem crashpad_hook_calls `{winnt_consts} (platform : sentry_platform)
    (previous_result : Z) (w : world Crashpad.state) :
  let hook := Crashpad.sentry__crashpad_handler platform previous_result in
  let steps :=
    [ E_write_crash_marker;
      E_enforce_disk_transport;
      E_end_current_session_with_status SENTRY_SESSION_STATUS_CRASHED;
      E_transport_dump_queue (transport w);
      E_transport_free (Some DiskTransport) ] in
  transport (exec hook w) = transport w
  /\ heap (exec hook w) = heap w
  /\ plat (exec hook w) = plat w
  /\ match platform with
     | SENTRY_PLATFORM_WINDOWS =>
         log (exec hook w)
         = log w ++ steps
           ++ [E_call_previous_filter
                 (Windows.g_previous_handler (Crashpad.filter (plat w)))]
         /\ eval hook w = previous_result
     | _ =>
         log (exec hook w)
         = log w
           ++ [E_page_allocator_enable; E_enter_signal_handler]
           ++ steps ++ [E_leave_signal_handler]
         /\ eval hook w = 0
     end.
Proof.
destruct w as [h t lg st]. cbv zeta.
unfold Crashpad.sentry__crashpad_handler, Crashpad.with_options_block,
  Crashpad.sentry__enforce_disk_transport_options.
destruct platform;
  cbv [exec eval bind get_plat get_transport set_transport emit ret
       plat log heap transport fst snd];
  rewrite <- !app_assoc; repeat split.
Qed.

(** [shutdown] after [startup] leaves the top-level filter as [startup]
    found it, on every platform and whether [startup] got as far as
    installing its hook or not (the filter found not being the hook
    itself); and [shutdown] always drops the database handle. *)
Theorem crashpad_shutdown_after_startup `{winnt_consts}
    (platform : sentry_platform) (handler_is_file : bool) (run_path : string)
    (flush : outcome) (db_handle : option Z) (success : bool)
    (w : world Crashpad.state) :
  Windows.top_level_filter (Crashpad.filter (plat w))
  <> addr_sentry__crashpad_handler ->
  let w1 :=
    exec (Crashpad.sentry__crashpad_backend_startup platform handler_is_file
            run_path flush db_handle success) w in
  let w2 := exec (Crashpad.sentry__crashpad_backend_shutdown platform) w1 in
  Windows.top_level_filter (Crashpad.filter (plat w2))
  = Windows.top_level_filter (Crashpad.filter (plat w))
  /\ Crashpad.db (Crashpad.data (plat w2)) = None
  /\ Crashpad.breadcrumb1_path (Crashpad.data (plat w2))
     = Crashpad.breadcrumb1_path (Crashpad.data (plat w1))
  /\ Crashpad.num_breadcrumbs (Crashpad.data (plat w2))
     = Crashpad.num_breadcrumbs (Crashpad.data (plat w)).
Proof.
intros Hne. apply Z.eqb_neq in Hne.
destruct w as [h t lg [[d e p1 p2 c] fs [flt mode prev]]].
cbn [plat Crashpad.filter Windows.top_level_filter] in Hne. cbv zeta.
destruct handler_is_file, success, platform, flush as [[buf|] [|r]];
  cbv [Crashpad.sentry__crashpad_backend_startup
       Crashpad.sentry__crashpad_backend_shutdown
       Crashpad.sentry__crashpad_backend_flush_scope Crashpad.sentry__path_touch
       Crashpad.sentry__path_join_str Crashpad.sentry__path_write_buffer
       Crashpad.sentry_value_decref Crashpad.sentry_value_to_msgpack
       Crashpad.sentry_free_mpack Crashpad.sentry__scope_apply_to_event
       Crashpad.in_filter zoom
       Crashpad.get_data Crashpad.set_data Value.new_object Value.alloc
       Windows.SetUnhandledExceptionFilter Windows.set_g_previous_handler
       exec bind get_plat set_plat get_heap set_heap emit ret
       negb plat heap log transport fst snd mpack io
       Crashpad.data Crashpad.files Crashpad.filter Crashpad.db
       Crashpad.event_path Crashpad.breadcrumb1_path
       Crashpad.breadcrumb2_path Crashpad.num_breadcrumbs
       Windows.top_level_filter Windows.error_mode
       Windows.g_previous_handler];
  rewrite ?Z.eqb_refl, ?Hne;
  cbv [negb plat snd Crashpad.data Crashpad.filter Crashpad.db
       Crashpad.breadcrumb1_path Crashpad.num_breadcrumbs
       Windows.top_level_filter];
  repeat split.
Qed.

(** The theorem at work: the sample process on Windows. *)
Lemma crashpad_shutdown_after_startup_witness :
  Windows.top_level_filter
    (Crashpad.filter
       (plat (exec (@Crashpad.sentry__crashpad_backend_shutdown winnt_values
                      SENTRY_PLATFORM_WINDOWS)
                (started_crashpad_world SENTRY_PLATFORM_WINDOWS))))
  = 4242.
Proof.
destruct (@crashpad_shutdown_after_startup winnt_values
            SENTRY_PLATFORM_WINDOWS true "run" (mk_outcome (Some []) IoOk)
            (Some 1) true new_crashpad_world) as (Hf & _).
- discriminate.
- exact Hf.
Defined.

(** ** More on the breadcrumb ring *)

(** One call changes at most its target file: every other file, the event
    file and the other ring file among them, keeps its content, whatever the
    outcome of the encoding and of the write. *)
Theorem add_breadcrumb_touches_one_file `{crumb_consts} (o : outcome)
    (b : sentry_value_t) (path : string) (w : world Crashpad.state) :
  file_at (plat w) (Crashpad.num_breadcrumbs (Crashpad.data (plat w)))
  <> Some path ->
  let w' := exec (Crashpad.sentry__crashpad_backend_add_breadcrumb o b) w in
  Crashpad.files (plat w') !! path = Crashpad.files (plat w) !! path
  /\ heap w' = heap w
  /\ transport w' = transport w
  /\ Crashpad.filter (plat w') = Crashpad.filter (plat w).
Proof.
intros Hne. cbv zeta.
destruct (file_at (plat w)
            (Crashpad.num_breadcrumbs (Crashpad.data (plat w))))
  as [f|] eqn:Ef.
- assert (Hf : f <> path) by congruence.
  split.
  + destruct (mpack o) as [buf|] eqn:Em.
    * destruct (add_with_encoding o b w f buf Ef Em) as [_ Hfiles].
      rewrite Hfiles. destruct (io o); apply lookup_insert_ne; exact Hf.
    * destruct (add_without_encoding o b w f Ef Em) as [_ Hfiles].
      rewrite Hfiles. reflexivity.
  + clear Hne Hf. revert Ef.
    destruct w as [h t lg [[d e p1 p2 c] fs flt]], o as [[buf|] [|r]];
      cbv [file_at Crashpad.sentry__crashpad_backend_add_breadcrumb
           Crashpad.get_data Crashpad.set_data Crashpad.sentry_value_decref
           Crashpad.sentry_value_to_msgpack Crashpad.sentry_free_mpack
           Crashpad.sentry__path_write_buffer
           Crashpad.sentry__path_append_buffer exec bind get_plat set_plat
           emit ret plat heap log transport snd fst mpack io Crashpad.data
           Crashpad.files Crashpad.filter Crashpad.breadcrumb1_path
           Crashpad.breadcrumb2_path Crashpad.num_breadcrumbs];
      intros ->;
      try destruct (Z.eqb (c mod SENTRY_BREADCRUMBS_MAX) 0); repeat split.
- destruct (add_without_file o b w Ef) as [_ Hfiles].
  split; [rewrite Hfiles; reflexivity|].
  revert Ef.
  destruct w as [h t lg [[d e p1 p2 c] fs flt]], o as [[buf|] [|r]];
    cbv [file_at Crashpad.sentry__crashpad_backend_add_breadcrumb
         Crashpad.get_data Crashpad.set_data Crashpad.sentry_value_decref
         Crashpad.sentry_value_to_msgpack Crashpad.sentry_free_mpack
         Crashpad.sentry__path_write_buffer
         Crashpad.sentry__path_append_buffer exec bind get_plat set_plat
         emit ret plat heap log transport snd fst mpack io Crashpad.data
         Crashpad.files Crashpad.filter Crashpad.breadcrumb1_path
         Crashpad.breadcrumb2_path Crashpad.num_breadcrumbs];
    intros ->; repeat split.
Qed.

Lemma started_file_at_zero :
  @file_at crumbs_100_64 (plat (started_crashpad_world SENTRY_PLATFORM_LINUX))
    0
  = Some "run/__sentry-breadcrumb1".
Proof. vm_compute. reflexivity. Qed.

Lemma started_counter_zero :
  Crashpad.num_breadcrumbs
    (Crashpad.data (plat (started_crashpad_world SENTRY_PLATFORM_LINUX))) = 0.
Proof. vm_compute. reflexivity. Qed.

(** The theorem at work: the first breadcrumb leaves the event file alone,
    even when its write fails. *)
Lemma add_breadcrumb_touches_one_file_witness :
  let w := started_crashpad_world SENTRY_PLATFORM_LINUX in
  Crashpad.files
    (plat (exec (@Crashpad.sentry__crashpad_backend_add_breadcrumb
                   crumbs_100_64
                   (mk_outcome (Some [Byte.x01]) (IoError [])) (VRef 7)) w))
  !! "run/__sentry-event"
  = Crashpad.files (plat w) !! "run/__sentry-event".
Proof.
destruct (@add_breadcrumb_touches_one_file crumbs_100_64
            (mk_outcome (Some [Byte.x01]) (IoError [])) (VRef 7)
            "run/__sentry-event"
            (started_crashpad_world SENTRY_PLATFORM_LINUX)) as (Hf & _).
- rewrite started_counter_zero, started_file_at_zero. discriminate.
- exact Hf.
Defined.

(** A call that has a target file hands the breadcrumb to the encoder and
    then releases it, exactly once, whether the encoding fails, the write
    fails or all goes well.  A failed encoding ends the call there;
    otherwise one write or append to the target file follows and then the
    release of the buffer, whatever the write answered. *)
Theorem breadcrumb_released_exactly_once `{crumb_consts} (o : outcome)
    (b : sentry_value_t) (f : string) (w : world Crashpad.state) :
  file_at (plat w) (Crashpad.num_breadcrumbs (Crashpad.data (plat w)))
  = Some f ->
  exists rest,
    log (exec (Crashpad.sentry__crashpad_backend_add_breadcrumb o b) w)
    = log w ++ [E_value_to_msgpack b; E_value_decref b] ++ rest
    /\ rest
       = match mpack o with
         | None => []
         | Some buf =>
             [ if Z.eqb (Crashpad.num_breadcrumbs (Crashpad.data (plat w))
                         mod SENTRY_BREADCRUMBS_MAX) 0
               then E_path_write_buffer f buf
               else E_path_append_buffer f buf;
               E_free_mpack buf ]
         end
    /\ List.filter
         (fun e => match e with E_value_decref _ => true | _ => false end)
         rest = [].
Proof.
intros Hf. destruct (mpack o) as [buf|] eqn:Em.
- destruct (add_with_encoding o b w f buf Hf Em) as [Hl _].
  eexists. split; [exact Hl|]. split; [reflexivity|].
  destruct (Z.eqb _ 0); reflexivity.
- destruct (add_without_encoding o b w f Hf Em) as [Hl _].
  exists []. split; [exact Hl|]. split; reflexivity.
Qed.

(** The theorem at work: a write that fails. *)
Lemma breadcrumb_released_exactly_once_witness :
  let w := started_crashpad_world SENTRY_PLATFORM_LINUX in
  log (exec (@Crashpad.sentry__crashpad_backend_add_breadcrumb
               crumbs_100_64
               (mk_outcome (Some [Byte.x01]) (IoError [])) (VRef 7)) w)
  = log w
    ++ [ E_value_to_msgpack (VRef 7);
         E_value_decref (VRef 7);
         E_path_write_buffer "run/__sentry-breadcrumb1" [Byte.x01];
         E_free_mpack [Byte.x01] ].
Proof.
destruct (@breadcrumb_released_exactly_once crumbs_100_64
            (mk_outcome (Some [Byte.x01]) (IoError [])) (VRef 7)
            "run/__sentry-breadcrumb1"
            (started_crashpad_world SENTRY_PLATFORM_LINUX))
  as (rest & Hl & Hrest & _).
- rewrite started_counter_zero. exact started_file_at_zero.
- rewrite started_counter_zero in Hrest. cbn [mpack] in Hrest.
  rewrite Hrest in Hl. exact Hl.
Defined.

Lemma block_file_flips `{crumb_consts} (file_a file_b : string) c :
  0 < SENTRY_BREADCRUMBS_MAX ->
  file_a <> file_b ->
  block_file file_a file_b (c + SENTRY_BREADCRUMBS_MAX)
  <> block_file file_a file_b c.
Proof.
intros Hpos Hne. unfold block_file. rewrite other_half by exact Hpos.
destruct (Z.ltb _ _); cbn [negb]; congruence.
Qed.

(** What the ring retains.  After any number of calls that all encode and
    write well (and before the counter could wrap), the file of the current
    block holds exactly the records of the calls made since the last
    multiple of [MAX], in order, and the other file holds exactly the [MAX]
    records of the block before, in order; older records are gone.  Within
    the first block the second file has not been written at all. *)
Theorem ring_retains_last_blocks `{crumb_consts} (file_a file_b : string) :
  crumb_consts_ok ->
  (forall older previous current (w : world Crashpad.state),
     ring_started file_a file_b (plat w) ->
     Z.of_nat (length older) mod SENTRY_BREADCRUMBS_MAX = 0 ->
     Z.of_nat (length previous) = SENTRY_BREADCRUMBS_MAX ->
     current <> [] ->
     Z.of_nat (length current) <= SENTRY_BREADCRUMBS_MAX ->
     Z.of_nat (length older) + 2 * SENTRY_BREADCRUMBS_MAX < 2 ^ SIZE_BITS ->
     let w' :=
       exec (Crashpad.add_breadcrumbs
               (map ok_call (older ++ previous ++ current))) w in
     let start := Z.of_nat (length older) + SENTRY_BREADCRUMBS_MAX in
     Crashpad.files (plat w') !! block_file file_a file_b start
     = Some (records current)
     /\ Crashpad.files (plat w')
        !! block_file file_a file_b (Z.of_nat (length older))
        = Some (records previous)
     /\ block_file file_a file_b start
        <> block_file file_a file_b (Z.of_nat (length older)))
  /\ (forall current (w : world Crashpad.state),
        ring_started file_a file_b (plat w) ->
        current <> [] ->
        Z.of_nat (length current) <= SENTRY_BREADCRUMBS_MAX ->
        let w' := exec (Crashpad.add_breadcrumbs (map ok_call current)) w in
        Crashpad.files (plat w') !! file_a = Some (records current)
        /\ Crashpad.files (plat w') !! file_b
           = Crashpad.files (plat w) !! file_b).
Proof.
intros Hok.
pose proof (max_positive Hok) as Hpos.
pose proof (size_limit Hok) as Hlim.
split.
- intros older previous current w (E1 & E2 & En & Hne) Hmod Hprev Hcur Hlen
    Hwrap w' start. subst w' start.
  rewrite !map_app, !add_breadcrumbs_app.
  destruct (add_breadcrumbs_paths (map ok_call older) w) as [P1 P2].
  assert (Hn : Crashpad.num_breadcrumbs
                 (Crashpad.data
                    (plat (exec (Crashpad.add_breadcrumbs (map ok_call older))
                             w)))
               = Z.of_nat (length older)).
  { rewrite <- (length_map ok_call older).
    apply counter_is_call_count; [exact En|]. rewrite length_map. lia. }
  set (w0 := exec (Crashpad.add_breadcrumbs (map ok_call older)) w) in *.
  destruct (block_run Hok file_a file_b previous (Z.of_nat (length older)) w0)
    as (N1 & A1 & B1 & F1); try lia; try congruence.
  { intros ->. cbn in Hprev. lia. }
  set (w1 := exec (Crashpad.add_breadcrumbs (map ok_call previous)) w0) in *.
  destruct (block_run Hok file_a file_b current
              (Z.of_nat (length older) + SENTRY_BREADCRUMBS_MAX) w1)
    as (N2 & A2 & B2 & F2); try lia; try assumption.
  { rewrite <- Z.add_mod_idemp_l, Hmod by lia.
    rewrite Z.add_0_l. apply Z.mod_same. lia. }
  pose proof (block_file_flips file_a file_b (Z.of_nat (length older))
                Hpos Hne) as Hflip.
  rewrite F2, F1. split; [apply lookup_insert_eq|].
  split; [|exact Hflip].
  rewrite lookup_insert_ne by exact Hflip. apply lookup_insert_eq.
- intros current w (E1 & E2 & En & Hne) Hcur Hlen w'. subst w'.
  destruct (block_run Hok file_a file_b current 0 w)
    as (N1 & A1 & B1 & F1); try lia; try assumption.
  { apply Z.mod_0_l. lia. }
  assert (Ha : block_file file_a file_b 0 = file_a).
  { unfold block_file. rewrite Z.mod_0_l by lia.
    destruct (Z.ltb_spec 0 SENTRY_BREADCRUMBS_MAX); [reflexivity | lia]. }
  rewrite Ha in F1. rewrite F1. split; [apply lookup_insert_eq|].
  apply lookup_insert_ne. exact Hne.
Qed.

(** The theorem at work: a ring of two, four older calls, then a full
    block, then one call. *)
Lemma ring_retains_last_blocks_witness :
  let w' :=
    exec (@Crashpad.add_breadcrumbs crumbs_2_64
            (map ok_call
               ([([Byte.x01], VNull); ([Byte.x02], VNull);
                 ([Byte.x03], VNull); ([Byte.x04], VNull)]
                ++ [([Byte.x05], VNull); ([Byte.x06], VNull)]
                ++ [([Byte.x07], VNull)])))
      (started_crashpad_world SENTRY_PLATFORM_LINUX) in
  Crashpad.files (plat w')
  !! @block_file crumbs_2_64 "run/__sentry-breadcrumb1"
       "run/__sentry-breadcrumb2" (Z.of_nat 4 + 2)
  = Some [Byte.x07]
  /\ Crashpad.files (plat w')
     !! @block_file crumbs_2_64 "run/__sentry-breadcrumb1"
          "run/__sentry-breadcrumb2" (Z.of_nat 4)
     = Some [Byte.x05; Byte.x06].
Proof.
destruct (@ring_retains_last_blocks crumbs_2_64
            "run/__sentry-breadcrumb1" "run/__sentry-breadcrumb2"
            crumbs_2_64_ok) as (Hlast & _).
destruct (Hlast [([Byte.x01], VNull); ([Byte.x02], VNull);
                 ([Byte.x03], VNull); ([Byte.x04], VNull)]
            [([Byte.x05], VNull); ([Byte.x06], VNull)]
            [([Byte.x07], VNull)]
            (started_crashpad_world SENTRY_PLATFORM_LINUX))
  as (Hcur & Hprev & _).
- apply started_crashpad_ring.
- reflexivity.
- reflexivity.
- discriminate.
- cbn. lia.
- cbn. lia.
- split; [exact Hcur | exact Hprev].
Defined.

(** ** What [make_signal_event] leaves alone *)

(** [make_signal_event] only adds to the store: the event is a new cell,
    every value that existed before is unchanged, and nine cells plus one
    per frame are added.  Outside the value API it makes one call, to the
    unwinder, asking for at most [MAX_FRAMES] frames; it leaves the
    transport and the handler state alone.  The members
    [sentry_value_new_event] put into the event stay as they were, except
    [level] and [exception], which are set here. *)
Theorem make_signal_event_only_adds {P U : Type}
    (defaults : list (string * sentry_value_t)) (unwind : U -> nat -> list Z)
    (s : option signal_slot) (uctx : U) (w : world P) :
  let event := eval (make_signal_event defaults unwind s uctx) w in
  let w' := exec (make_signal_event defaults unwind s uctx) w in
  event = VRef (length (heap w))
  /\ (forall i, (i < length (heap w))%nat -> heap w' !! i = heap w !! i)
  /\ length (heap w')
     = (length (heap w) + 9 + length (unwind uctx MAX_FRAMES))%nat
  /\ transport w' = transport w
  /\ log w' = log w ++ [E_unwind_stack_from_ucontext 128]
  /\ plat w' = plat w
  /\ (forall k, k <> "level" -> k <> "exception" ->
        Value.get_by_key (heap w') event k
        = default VNull (Value.find k defaults)).
Proof.
destruct w as [h t lg p]. unfold eval, exec.
rewrite make_signal_event_run. cbn [fst snd heap transport log plat].
split; [reflexivity|]. split; [|split; [|repeat split]].
- intros i Hi. apply lookup_app_l. exact Hi.
- rewrite length_app. unfold event_cells.
  cbn [app length]. rewrite !length_app, length_map, length_seq.
  cbn [length]. lia.
- intros k Hl He. unfold Value.get_by_key.
  pose proof (event_cell_first defaults h s (unwind uctx MAX_FRAMES)) as E.
  cbv zeta in E. rewrite E.
  rewrite !find_put_ne by congruence. reflexivity.
Qed.

(** ** The scan of the table *)

Lemma scan_stays_found (code : Z) (l : list signal_slot) (x : signal_slot) :
  fold_left
    (fun sig_slot s => if Z.eqb (signum s) code then Some s else sig_slot)
    l (Some x) <> None.
Proof.
revert x. induction l as [|y l IH]; intros x; cbn [fold_left];
  [discriminate|].
destruct (Z.eqb (signum y) code); apply IH.
Qed.

(** The scan of [handle_ucontext] has no [break]: of several slots with
    the code it keeps the last one, whatever stands before it; and it finds
    a slot exactly when the table has one with the code. *)
Theorem find_slot_keeps_last_match (table : list signal_slot) (code : Z) :
  (forall before s after,
     table = before ++ s :: after ->
     signum s = code ->
     (forall x, In x after -> signum x <> code) ->
     find_slot table code = Some s)
  /\ (find_slot table code = None
      <-> forall x, In x table -> signum x <> code).
Proof.
split.
- intros before s after -> Hs Hafter. unfold find_slot.
  rewrite fold_left_app. cbn [fold_left].
  apply Z.eqb_eq in Hs. rewrite Hs.
  apply scan_none. exact Hafter.
- split.
  + intros Hnone x Hx Hc.
    apply in_split in Hx as (l1 & l2 & ->). unfold find_slot in Hnone.
    rewrite fold_left_app in Hnone. cbn [fold_left] in Hnone.
    apply Z.eqb_eq in Hc. rewrite Hc in Hnone.
    exact (scan_stays_found code l2 x Hnone).
  + apply find_slot_none.
Qed.

(** The theorem at work: two slots with the same number. *)
Lemma find_slot_keeps_last_match_witness :
  find_slot
    [SIGNAL_DEF 11 "SIGSEGV" "Segfault"; SIGNAL_DEF 7 "SIGBUS" "BusError";
     SIGNAL_DEF 11 "SECOND" "Second"] 11
  = Some (SIGNAL_DEF 11 "SECOND" "Second").
Proof.
destruct (find_slot_keeps_last_match
            [SIGNAL_DEF 11 "SIGSEGV" "Segfault";
             SIGNAL_DEF 7 "SIGBUS" "BusError";
             SIGNAL_DEF 11 "SECOND" "Second"] 11) as (Hlast & _).
apply (Hlast [SIGNAL_DEF 11 "SIGSEGV" "Segfault";
              SIGNAL_DEF 7 "SIGBUS" "BusError"]
         (SIGNAL_DEF 11 "SECOND" "Second") []).
- reflexivity.
- reflexivity.
- intros x [].
Defined.

(** ** What the crashpad [startup] prepares *)

Lemma path_join_inj (base a b : string) :
  Crashpad.sentry__path_join_str base a
  = Crashpad.sentry__path_join_str base b -> a = b.
Proof.
unfold Crashpad.sentry__path_join_str. intros E. injection E as E.
induction base as [|c base IH]; cbn in E.
- injection E as E. exact E.
- injection E as E. apply IH. exact E.
Qed.

(** [startup] without a handler executable leaves everything as it was: no
    path is set and no file is made.  With one, and whatever the database
    and [StartHandler] answer, it names the three files inside the run
    directory, makes them exist, keeps what the two breadcrumb files held
    (the first scope flush writes to the event file only), and leaves the
    ring counter alone: from a new backend the ring is ready for its first
    call, with two different files. *)
Theorem crashpad_startup_prepares_ring `{winnt_consts}
    (platform : sentry_platform) (run_path : string) (flush : outcome)
    (db_handle : option Z) (success : bool) (w : world Crashpad.state) :
  let go found :=
    exec (Crashpad.sentry__crashpad_backend_startup platform found run_path
            flush db_handle success) w in
  let event_file := run_path +:+ "/" +:+ "__sentry-event" in
  let file_a := run_path +:+ "/" +:+ "__sentry-breadcrumb1" in
  let file_b := run_path +:+ "/" +:+ "__sentry-breadcrumb2" in
  go false = w
  /\ Crashpad.event_path (Crashpad.data (plat (go true))) = Some event_file
  /\ Crashpad.breadcrumb1_path (Crashpad.data (plat (go true))) = Some file_a
  /\ Crashpad.breadcrumb2_path (Crashpad.data (plat (go true))) = Some file_b
  /\ Crashpad.db (Crashpad.data (plat (go true))) = db_handle
  /\ Crashpad.num_breadcrumbs (Crashpad.data (plat (go true)))
     = Crashpad.num_breadcrumbs (Crashpad.data (plat w))
  /\ is_Some (Crashpad.files (plat (go true)) !! event_file)
  /\ Crashpad.files (plat (go true)) !! file_a
     = Some (default [] (Crashpad.files (plat w) !! file_a))
  /\ Crashpad.files (plat (go true)) !! file_b
     = Some (default [] (Crashpad.files (plat w) !! file_b))
  /\ (Crashpad.num_breadcrumbs (Crashpad.data (plat w)) = 0 ->
      ring_started file_a file_b (plat (go true))).
Proof.
cbv zeta.
assert (Hab : run_path +:+ "/" +:+ "__sentry-breadcrumb1"
              <> run_path +:+ "/" +:+ "__sentry-breadcrumb2").
{ intros E.
  assert (E' : Crashpad.sentry__path_join_str run_path "__sentry-breadcrumb1"
               = Crashpad.sentry__path_join_str run_path
                   "__sentry-breadcrumb2")
    by (unfold Crashpad.sentry__path_join_str; rewrite E; reflexivity).
  apply path_join_inj in E'. discriminate E'. }
assert (Hea : run_path +:+ "/" +:+ "__sentry-event"
              <> run_path +:+ "/" +:+ "__sentry-breadcrumb1").
{ intros E.
  assert (E' : Crashpad.sentry__path_join_str run_path "__sentry-event"
               = Crashpad.sentry__path_join_str run_path
                   "__sentry-breadcrumb1")
    by (unfold Crashpad.sentry__path_join_str; rewrite E; reflexivity).
  apply path_join_inj in E'. discriminate E'. }
assert (Heb : run_path +:+ "/" +:+ "__sentry-event"
              <> run_path +:+ "/" +:+ "__sentry-breadcrumb2").
{ intros E.
  assert (E' : Crashpad.sentry__path_join_str run_path "__sentry-event"
               = Crashpad.sentry__path_join_str run_path
                   "__sentry-breadcrumb2")
    by (unfold Crashpad.sentry__path_join_str; rewrite E; reflexivity).
  apply path_join_inj in E'. discriminate E'. }
set (event_file := run_path +:+ "/" +:+ "__sentry-event") in *.
set (file_a := run_path +:+ "/" +:+ "__sentry-breadcrumb1") in *.
set (file_b := run_path +:+ "/" +:+ "__sentry-breadcrumb2") in *.
destruct w as [h t lg [[d e p1 p2 c] fs [flt mode prev]]].
split; [reflexivity|].
unfold ring_started.
destruct success, platform, flush as [[buf|] [|r]];
  cbv [Crashpad.sentry__crashpad_backend_startup
       Crashpad.sentry__crashpad_backend_flush_scope Crashpad.sentry__path_touch
       Crashpad.sentry__path_join_str Crashpad.sentry__path_write_buffer
       Crashpad.sentry_value_decref Crashpad.sentry_value_to_msgpack
       Crashpad.sentry_free_mpack Crashpad.sentry__scope_apply_to_event
       Crashpad.in_filter zoom
       Crashpad.get_data Crashpad.set_data Value.new_object Value.alloc
       Windows.SetUnhandledExceptionFilter Windows.set_g_previous_handler
       exec bind get_plat set_plat get_heap set_heap emit ret
       negb plat heap log transport fst snd mpack io
       Crashpad.data Crashpad.files Crashpad.filter Crashpad.db
       Crashpad.event_path Crashpad.breadcrumb1_path
       Crashpad.breadcrumb2_path Crashpad.num_breadcrumbs
       Windows.top_level_filter Windows.error_mode
       Windows.g_previous_handler];
  fold event_file; fold file_a; fold file_b;
  repeat split;
  repeat (first
    [ rewrite lookup_insert_eq
    | rewrite lookup_insert_ne
        by (first [ exact Hab | exact Hea | exact Heb
                  | intros E; symmetry in E;
                    first [ exact (Hab E) | exact (Hea E) | exact (Heb E) ] ])
    ]);
  eauto.
Qed.

(** The theorem at work: a new backend started in the directory "run". *)
Lemma crashpad_startup_prepares_ring_witness :
  ring_started ("run" +:+ "/" +:+ "__sentry-breadcrumb1")
    ("run" +:+ "/" +:+ "__sentry-breadcrumb2")
    (plat (started_crashpad_world SENTRY_PLATFORM_LINUX)).
Proof.
destruct (@crashpad_startup_prepares_ring winnt_values SENTRY_PLATFORM_LINUX
            "run" (mk_outcome (Some []) IoOk) (Some 1) true
            new_crashpad_world)
  as (_ & _ & _ & _ & _ & _ & _ & _ & _ & Hring).
apply Hring. reflexivity.
Defined.
